(** * kcp: request handler chain, core discovery merge and workspace admission

    A shallow embedding of [pkg/server/handler.go] (the HTTP handler chain
    and the core-group discovery merge), of the ClusterWorkspace admission
    plugin exercised by [pkg/admission/clusterworkspace/admission_test.go]
    and of the readiness loop of [startFrontProxy], followed by the
    properties of these programs.

    Go strings are byte sequences and are modelled as [string]; Go [int]
    values that may be [-1] are modelled in [Z]; Go maps are [gmap]s. *)

From Stdlib Require Import ZArith String Ascii List Lia Bool.
From Stdlib Require Import Sorting.Sorted Sorting.Permutation Structures.OrderedTypeEx.
From stdpp Require Import gmap strings list sorting.

#[local] Set Warnings "-register-all".

Local Open Scope string_scope.
Local Open Scope Z_scope.
Local Open Scope list_scope.

(** ** Part I: the programs *)

(** *** Go's [strings] package, on byte strings *)

Module GoStrings.

(** [len(s)] *)
Definition len (s : string) : Z := Z.of_nat (String.length s).

(** [s[n:]] for [0 <= n <= len(s)] *)
Fixpoint slice_from (n : nat) (s : string) : string :=
  match n, s with
  | O, _ => s
  | S n', String _ t => slice_from n' t
  | S _, EmptyString => EmptyString
  end.

(** [s[:n]] for [0 <= n <= len(s)] *)
Fixpoint slice_to (n : nat) (s : string) : string :=
  match n, s with
  | O, _ => EmptyString
  | S n', String c t => String c (slice_to n' t)
  | S _, EmptyString => EmptyString
  end.

(** [strings.HasPrefix(s, prefix)] *)
Fixpoint HasPrefix (s prefix : string) {struct prefix} : bool :=
  match prefix, s with
  | EmptyString, _ => true
  | String _ _, EmptyString => false
  | String a p, String b t => Ascii.eqb a b && HasPrefix t p
  end.

(** [strings.TrimPrefix(s, prefix)] *)
Definition TrimPrefix (s prefix : string) : string :=
  if HasPrefix s prefix then slice_from (String.length prefix) s else s.

(** Position of the first occurrence of [substr] in [s], if any. *)
Fixpoint index_of (s substr : string) : option nat :=
  if HasPrefix s substr then Some O
  else match s with
       | EmptyString => None
       | String _ t => option_map S (index_of t substr)
       end.

(** [strings.Index(s, substr)]: [-1] when [substr] does not occur. *)
Definition Index (s substr : string) : Z :=
  match index_of s substr with
  | Some n => Z.of_nat n
  | None => -1
  end.

(** [strings.Replace(s, old, new, 1)]: the first occurrence only. *)
Definition Replace1 (s old new : string) : string :=
  match index_of s old with
  | Some n => slice_to n s +:+ new +:+ slice_from (n + String.length old) s
  | None => s
  end.

(** [strings.Join(elems, sep)] *)
Fixpoint Join (elems : list string) (sep : string) : string :=
  match elems with
  | nil => EmptyString
  | e :: nil => e
  | e :: rest => e +:+ sep +:+ Join rest sep
  end.

(** [strings.Contains(s, substr)] as a proposition. *)
Definition Contains (s substr : string) : Prop :=
  exists pre post : string, s = pre +:+ substr +:+ post.

(** The byte [c] occurs in [s]. *)
Fixpoint has_byte (c : ascii) (s : string) : bool :=
  match s with
  | EmptyString => false
  | String a t => Ascii.eqb a c || has_byte c t
  end.

End GoStrings.

(** *** Regular expressions, enough of Go's [regexp] for [reClusterName] *)

Module Regexp.

Inductive regex : Type :=
| Nothing                               (* matches nothing *)
| Eps                                   (* the empty string *)
| Class (p : ascii -> bool)             (* one byte of a class, [[a-z]] *)
| Seq (r1 r2 : regex)                   (* r1 r2 *)
| Alt (r1 r2 : regex)                   (* r1|r2 *)
| Star (r : regex)                      (* r* *)
| Opt (r : regex)                       (* r? *)
| Upto (r : regex) (n : nat).           (* r{0,n} *)

Fixpoint nullable (r : regex) : bool :=
  match r with
  | Nothing => false
  | Eps => true
  | Class _ => false
  | Seq r1 r2 => nullable r1 && nullable r2
  | Alt r1 r2 => nullable r1 || nullable r2
  | Star _ => true
  | Opt _ => true
  | Upto _ _ => true
  end.

(** No string at all is matched (a syntactic sufficient test). *)
Fixpoint void (r : regex) : bool :=
  match r with
  | Nothing => true
  | Seq r1 r2 => void r1 || void r2
  | Alt r1 r2 => void r1 && void r2
  | _ => false
  end.

Definition seq (r1 r2 : regex) : regex :=
  if void r1 || void r2 then Nothing else Seq r1 r2.

Definition alt (r1 r2 : regex) : regex :=
  if void r1 then r2 else if void r2 then r1 else Alt r1 r2.

(** Brzozowski derivative of [r] by the byte [c]. *)
Fixpoint deriv (c : ascii) (r : regex) : regex :=
  match r with
  | Nothing => Nothing
  | Eps => Nothing
  | Class p => if p c then Eps else Nothing
  | Seq r1 r2 =>
      alt (seq (deriv c r1) r2) (if nullable r1 then deriv c r2 else Nothing)
  | Alt r1 r2 => alt (deriv c r1) (deriv c r2)
  | Star r1 => seq (deriv c r1) (Star r1)
  | Opt r1 => deriv c r1
  | Upto r1 n =>
      match n with
      | O => Nothing
      | S n' => seq (deriv c r1) (Upto r1 n')
      end
  end.

(** [re.MatchString(s)] for an expression anchored as [^r$]. *)
Fixpoint MatchString (r : regex) (s : string) : bool :=
  match s with
  | EmptyString => nullable r
  | String c t => MatchString (deriv c r) t
  end.

Definition in_range (lo hi : ascii) (c : ascii) : bool :=
  (N_of_ascii lo <=? N_of_ascii c)%N && (N_of_ascii c <=? N_of_ascii hi)%N.

Definition lower : ascii -> bool := in_range "a" "z".
Definition lower_digit (c : ascii) : bool := in_range "a" "z" c || in_range "0" "9" c.
Definition lower_digit_dash (c : ascii) : bool := lower_digit c || Ascii.eqb c "-".
Definition colon (c : ascii) : bool := Ascii.eqb c ":".

(** No class of [r] accepts the byte [c]. *)
Fixpoint avoids (c : ascii) (r : regex) : bool :=
  match r with
  | Nothing | Eps => true
  | Class p => negb (p c)
  | Seq r1 r2 | Alt r1 r2 => avoids c r1 && avoids c r2
  | Star r1 | Opt r1 | Upto r1 _ => avoids c r1
  end.

End Regexp.

(** *** Go's [path] package: [path.Clean] and [path.Join]

    [Clean] is written on the path's elements (the pieces between
    slashes), following the four rules of its documentation: empty
    elements and [.] are dropped, [..] removes the element before it,
    [..] at the root of a rooted path is dropped, and a relative path
    keeps its leading [..] elements. *)

Module GoPath.

(** [strings.Split(s, string(c))] *)
Fixpoint split_on (c : ascii) (s : string) : list string :=
  match s with
  | EmptyString => EmptyString :: nil
  | String a t =>
      if Ascii.eqb a c then EmptyString :: split_on c t
      else match split_on c t with
           | h :: r => String a h :: r
           | nil => String a EmptyString :: nil
           end
  end.

(** [out] is the stack of elements kept so far, the last one first. *)
Fixpoint clean_elems (rooted : bool) (elems : list string) (out : list string)
  : list string :=
  match elems with
  | nil => rev out
  | e :: rest =>
      if String.eqb e "" || String.eqb e "." then clean_elems rooted rest out
      else if String.eqb e ".." then
        match out with
        | top :: out' =>
            if String.eqb top ".." then clean_elems rooted rest (e :: out)
            else clean_elems rooted rest out'
        | nil =>
            if rooted then clean_elems rooted rest nil
            else clean_elems rooted rest (e :: nil)
        end
      else clean_elems rooted rest (e :: out)
  end.

(** [path.Clean(p)] *)
Definition Clean (p : string) : string :=
  match p with
  | EmptyString => "."
  | String c _ =>
      let rooted := Ascii.eqb c "/" in
      let out := clean_elems rooted (split_on "/" p) nil in
      if rooted then "/" +:+ GoStrings.Join out "/"
      else match out with
           | nil => "."
           | _ => GoStrings.Join out "/"
           end
  end.

(** Leading empty elements are skipped by [path.Join]. *)
Fixpoint skip_empty (elems : list string) : list string :=
  match elems with
  | nil => nil
  | e :: rest => if String.eqb e "" then skip_empty rest else elems
  end.

(** [path.Join(elems...)] *)
Definition Join (elems : list string) : string :=
  match skip_empty elems with
  | nil => ""
  | rest => Clean (GoStrings.Join rest "/")
  end.

(** An element that [Clean] keeps as it is: not empty, not [.] or [..],
    and without a slash. *)
Definition plain_elem (e : string) : bool :=
  negb (String.eqb e "") && negb (String.eqb e ".") && negb (String.eqb e "..")
  && negb (GoStrings.has_byte "/" e).

(** The rooted path made of the elements [es]: [/e1/e2/.../en]. *)
Fixpoint rooted_path (es : list string) : string :=
  match es with
  | nil => ""
  | e :: rest => "/" +:+ e +:+ rooted_path rest
  end.

End GoPath.

(** *** Requests, contexts and responses *)

Module HTTP.

(** [request.Cluster] *)
Record Cluster : Type := mkCluster {
  Cluster_Name : string;
  Cluster_Wildcard : bool;
  Cluster_PartialMetadataRequest : bool
}.

(** [request.RequestInfo], the fields the chain reads. *)
Record RequestInfo : Type := mkRequestInfo {
  IsResourceRequest : bool;
  Verb : string;
  APIGroup : string;
  APIVersion : string;
  Resource : string
}.

(** The values the chain keeps in a request's [context.Context]; a key
    that was never set is [None]. *)
Record Context : Type := mkContext {
  ctx_acceptHeader : option string;
  ctx_userAgent : option string;
  ctx_cluster : option Cluster;
  ctx_requestInfo : option RequestInfo;
  ctx_identity : option string
}.

(** [url.URL] *)
Record URL : Type := mkURL {
  URL_Path : string;
  URL_RawPath : string
}.

(** [http.Request]; [Header] maps a canonical header name to its values. *)
Record Request : Type := mkRequest {
  Req_URL : URL;
  RequestURI : string;
  Header : gmap string (list string);
  Req_Context : Context
}.

(** [h.Get(key)]: the first value of the header, or the empty string. *)
Definition Header_Get (h : gmap string (list string)) (key : string) : string :=
  match h !! key with
  | Some (v :: _) => v
  | _ => ""
  end.

(** [metav1.Status] as the error constructors of [apierrors] fill it. *)
Record Status : Type := mkStatus {
  Status_Code : Z;
  Status_Reason : string;
  Status_Message : string
}.

(** What a layer of the chain does with a request: it hands a request to
    the handler it wraps, or it writes a status and returns. *)
Inductive Outcome : Type :=
| Next (req : Request)
| Respond (st : Status).

Definition with_context (req : Request) (ctx : Context) : Request :=
  mkRequest (Req_URL req) (RequestURI req) (Header req) ctx.

Definition with_url (req : Request) (u : URL) : Request :=
  mkRequest u (RequestURI req) (Header req) (Req_Context req).

(** [request.WithCluster(ctx, cluster)] *)
Definition WithCluster (ctx : Context) (cluster : Cluster) : Context :=
  mkContext (ctx_acceptHeader ctx) (ctx_userAgent ctx) (Some cluster)
            (ctx_requestInfo ctx) (ctx_identity ctx).

(** [WithIdentity(ctx, identity)] *)
Definition WithIdentity (ctx : Context) (identity : string) : Context :=
  mkContext (ctx_acceptHeader ctx) (ctx_userAgent ctx) (ctx_cluster ctx)
            (ctx_requestInfo ctx) (Some identity).

(** The request info is held by pointer: an assignment to one of its
    fields is seen through every context that carries it. *)
Definition set_requestInfo (ctx : Context) (ri : RequestInfo) : Context :=
  mkContext (ctx_acceptHeader ctx) (ctx_userAgent ctx) (ctx_cluster ctx)
            (Some ri) (ctx_identity ctx).

Definition set_Resource (ri : RequestInfo) (resource : string) : RequestInfo :=
  mkRequestInfo (IsResourceRequest ri) (Verb ri) (APIGroup ri) (APIVersion ri) resource.

(** [schema.GroupResource.String()] *)
Definition GroupResource_String (group resource : string) : string :=
  if String.eqb group "" then resource else resource +:+ "." +:+ group.

Definition StatusBadRequest : Z := 400.
Definition StatusMethodNotAllowed : Z := 405.
Definition StatusInternalServerError : Z := 500.
Definition StatusOK : Z := 200.

(** [apierrors.NewBadRequest(reason)] *)
Definition NewBadRequest (reason : string) : Status :=
  mkStatus StatusBadRequest "BadRequest" reason.

(** [apierrors.NewInternalError(err)] *)
Definition NewInternalError (err : string) : Status :=
  mkStatus StatusInternalServerError "InternalError"
           ("Internal error occurred: " +:+ err).

End HTTP.

(** *** [unstructured.NestedString] over decoded JSON *)

Module Unstructured.

(** A decoded JSON value: a string, an object, or anything else. *)
Inductive value : Type :=
| VString (s : string)
| VMap (m : gmap string value)
| VOther.

(** The three results of [NestedString]: [(s, true, nil)],
    [("", false, nil)] and [("", false, err)]. *)
Inductive nested : Type :=
| Found (s : string)
| NotFound
| WrongType.

(** [unstructured.NestedFieldNoCopy(obj, fields...)] *)
Fixpoint NestedField (val : value) (fields : list string) : option (option value) :=
  match fields with
  | nil => Some (Some val)
  | f :: rest =>
      match val with
      | VMap m =>
          match m !! f with
          | Some v => NestedField v rest
          | None => Some None
          end
      | _ => None
      end
  end.

(** [unstructured.NestedString(obj, fields...)] *)
Definition NestedString (obj : gmap string value) (fields : list string) : nested :=
  match NestedField (VMap obj) fields with
  | None => WrongType
  | Some None => NotFound
  | Some (Some (VString s)) => Found s
  | Some (Some _) => WrongType
  end.

End Unstructured.

(** *** pkg/server/handler.go: the handler chain *)

Module Handler.
Import GoStrings HTTP.

(** [reClusterName]:
    [^([a-z]([a-z0-9-]{0,61}[a-z0-9])?:)*[a-z]([a-z0-9-]{0,61}[a-z0-9])?$] *)
Definition reSegment : Regexp.regex :=
  Regexp.Seq (Regexp.Class Regexp.lower)
    (Regexp.Opt (Regexp.Seq (Regexp.Upto (Regexp.Class Regexp.lower_digit_dash) 61)
                            (Regexp.Class Regexp.lower_digit))).

Definition reClusterName : Regexp.regex :=
  Regexp.Seq (Regexp.Star (Regexp.Seq reSegment (Regexp.Class Regexp.colon))) reSegment.

Definition passthroughHeader : string := "X-Kcp-Api-V1-Discovery-Passthrough".
Definition workspaceAnnotation : string := "tenancy.kcp.dev/workspace".

(** [logicalcluster.ClusterHeader] and [logicalcluster.Wildcard] *)
Definition ClusterHeader : string := "X-Kubernetes-Cluster".
Definition Wildcard : string := "*".

Section Chain.

(** What the chain calls outside this file: [fmt]'s [%q] verb, the
    package's [isPartialMetadataRequest], the name of the local admin
    cluster ([genericcontrolplane.LocalAdminCluster]), the message of
    [apierrors.NewMethodNotSupported], and the JWT library. *)
Variable quote : string -> string.
Variable isPartialMetadataRequest : Context -> bool.
Variable LocalAdminCluster : string.
Variable MethodNotSupportedMessage : string -> string -> string.
Variable JSONWebToken : Type.
Variable ParseSigned : string -> option JSONWebToken.
Variable UnsafeClaimsWithoutVerification :
  JSONWebToken -> option (gmap string Unstructured.value).

(** [WithAcceptHeader] *)
Definition WithAcceptHeader (req : Request) : Outcome :=
  let ctx := Req_Context req in
  Next (with_context req
          (mkContext (Some (Header_Get (Header req) "Accept")) (ctx_userAgent ctx)
                     (ctx_cluster ctx) (ctx_requestInfo ctx) (ctx_identity ctx))).

(** [WithUserAgent] *)
Definition WithUserAgent (req : Request) : Outcome :=
  let ctx := Req_Context req in
  Next (with_context req
          (mkContext (ctx_acceptHeader ctx) (Some (Header_Get (Header req) "User-Agent"))
                     (ctx_cluster ctx) (ctx_requestInfo ctx) (ctx_identity ctx))).

(** The loop of [WithClusterScope] over [req.URL.RawPath]:
    [for i := 0; i < 2 && len(rawPath) > 1; i++]; [n] counts the rounds
    left. The result is the raw path after the loop, or the status written
    when no slash is found. *)
Fixpoint shortenRawPath (n : nat) (clusterName rawPath : string) : Status + string :=
  match n with
  | O => inr rawPath
  | S n' =>
      if len rawPath >? 1 then
        let slash := Index (slice_from 1 rawPath) "/" in
        if slash =? -1 then
          inl (NewInternalError
                 ("unable to parse cluster when shortening raw path, have clusterName="
                  +:+ quote clusterName +:+ ", rawPath=" +:+ quote rawPath))
        else shortenRawPath n' clusterName (slice_from (Z.to_nat slash) rawPath)
      else inr rawPath
  end.

(** The first half of [WithClusterScope]: the cluster name of the request
    and the request with its URL shortened. *)
Definition clusterNameOf (req : Request) : Status + (string * Request) :=
  let path := URL_Path (Req_URL req) in
  if HasPrefix path "/clusters/" then
    let path := TrimPrefix path "/clusters/" in
    let i := Index path "/" in
    if i =? -1 then
      inl (NewBadRequest ("unable to parse cluster: no `/` found in path " +:+ path))
    else
      let clusterName := slice_to (Z.to_nat i) path in
      let path := slice_from (Z.to_nat i) path in
      match shortenRawPath 2 clusterName (URL_RawPath (Req_URL req)) with
      | inl st => inl st
      | inr rawPath => inr (clusterName, with_url req (mkURL path rawPath))
      end
  else inr (Header_Get (Header req) ClusterHeader, req).

(** [WithClusterScope] *)
Definition WithClusterScope (req : Request) : Outcome :=
  match clusterNameOf req with
  | inl st => Respond st
  | inr (clusterName, req) =>
      let partialMetadata := isPartialMetadataRequest (Req_Context req) in
      if String.eqb clusterName Wildcard then
        Next (with_context req
                (WithCluster (Req_Context req) (mkCluster Wildcard true partialMetadata)))
      else if String.eqb clusterName "" then
        Next (with_context req
                (WithCluster (Req_Context req)
                             (mkCluster LocalAdminCluster false partialMetadata)))
      else if negb (Regexp.MatchString reClusterName clusterName) then
        Respond (NewBadRequest
                   ("invalid cluster: " +:+ quote clusterName
                    +:+ " does not match the regex"))
      else
        Next (with_context req
                (WithCluster (Req_Context req)
                             (mkCluster clusterName false partialMetadata)))
  end.

(** [apierrors.NewMethodNotSupported(qualifiedResource, action)] *)
Definition NewMethodNotSupported (group resource action : string) : Status :=
  mkStatus StatusMethodNotAllowed "MethodNotAllowed"
           (MethodNotSupportedMessage (GroupResource_String group resource) action).

(** [sets.NewString("list", "watch").Has(verb)] *)
Definition list_or_watch (verb : string) : bool :=
  bool_decide (verb ∈ ({[ "list"; "watch" ]} : gset string)).

(** [WithWildcardListWatchGuard] *)
Definition WithWildcardListWatchGuard (req : Request) : Outcome :=
  match ctx_cluster (Req_Context req) with
  | Some cluster =>
      if Cluster_Wildcard cluster then
        match ctx_requestInfo (Req_Context req) with
        | None => Respond (NewInternalError "missing requestInfo")
        | Some requestInfo =>
            if IsResourceRequest requestInfo && negb (list_or_watch (Verb requestInfo)) then
              let statusErr :=
                NewMethodNotSupported (APIGroup requestInfo) (Resource requestInfo)
                                      (Verb requestInfo) in
              Respond (mkStatus (Status_Code statusErr) (Status_Reason statusErr)
                         (Status_Message statusErr +:+ " in the `*` logical cluster"))
            else Next req
        end
      else Next req
  | None => Next req
  end.

(** The cluster name in the claims of a service-account token: the bound
    claim first, the legacy claim when the bound one is absent or not a
    string. *)
Definition claimedClusterName (claims : gmap string Unstructured.value) : option string :=
  match Unstructured.NestedString claims ("kubernetes.io" :: "clusterName" :: nil) with
  | Unstructured.Found clusterName => Some clusterName
  | _ =>
      match Unstructured.NestedString claims
              ("kubernetes.io/serviceaccount/clusterName" :: nil) with
      | Unstructured.Found clusterName => Some clusterName
      | _ => None
      end
  end.

(** [WithInClusterServiceAccountRequestRewrite] *)
Definition WithInClusterServiceAccountRequestRewrite (req : Request) : Outcome :=
  let clusterHeader := Header_Get (Header req) ClusterHeader in
  let shardedHeader := Header_Get (Header req) "X-Kubernetes-Sharded-Request" in
  if negb (String.eqb clusterHeader "") || negb (String.eqb shardedHeader "") then Next req
  else if HasPrefix (RequestURI req) "/clusters/" then Next req
  else
    let prefix := "Bearer " in
    let token := Header_Get (Header req) "Authorization" in
    if negb (HasPrefix token prefix) then Next req
    else
      let token := slice_from (String.length prefix) token in
      match ParseSigned token with
      | None => Next req
      | Some decoded =>
          match UnsafeClaimsWithoutVerification decoded with
          | None => Next req
          | Some claims =>
              match claimedClusterName claims with
              | None => Next req
              | Some clusterName =>
                  Next (mkRequest
                          (mkURL (GoPath.Join ("/clusters" :: clusterName
                                                 :: URL_Path (Req_URL req) :: nil))
                                 (URL_RawPath (Req_URL req)))
                          (GoPath.Join ("/clusters" :: clusterName
                                          :: RequestURI req :: nil))
                          (Header req) (Req_Context req))
              end
          end
      end.

(** [processResourceIdentity]: the request to hand on, or the error. The
    request info travels in the context of the request, so the assignment
    to [requestInfo.Resource] shows in the context of the result. *)
Definition processResourceIdentity (req : Request) (requestInfo : RequestInfo)
  : string + Request :=
  if negb (IsResourceRequest requestInfo) then inr req
  else
    let i := Index (Resource requestInfo) ":" in
    if i <? 0 then inr req
    else
      let resource := slice_to (Z.to_nat i) (Resource requestInfo) in
      let identity := slice_from (Z.to_nat (i + 1)) (Resource requestInfo) in
      if String.eqb identity "" then
        inl ("invalid resource " +:+ quote resource +:+ ": missing identity")
      else
        let ctx := WithIdentity (Req_Context req) identity in
        let url :=
          mkURL (Replace1 (URL_Path (Req_URL req)) (Resource requestInfo) resource)
                (Replace1 (URL_RawPath (Req_URL req)) (Resource requestInfo) resource) in
        inr (mkRequest url (RequestURI req) (Header req)
               (set_requestInfo ctx (set_Resource requestInfo resource))).

(** [WithWildcardIdentity] *)
Definition WithWildcardIdentity (req : Request) : Outcome :=
  match ctx_cluster (Req_Context req) with
  | None => Next req
  | Some cluster =>
      if negb (Cluster_Wildcard cluster) then Next req
      else
        match ctx_requestInfo (Req_Context req) with
        | None => Respond (NewInternalError "missing requestInfo")
        | Some requestInfo =>
            match processResourceIdentity req requestInfo with
            | inl err => Respond (NewInternalError err)
            | inr updatedReq => Next updatedReq
            end
        end
  end.

End Chain.

End Handler.

(** *** Go's [sort.SliceStable] *)

Module GoSort.

Section SliceStable.

Variable A : Type.
Variable less : A -> A -> bool.

(** One round of the insertion sort of [sort/stable.go]: the new element
    [x] moves left while it is less than its left neighbour. [sorted] holds
    the elements placed so far, the last one first. *)
Fixpoint insert_back (x : A) (sorted : list A) : list A :=
  match sorted with
  | nil => x :: nil
  | y :: rest => if less x y then y :: insert_back x rest else x :: sorted
  end.

(** [sort.SliceStable(data, less)]: the elements of [data] in the order of
    [less], equal elements in their original order. *)
Definition SliceStable (data : list A) : list A :=
  rev (fold_left (fun sorted x => insert_back x sorted) data nil).

End SliceStable.

Arguments insert_back {A} less x sorted.
Arguments SliceStable {A} less data.

(** The order by a string key, as the callers of [SliceStable] in this
    repository use it: [lessBy key] is the [less] they pass, and
    [orderedBy key a b] says that [a] may stand before [b]. *)
Definition lessBy {A : Type} (key : A -> string) (a b : A) : bool :=
  String.ltb (key a) (key b).

Definition orderedBy {A : Type} (key : A -> string) (a b : A) : Prop :=
  String.leb (key a) (key b) = true.

End GoSort.

(** *** pkg/server/handler.go: core-group discovery merged with CRDs *)

Module Discovery.
Import GoStrings HTTP.

(** [metav1.APIResource] *)
Record APIResource : Type := mkAPIResource {
  APIResource_Name : string;
  APIResource_Namespaced : bool;
  APIResource_Kind : string;
  APIResource_Verbs : list string
}.

(** [metav1.APIResourceList] *)
Record APIResourceList : Type := mkAPIResourceList {
  GroupVersion : string;
  APIResources : list APIResource
}.

(** [inMemoryResponseWriter] *)
Record inMemoryResponseWriter : Type := mkWriter {
  writeHeaderCalled : bool;
  respCode : Z;
  data : string
}.

Definition newInMemoryResponseWriter : inMemoryResponseWriter :=
  mkWriter false 0 "".

Definition WriteHeader (r : inMemoryResponseWriter) (code : Z) : inMemoryResponseWriter :=
  mkWriter true code (data r).

Definition Write (r : inMemoryResponseWriter) (bytes : string) : inMemoryResponseWriter :=
  let r := if writeHeaderCalled r then r else WriteHeader r StatusOK in
  mkWriter (writeHeaderCalled r) (respCode r) (data r +:+ bytes).

(** What a handler does to the response writer it is given. *)
Inductive write_op : Type :=
| OpWriteHeader (code : Z)
| OpWrite (bytes : string).

Definition apply_op (r : inMemoryResponseWriter) (op : write_op) : inMemoryResponseWriter :=
  match op with
  | OpWriteHeader code => WriteHeader r code
  | OpWrite bytes => Write r bytes
  end.

(** [h.Add(key, value)] *)
Definition Header_Add (h : gmap string (list string)) (key value : string)
  : gmap string (list string) :=
  <[ key := (default nil (h !! key) ++ value :: nil)%list ]> h.

(** What the decoder makes of the body of the native response. *)
Inductive decoded : Type :=
| DecodeError (err : string)
| DecodedOther (typeName : string)
| DecodedList (l : APIResourceList).

(** What [serveCoreV1Discovery] writes to the client. *)
Inductive Response : Type :=
| ErrorNegotiated (st : Status)
| Relay (code : Z) (body : string)
| ServeVersion (resources : list APIResource).

(** What the filter [mergeCRDsIntoCoreGroup] does with a request. *)
Inductive FilterOutcome : Type :=
| Panics
| ProcessFilter
| CRDHandler
| ServeDiscovery (resp : Response).

(** The order of [sort.SliceStable] in [serveCoreV1Discovery]. *)
Definition lessName (a b : APIResource) : bool :=
  String.ltb (APIResource_Name a) (APIResource_Name b).

(** [a] may stand before [b] in a list sorted by name. *)
Definition nameOrdered (a b : APIResource) : Prop :=
  String.leb (APIResource_Name a) (APIResource_Name b) = true.

Section Merge.

(** Outside this file: the CRD type and its lister, the discovery the
    CRD server builds for a group and version, the decoder of the
    aggregator's discovery codecs, and the native handler. *)
Variable CustomResourceDefinition : Type.
Variable APIResourcesForGroupVersion :
  string -> string -> list CustomResourceDefinition -> list APIResource.
Variable Decode : string -> decoded.

(** The clone of the request that carries the passthrough header. *)
Definition passthroughRequest (req : Request) : Request :=
  mkRequest (Req_URL req) (RequestURI req)
            (Header_Add (Header req) Handler.passthroughHeader "1")
            (Req_Context req).

(** The in-memory writer after [handler] has served [req] into it. *)
Definition capture (handler : Request -> list write_op) (req : Request)
  : inMemoryResponseWriter :=
  fold_left apply_op (handler req) newInMemoryResponseWriter.

(** [serveCoreV1Discovery]; [listed] is the result of [crdLister.List]. *)
Definition serveCoreV1Discovery
    (listed : string + list CustomResourceDefinition)
    (coreHandler : Request -> list write_op) (req : Request) : Response :=
  match listed with
  | inl err =>
      ErrorNegotiated (NewInternalError
        ("unable to serve /api/v1 discovery: error listing CustomResourceDefinitions: "
         +:+ err))
  | inr crds =>
      let crdDiscovery := APIResourcesForGroupVersion "" "v1" crds in
      let cr := passthroughRequest req in
      let writer := capture coreHandler cr in
      if negb (respCode writer =? StatusOK) then Relay (respCode writer) (data writer)
      else
        match Decode (data writer) with
        | DecodeError err =>
            ErrorNegotiated (NewInternalError
              ("unable to serve /api/v1 discovery: error decoding /api/v1 response from generic control plane: "
               +:+ err))
        | DecodedOther typeName =>
            ErrorNegotiated (NewInternalError
              ("unable to serve /api/v1 discovery: error decoding /api/v1 response from generic control plane: unexpected data type "
               +:+ typeName))
        | DecodedList v1ResourceList =>
            ServeVersion
              (GoSort.SliceStable lessName
                 (APIResources v1ResourceList ++ crdDiscovery))
        end
  end.

(** [mergeCRDsIntoCoreGroup]; [crdGet name] tells whether
    [crdLister.Get] finds the CRD. Without a request info the error
    message reads a field of the nil request info. *)
Definition mergeCRDsIntoCoreGroup
    (listed : string + list CustomResourceDefinition) (crdGet : string -> bool)
    (coreHandler : Request -> list write_op) (req : Request) : FilterOutcome :=
  match ctx_requestInfo (Req_Context req) with
  | None => Panics
  | Some requestInfo =>
      if negb (String.eqb (APIGroup requestInfo) "") then ProcessFilter
      else if negb (IsResourceRequest requestInfo)
              && (String.eqb (URL_Path (Req_URL req)) "/api/v1"
                  || String.eqb (URL_Path (Req_URL req)) "/api/v1/") then
        match Header req !! Handler.passthroughHeader with
        | Some _ => ProcessFilter
        | None => ServeDiscovery (serveCoreV1Discovery listed coreHandler req)
        end
      else if IsResourceRequest requestInfo
              && crdGet (Resource requestInfo +:+ ".core") then CRDHandler
      else ProcessFilter
  end.

End Merge.

End Discovery.

(** *** JSON text: encoding and decoding

    The encoder writes compact JSON the way Go's [json.Marshal] does for
    strings, arrays and objects. A string is written rune by rune: of the
    bytes below [0x80], the quote and the backslash are written with a
    backslash, newline, carriage return and tab by letter, the other
    control bytes and [<], [>], [&] as [\u00XX]; a well-formed UTF-8
    encoding is written as it is, except for U+2028 and U+2029, which are
    written as [\u2028] and [\u2029]; a byte that begins no well-formed
    encoding is written as [\ufffd]. The decoder reads any JSON text made
    of null, booleans, strings, arrays and objects, with blanks between
    tokens and every escape of the grammar, and makes well-formed UTF-8 of
    what it reads as [json.Unmarshal] does: a byte that begins no
    well-formed encoding and a surrogate escape without its partner become
    U+FFFD. Numbers are not part of it. *)

Module Json.
Import GoStrings.

Inductive value : Type :=
| JNull
| JBool (b : bool)
| JString (s : string)
| JArray (l : list value)
| JObject (m : list (string * value)).

Definition dquote : ascii := "034"%char.
Definition backslash : ascii := "092"%char.

Definition hex_digit (n : N) : ascii :=
  nth (N.to_nat n)
      ("0" :: "1" :: "2" :: "3" :: "4" :: "5" :: "6" :: "7" :: "8" :: "9"
           :: "a" :: "b" :: "c" :: "d" :: "e" :: "f" :: nil)%char "f"%char.

Definition hex_value (c : ascii) : option N :=
  let n := N_of_ascii c in
  if (48 <=? n)%N && (n <=? 57)%N then Some (n - 48)%N
  else if (97 <=? n)%N && (n <=? 102)%N then Some (n - 87)%N
  else if (65 <=? n)%N && (n <=? 70)%N then Some (n - 55)%N
  else None.

(** The escape [\u00XX] of a byte. *)
Definition escape_u00 (c : ascii) : string :=
  let n := N_of_ascii c in
  String backslash
    (String "u" (String "0" (String "0"
       (String (hex_digit (n / 16)) (String (hex_digit (n mod 16)) ""))))).

(** A byte below [0x80] as the encoder writes it. *)
Definition escape_byte (c : ascii) : string :=
  let n := N_of_ascii c in
  if Ascii.eqb c dquote || Ascii.eqb c backslash then String backslash (String c "")
  else if Ascii.eqb c "010" then String backslash "n"
  else if Ascii.eqb c "013" then String backslash "r"
  else if Ascii.eqb c "009" then String backslash "t"
  else if (n <? 32)%N || Ascii.eqb c "<" || Ascii.eqb c ">" || Ascii.eqb c "&"
  then escape_u00 c
  else String c "".

Definition byte_in (lo hi : N) (c : ascii) : bool :=
  (lo <=? N_of_ascii c)%N && (N_of_ascii c <=? hi)%N.

(** A continuation byte, [0x80] to [0xBF]. *)
Definition continuation : ascii -> bool := byte_in 128 191.

(** The second byte that may follow the first byte [c0] of an encoding of
    three or four bytes: [0xE0] asks for [0xA0..0xBF] (no overlong
    encoding), [0xED] for [0x80..0x9F] (no surrogate), [0xF0] for
    [0x90..0xBF], [0xF4] for [0x80..0x8F] (nothing above U+10FFFF). *)
Definition second_byte (c0 c1 : ascii) : bool :=
  let b := N_of_ascii c0 in
  if (b =? 224)%N then byte_in 160 191 c1
  else if (b =? 237)%N then byte_in 128 159 c1
  else if (b =? 240)%N then byte_in 144 191 c1
  else if (b =? 244)%N then byte_in 128 143 c1
  else continuation c1.

(** [utf8.DecodeRuneInString(s)], the width of the rune: the number of
    bytes of the well-formed encoding that [s] begins with, and [0] when
    [s] is empty or begins with no well-formed encoding (where Go gives
    [RuneError] with the width 1, or 0 for the empty string). *)
Definition rune_width (s : string) : nat :=
  match s with
  | EmptyString => 0
  | String c0 t =>
      if (N_of_ascii c0 <? 128)%N then 1
      else if byte_in 194 223 c0 then
        match t with
        | String c1 _ => if continuation c1 then 2 else 0
        | _ => 0
        end
      else if byte_in 224 239 c0 then
        match t with
        | String c1 (String c2 _) =>
            if second_byte c0 c1 && continuation c2 then 3 else 0
        | _ => 0
        end
      else if byte_in 240 244 c0 then
        match t with
        | String c1 (String c2 (String c3 _)) =>
            if second_byte c0 c1 && continuation c2 && continuation c3 then 4 else 0
        | _ => 0
        end
      else 0
  end.

(** [utf8.ValidString(s)]; [keep] counts the bytes of the current rune
    that are still to come. *)
Fixpoint valid_runes (keep : nat) (s : string) : bool :=
  match s with
  | EmptyString => match keep with O => true | S _ => false end
  | String c t =>
      match keep with
      | S k => valid_runes k t
      | O =>
          match rune_width s with
          | O => false
          | S k => valid_runes k t
          end
      end
  end.

Definition ValidString (s : string) : bool := valid_runes 0 s.

(** The encodings of U+2028, U+2029 and U+FFFD. *)
Definition line_separator : string := String "226" (String "128" (String "168" "")).
Definition paragraph_separator : string := String "226" (String "128" (String "169" "")).
Definition replacement : string := String "239" (String "191" (String "189" "")).

(** The body of a string literal, as the loop of [encodeState.string]
    writes it. The loop steps from rune to rune; here [copy] counts the
    bytes of the current rune that are still to be written as they are, and
    [drop] the bytes of a rune that was written as an escape. *)
Fixpoint escape_runes (copy drop : nat) (s : string) : string :=
  match s with
  | EmptyString => ""
  | String c t =>
      match drop, copy with
      | S d, _ => escape_runes copy d t
      | O, S k => String c (escape_runes k 0 t)
      | O, O =>
          if (N_of_ascii c <? 128)%N then escape_byte c +:+ escape_runes 0 0 t
          else
            match rune_width s with
            | O => String backslash "ufffd" +:+ escape_runes 0 0 t
            | S k =>
                if HasPrefix s line_separator
                then String backslash "u2028" +:+ escape_runes 0 2 t
                else if HasPrefix s paragraph_separator
                then String backslash "u2029" +:+ escape_runes 0 2 t
                else String c (escape_runes k 0 t)
            end
      end
  end.

Definition escape (s : string) : string := escape_runes 0 0 s.

(** A JSON string literal. *)
Definition quote (s : string) : string :=
  String dquote (escape s +:+ String dquote "").

(** [json.Marshal] *)
Fixpoint Marshal (v : value) : string :=
  match v with
  | JNull => "null"
  | JBool b => if b then "true" else "false"
  | JString s => quote s
  | JArray l => "[" +:+ Join (map Marshal l) "," +:+ "]"
  | JObject m =>
      "{" +:+ Join (map (fun kv => let '(k, x) := kv in quote k +:+ ":" +:+ Marshal x) m) ","
      +:+ "}"
  end.

(** [utf8.EncodeRune]: the UTF-8 bytes of a code point up to U+10FFFF
    that is no surrogate. *)
Definition utf8 (n : N) : string :=
  if (n <? 128)%N then String (ascii_of_N n) ""
  else if (n <? 2048)%N then
    String (ascii_of_N (192 + n / 64)) (String (ascii_of_N (128 + n mod 64)) "")
  else if (n <? 65536)%N then
    String (ascii_of_N (224 + n / 4096))
      (String (ascii_of_N (128 + (n / 64) mod 64))
         (String (ascii_of_N (128 + n mod 64)) ""))
  else
    String (ascii_of_N (240 + n / 262144))
      (String (ascii_of_N (128 + (n / 4096) mod 64))
         (String (ascii_of_N (128 + (n / 64) mod 64))
            (String (ascii_of_N (128 + n mod 64)) ""))).

Definition hex4 (a b c d : ascii) : option N :=
  match hex_value a, hex_value b, hex_value c, hex_value d with
  | Some x, Some y, Some z, Some w => Some (((x * 16 + y) * 16 + z) * 16 + w)%N
  | _, _, _, _ => None
  end.

(** [utf16.IsSurrogate] *)
Definition is_surrogate (n : N) : bool := (55296 <=? n)%N && (n <? 57344)%N.

(** [utf16.DecodeRune(r1, r2)]: the code point of a high and a low
    surrogate, if that is what they are. *)
Definition surrogate_pair (r1 r2 : N) : option N :=
  if (55296 <=? r1)%N && (r1 <? 56320)%N && (56320 <=? r2)%N && (r2 <? 57344)%N
  then Some ((r1 - 55296) * 1024 + (r2 - 56320) + 65536)%N
  else None.

Definition cons_to (pre : string) (r : option (string * string)) : option (string * string) :=
  match r with
  | Some (s, rest) => Some (pre +:+ s, rest)
  | None => None
  end.

(** The string literal whose opening quote was just read: its value and
    the text after its closing quote. [keep] counts the bytes of the
    current rune that are still to be taken as they are. A surrogate
    escape is joined with the low surrogate escape that follows it, and is
    U+FFFD without one. *)
Fixpoint string_runes (keep : nat) (s : string) : option (string * string) :=
  match s with
  | EmptyString => None
  | String c t =>
      match keep with
      | S k => cons_to (String c "") (string_runes k t)
      | O =>
          if Ascii.eqb c dquote then Some ("", t)
          else if Ascii.eqb c backslash then
            match t with
            | EmptyString => None
            | String e t1 =>
                if Ascii.eqb e dquote || Ascii.eqb e backslash || Ascii.eqb e "/"
                then cons_to (String e "") (string_runes 0 t1)
                else if Ascii.eqb e "b" then cons_to (String "008" "") (string_runes 0 t1)
                else if Ascii.eqb e "f" then cons_to (String "012" "") (string_runes 0 t1)
                else if Ascii.eqb e "n" then cons_to (String "010" "") (string_runes 0 t1)
                else if Ascii.eqb e "r" then cons_to (String "013" "") (string_runes 0 t1)
                else if Ascii.eqb e "t" then cons_to (String "009" "") (string_runes 0 t1)
                else if Ascii.eqb e "u" then
                  match t1 with
                  | String h1 (String h2 (String h3 (String h4 t5))) =>
                      match hex4 h1 h2 h3 h4 with
                      | Some n =>
                          if is_surrogate n then
                            match t5 with
                            | String b (String u (String g1 (String g2
                                (String g3 (String g4 t11))))) =>
                                match (if Ascii.eqb b backslash && Ascii.eqb u "u"
                                       then hex4 g1 g2 g3 g4 else None) with
                                | Some n1 =>
                                    match surrogate_pair n n1 with
                                    | Some point =>
                                        cons_to (utf8 point) (string_runes 0 t11)
                                    | None => cons_to replacement (string_runes 0 t5)
                                    end
                                | None => cons_to replacement (string_runes 0 t5)
                                end
                            | _ => cons_to replacement (string_runes 0 t5)
                            end
                          else cons_to (utf8 n) (string_runes 0 t5)
                      | None => None
                      end
                  | _ => None
                  end
                else None
            end
          else if (N_of_ascii c <? 32)%N then None
          else if (N_of_ascii c <? 128)%N then cons_to (String c "") (string_runes 0 t)
          else
            match rune_width s with
            | O => cons_to replacement (string_runes 0 t)
            | S k => cons_to (String c "") (string_runes k t)
            end
      end
  end.

Definition string_body (s : string) : option (string * string) := string_runes 0 s.

Definition is_blank (c : ascii) : bool :=
  Ascii.eqb c " " || Ascii.eqb c "009" || Ascii.eqb c "010" || Ascii.eqb c "013".

Fixpoint skip_blanks (s : string) : string :=
  match s with
  | EmptyString => ""
  | String c t => if is_blank c then skip_blanks t else s
  end.

(** The text after the byte [c], when [c] is the next byte that is not a
    blank. *)
Definition eat (c : ascii) (s : string) : option string :=
  match skip_blanks s with
  | String d rest => if Ascii.eqb d c then Some rest else None
  | EmptyString => None
  end.

(** The decoder proper. [fuel] bounds the nesting and the number of
    elements read; [Unmarshal] gives it the length of the text, which is
    always enough. Each function returns what it read and the text left. *)
Fixpoint parse_value (fuel : nat) (s : string) : option (value * string) :=
  match fuel with
  | O => None
  | S fuel' =>
      match skip_blanks s with
      | EmptyString => None
      | String c t as s' =>
          if HasPrefix s' "null" then Some (JNull, slice_from 4 s')
          else if HasPrefix s' "true" then Some (JBool true, slice_from 4 s')
          else if HasPrefix s' "false" then Some (JBool false, slice_from 5 s')
          else if Ascii.eqb c dquote then
            match string_body t with
            | Some (str, rest) => Some (JString str, rest)
            | None => None
            end
          else if Ascii.eqb c "[" then
            match eat "]" t with
            | Some rest => Some (JArray nil, rest)
            | None =>
                match parse_elements fuel' t with
                | Some (l, rest) => Some (JArray l, rest)
                | None => None
                end
            end
          else if Ascii.eqb c "{" then
            match eat "}" t with
            | Some rest => Some (JObject nil, rest)
            | None =>
                match parse_members fuel' t with
                | Some (m, rest) => Some (JObject m, rest)
                | None => None
                end
            end
          else None
      end
  end
with parse_elements (fuel : nat) (s : string) : option (list value * string) :=
  match fuel with
  | O => None
  | S fuel' =>
      match parse_value fuel' s with
      | None => None
      | Some (v, rest) =>
          match eat "]" rest with
          | Some rest' => Some (v :: nil, rest')
          | None =>
              match eat "," rest with
              | Some rest' =>
                  match parse_elements fuel' rest' with
                  | Some (l, rest'') => Some (v :: l, rest'')
                  | None => None
                  end
              | None => None
              end
          end
      end
  end
with parse_members (fuel : nat) (s : string) : option (list (string * value) * string) :=
  match fuel with
  | O => None
  | S fuel' =>
      match eat dquote s with
      | None => None
      | Some t =>
          match string_body t with
          | None => None
          | Some (k, rest) =>
              match eat ":" rest with
              | None => None
              | Some rest1 =>
                  match parse_value fuel' rest1 with
                  | None => None
                  | Some (v, rest2) =>
                      match eat "}" rest2 with
                      | Some rest3 => Some ((k, v) :: nil, rest3)
                      | None =>
                          match eat "," rest2 with
                          | Some rest3 =>
                              match parse_members fuel' rest3 with
                              | Some (m, rest4) => Some ((k, v) :: m, rest4)
                              | None => None
                              end
                          | None => None
                          end
                      end
                  end
              end
          end
      end
  end.

(** [json.Unmarshal] into a generic value: the whole text is one value. *)
Definition Unmarshal (text : string) : option value :=
  match parse_value (S (String.length text)) text with
  | Some (v, rest) =>
      match skip_blanks rest with
      | EmptyString => Some v
      | _ => None
      end
  | None => None
  end.

(** The number of fuel units that is enough to read back a value. *)
Fixpoint size (v : value) : nat :=
  match v with
  | JArray l => S (fold_right (fun x n => S (size x + n)%nat) O l)
  | JObject m => S (fold_right (fun kv n => S (size (snd kv) + n)%nat) O m)
  | _ => 1%nat
  end.

Definition elements_size (l : list value) : nat :=
  fold_right (fun x n => S (size x + n)%nat) O l.

Definition members_size (m : list (string * value)) : nat :=
  fold_right (fun kv n => S (size (snd kv) + n)%nat) O m.

(** The text of one member of an object. *)
Definition member_text (kv : string * value) : string :=
  let '(k, x) := kv in quote k +:+ ":" +:+ Marshal x.

(** [v] is read back from its text, whatever follows the text, once the
    fuel reaches the size of [v]. *)
Definition reads_back (v : value) : Prop :=
  forall fuel rest, (size v <= fuel)%nat ->
                    parse_value fuel (Marshal v +:+ rest) = Some (v, rest).

(** Every string and every key of the value is valid UTF-8. *)
Fixpoint valid_value (v : value) : bool :=
  match v with
  | JString s => ValidString s
  | JArray l => forallb valid_value l
  | JObject m => forallb (fun kv => ValidString (fst kv) && valid_value (snd kv)) m
  | _ => true
  end.

(** The value of the first member of an object with the given key. *)
Fixpoint member (key : string) (m : list (string * value)) : option value :=
  match m with
  | nil => None
  | (k, v) :: rest => if String.eqb k key then Some v else member key rest
  end.

End Json.

(** *** pkg/admission/clusterworkspace: the ClusterWorkspace admission plugin

    The plugin itself (admission.go) is not among the sources; only its
    test file is. The plugin is modelled from the specification, and the
    cases of the test file are replayed against the model in Part II. *)

Module Admission.
Import GoStrings.

(** [user.Info] ([user.DefaultInfo] in the tests). Slices are lists: a
    nil slice and an empty one are not told apart. *)
Record UserInfo : Type := mkUserInfo {
  User_Name : string;
  User_UID : string;
  User_Groups : list string;
  User_Extra : gmap string (list string)
}.

(** [tenancyv1alpha1.ClusterWorkspacePhaseType]; a status whose phase was
    never set has [None]. *)
Inductive ClusterWorkspacePhase : Type :=
| Scheduling
| Initializing
| Ready.

Record ClusterWorkspaceTypeReference : Type := mkTypeReference {
  Type_Name : string;
  Type_Path : string
}.

Record ClusterWorkspaceLocation : Type := mkLocation {
  Location_Current : string;
  Location_Target : string
}.

Record ClusterWorkspaceStatus : Type := mkStatus {
  Status_Phase : option ClusterWorkspacePhase;
  Status_Initializers : list string;
  Status_Location : ClusterWorkspaceLocation;
  Status_BaseURL : string
}.

Record ClusterWorkspace : Type := mkClusterWorkspace {
  Meta_Name : string;
  Meta_Annotations : gmap string string;
  Spec_Type : ClusterWorkspaceTypeReference;
  Status : ClusterWorkspaceStatus
}.

(** [admission.Operation], an update with the object it replaces. *)
Inductive Operation : Type :=
| Create
| Update (old : ClusterWorkspace).

(** [admission.Attributes]: the object, the resource it is addressed as,
    the operation and the calling user. An object of another resource is
    looked at through its resource name only. *)
Record Attributes : Type := mkAttributes {
  Attr_Object : ClusterWorkspace;
  Attr_Resource : string;
  Attr_Operation : Operation;
  Attr_UserInfo : UserInfo
}.

(** [tenancyv1alpha1.ClusterWorkspaceOwnerAnnotationKey] *)
Definition ClusterWorkspaceOwnerAnnotationKey : string := "tenancy.kcp.dev/owner".

Definition strings_json (l : list string) : Json.value :=
  Json.JArray (map Json.JString l).

(** A field tagged [omitempty]: left out when its value is empty. *)
Definition omitempty (key : string) (v : Json.value) (empty : bool)
  : list (string * Json.value) :=
  if empty then nil else (key, v) :: nil.

Definition lessKey (a b : string * list string) : bool := String.ltb (fst a) (fst b).

(** The members of the [extra] object, in the order of their keys. *)
Definition extra_members (extra : gmap string (list string)) : list (string * Json.value) :=
  map (fun kv => (fst kv, strings_json (snd kv)))
      (GoSort.SliceStable lessKey (map_to_list extra)).

(** Modelled from the spec: admission.go is missing. The caller identity
    as a JSON object, in the canonical order username, uid, groups, extra,
    with the extra keys sorted; an empty field is left out, as the tests'
    annotation of the empty user shows. *)
Definition ownerJSON (u : UserInfo) : Json.value :=
  Json.JObject
    (omitempty "username" (Json.JString (User_Name u)) (String.eqb (User_Name u) "")
     ++ omitempty "uid" (Json.JString (User_UID u)) (String.eqb (User_UID u) "")
     ++ omitempty "groups" (strings_json (User_Groups u))
          (bool_decide (User_Groups u = nil))
     ++ omitempty "extra" (Json.JObject (extra_members (User_Extra u)))
          (bool_decide (User_Extra u = ∅)))%list.

(** Modelled from the spec: admission.go is missing. The value stamped
    into the owner annotation: the JSON serialization of the caller. *)
Definition ClusterWorkspaceOwnerAnnotationValue (u : UserInfo) : string :=
  Json.Marshal (ownerJSON u).

(** Modelled from the spec: admission.go is missing. Decoding into a
    string field: null leaves the field empty. *)
Definition as_string (v : Json.value) : option string :=
  match v with
  | Json.JString s => Some s
  | Json.JNull => Some ""
  | _ => None
  end.

Definition as_strings (v : Json.value) : option (list string) :=
  match v with
  | Json.JArray l => mapM as_string l
  | Json.JNull => Some nil
  | _ => None
  end.

(** Modelled from the spec: admission.go is missing. Decoding into a
    map: of two members with one key the later wins. *)
Definition as_extra (v : Json.value) : option (gmap string (list string)) :=
  match v with
  | Json.JObject m =>
      option_map (fun l => list_to_map (rev l))
        (mapM (fun kv => option_map (fun l => (fst kv, l)) (as_strings (snd kv))) m)
  | Json.JNull => Some ∅
  | _ => None
  end.

Definition decode_member (u : UserInfo) (kv : string * Json.value) : option UserInfo :=
  let '(k, v) := kv in
  if String.eqb k "username" then
    option_map (fun s => mkUserInfo s (User_UID u) (User_Groups u) (User_Extra u))
               (as_string v)
  else if String.eqb k "uid" then
    option_map (fun s => mkUserInfo (User_Name u) s (User_Groups u) (User_Extra u))
               (as_string v)
  else if String.eqb k "groups" then
    option_map (fun l => mkUserInfo (User_Name u) (User_UID u) l (User_Extra u))
               (as_strings v)
  else if String.eqb k "extra" then
    option_map (fun e => mkUserInfo (User_Name u) (User_UID u) (User_Groups u) e)
               (as_extra v)
  else Some u.

(** Modelled from the spec: admission.go is missing. Decoding the owner
    annotation: the text is parsed as JSON and the members of the object
    are stored into the identity one after the other; a member with an
    unknown key is skipped, a member of the wrong type is an error. *)
Definition userFromJSON (v : Json.value) : option UserInfo :=
  match v with
  | Json.JObject m =>
      fold_left (fun acc kv => match acc with
                               | Some u => decode_member u kv
                               | None => None
                               end)
                m (Some (mkUserInfo "" "" nil ∅))
  | _ => None
  end.

Definition DecodeOwnerAnnotation (text : string) : option UserInfo :=
  match Json.Unmarshal text with
  | Some v => userFromJSON v
  | None => None
  end.

(** Every string of the identity is valid UTF-8: the name, the UID, the
    groups, and the keys and the values of the extra map. *)
Definition validUTF8 (u : UserInfo) : bool :=
  Json.ValidString (User_Name u) && Json.ValidString (User_UID u)
  && forallb Json.ValidString (User_Groups u)
  && forallb (fun kv => Json.ValidString (fst kv) && forallb Json.ValidString (snd kv))
             (map_to_list (User_Extra u)).

Definition set_annotation (ws : ClusterWorkspace) (key value : string) : ClusterWorkspace :=
  mkClusterWorkspace (Meta_Name ws) (<[ key := value ]> (Meta_Annotations ws))
                     (Spec_Type ws) (Status ws).

(** Modelled from the spec: admission.go is missing. [Admit]: on create
    the owner annotation is stamped with the serialized caller; on update
    nothing is done. The result is the attributes with the object as the
    plugin leaves it. *)
Definition Admit (a : Attributes) : Attributes :=
  match Attr_Operation a with
  | Create =>
      mkAttributes
        (set_annotation (Attr_Object a) ClusterWorkspaceOwnerAnnotationKey
           (ClusterWorkspaceOwnerAnnotationValue (Attr_UserInfo a)))
        (Attr_Resource a) Create (Attr_UserInfo a)
  | Update _ => a
  end.

Definition phaseName (p : ClusterWorkspacePhase) : string :=
  match p with
  | Scheduling => "Scheduling"
  | Initializing => "Initializing"
  | Ready => "Ready"
  end.

(** Modelled from the spec: admission.go is missing. The order of the
    phases: Scheduling < Initializing < Ready. *)
Definition phaseOrdinal (p : ClusterWorkspacePhase) : nat :=
  match p with
  | Scheduling => 1
  | Initializing => 2
  | Ready => 3
  end.

(** [%q] of a phase name. *)
Definition quoted (s : string) : string :=
  String Json.dquote (s +:+ String Json.dquote "").

(** Modelled from the spec: admission.go is missing. The error of a step
    back, as the test "rejects transition to previous phase" reads it. *)
Definition transitionError (old new : ClusterWorkspacePhase) : string :=
  "cannot transition from " +:+ quoted (phaseName old) +:+ " to "
  +:+ quoted (phaseName new).

Definition check (failed : bool) (message : string) : list string :=
  if failed then message :: nil else nil.

Definition type_eqb (a b : ClusterWorkspaceTypeReference) : bool :=
  String.eqb (Type_Name a) (Type_Name b) && String.eqb (Type_Path a) (Type_Path b).

(** Modelled from the spec: admission.go is missing. Rule 1, on create:
    the owner annotation equals the stamped value. *)
Definition validateCreate (a : Attributes) : list string :=
  let expected := ClusterWorkspaceOwnerAnnotationValue (Attr_UserInfo a) in
  let got := default "" (Meta_Annotations (Attr_Object a) !! ClusterWorkspaceOwnerAnnotationKey) in
  check (negb (String.eqb got expected))
        ("expected user annotation " +:+ ClusterWorkspaceOwnerAnnotationKey +:+ "="
         +:+ expected).

(** Modelled from the spec: admission.go is missing. The phase rule of
    an update (rule 5): no step back in the order of the phases. *)
Definition validatePhaseTransition (old new : ClusterWorkspaceStatus) : list string :=
  match Status_Phase old, Status_Phase new with
  | Some po, Some pn =>
      check (phaseOrdinal pn <? phaseOrdinal po)%nat (transitionError po pn)
  | _, _ => nil
  end.

(** Modelled from the spec: admission.go is missing. Rules 2 to 5, on
    update: the type is immutable, the current location and the base URL
    cannot be unset, the phase cannot go back. *)
Definition validateUpdate (new old : ClusterWorkspace) : list string :=
  (check (negb (type_eqb (Spec_Type new) (Spec_Type old))) "field is immutable"
   ++ check (negb (String.eqb (Location_Current (Status_Location (Status old))) "")
             && String.eqb (Location_Current (Status_Location (Status new))) "")
            "status.location.current cannot be unset"
   ++ check (negb (String.eqb (Status_BaseURL (Status old)) "")
             && String.eqb (Status_BaseURL (Status new)) "")
            "status.baseURL cannot be unset"
   ++ validatePhaseTransition (Status old) (Status new))%list.

(** Modelled from the spec: admission.go is missing. Rule 6: what the
    phase Ready asks of the new object. *)
Definition validateReady (new : ClusterWorkspace) : list string :=
  match Status_Phase (Status new) with
  | Some Ready =>
      (check (negb (bool_decide (Status_Initializers (Status new) = nil)))
             "spec.initializers must be empty for phase Ready"
       ++ check (String.eqb (Status_BaseURL (Status new)) "")
                "status.baseURL must be set for phase Ready"
       ++ check (String.eqb (Location_Current (Status_Location (Status new))) "")
                "status.location.current must be set for phase Ready")%list
  | _ => nil
  end.

(** Modelled from the spec: admission.go is missing. The field errors of
    [Validate]: none for another resource; otherwise each broken rule gives
    one error. *)
Definition ValidateErrors (a : Attributes) : list string :=
  if negb (String.eqb (Attr_Resource a) "clusterworkspaces") then nil
  else
    (match Attr_Operation a with
     | Create => validateCreate a
     | Update old => validateUpdate (Attr_Object a) old
     end
     ++ validateReady (Attr_Object a))%list.

(** What rule 6 asks of a workspace in phase Ready. *)
Definition readyConditions (ws : ClusterWorkspace) : Prop :=
  Status_Initializers (Status ws) = nil
  /\ Status_BaseURL (Status ws) <> ""
  /\ Location_Current (Status_Location (Status ws)) <> "".

(** The canonical order of the keys of the owner annotation. *)
Definition canonicalKeys : list string := "username" :: "uid" :: "groups" :: "extra" :: nil.

Definition keysOrdered (a b : string) : Prop := String.leb a b = true.

(** Modelled from the spec: admission.go is missing. The message of
    several field errors taken as one rejection. *)
Definition aggregate (errs : list string) : string :=
  match errs with
  | e :: nil => e
  | _ => "[" +:+ Join errs ", " +:+ "]"
  end.

(** Modelled from the spec: admission.go is missing. [Validate]: [None]
    when the object is admitted, otherwise the one rejection that carries
    every field error. *)
Definition Validate (a : Attributes) : option string :=
  match ValidateErrors a with
  | nil => None
  | errs => Some (aggregate errs)
  end.

End Admission.

(** *** startFrontProxy: waiting for the front proxy to be ready

    The loop at the end of [startFrontProxy] talks to its surroundings at
    every step: it sleeps, looks at the context and at the channel on which
    the child's exit code arrives, reads the kubeconfig, builds a client and
    probes [/readyz]. What the surroundings answer in one iteration is an
    [observation]; the loop is run against the list of the observations of
    its iterations, and what it does is recorded as a list of events. *)

Module FrontProxy.

(** What [cmd.Wait] returns: nil, an [*exec.ExitError], another error. *)
Inductive waitResult : Type :=
| WaitNil
| WaitExitError (exitCode : Z)
| WaitOtherError.

(** The goroutine around [cmd.Wait]: what it sends on [terminatedCh]. *)
Definition reportExit (w : waitResult) : option Z :=
  match w with
  | WaitNil => Some 0
  | WaitExitError exitCode => Some exitCode
  | WaitOtherError => None
  end.

(** The errors of the loop: ["context canceled"] and
    ["kcp-front-proxy terminated with exit code %d"]. *)
Inductive error : Type :=
| ContextCanceled
| TerminatedWithExitCode (rc : Z).

(** The case that the [select] statement takes. *)
Inductive selected : Type :=
| SelectDone
| SelectTerminated (rc : Z)
| SelectDefault.

(** [select] with the cases [<-ctx.Done()], [rc := <-terminatedCh] and
    [default]: a case that can proceed is taken, the default only when
    none can; when both channels are ready the runtime picks one of them,
    and [pickTerminated] is its pick. *)
Definition select (ctxDone : bool) (terminatedCh : option Z) (pickTerminated : bool)
  : selected :=
  match ctxDone, terminatedCh with
  | true, Some rc => if pickTerminated then SelectTerminated rc else SelectDone
  | true, None => SelectDone
  | false, Some rc => SelectTerminated rc
  | false, None => SelectDefault
  end.

(** The result of the GET: [res.Error()] is not nil, or the status code. *)
Inductive probe : Type :=
| ProbeError
| ProbeStatus (rc : Z).

(** What the loop finds in one iteration: whether the context is done,
    the exit code waiting in [terminatedCh], the runtime's pick, whether
    [ClientConfig] and [NewClusterForConfig] succeed, and the probe. *)
Record observation : Type := mkObservation {
  ctxDone : bool;
  terminatedCh : option Z;
  pickTerminated : bool;
  configLoads : bool;
  clientBuilds : bool;
  readyz : probe
}.

(** What the loop does: [time.Sleep], loading a kubeconfig with a current
    context, building the client, and a GET of an absolute path. *)
Inductive event : Type :=
| Sleep (seconds : Z)
| LoadKubeconfig (explicitPath currentContext : string)
| NewClusterForConfig
| Get (absPath : string).

(** How an iteration ends: with [return err] ([None] for [break] and the
    [return nil] after the loop), or with the next iteration. *)
Inductive step : Type :=
| Return (err : option error)
| Continue.

Definition StatusOK : Z := 200.

Definition loadAdmin : event := LoadKubeconfig ".kcp/admin.kubeconfig" "system:admin".

(** One iteration of the loop. *)
Definition iteration (o : observation) : list event * step :=
  match select (ctxDone o) (terminatedCh o) (pickTerminated o) with
  | SelectDone => (Sleep 1 :: nil, Return (Some ContextCanceled))
  | SelectTerminated rc => (Sleep 1 :: nil, Return (Some (TerminatedWithExitCode rc)))
  | SelectDefault =>
      if negb (configLoads o) then (Sleep 1 :: loadAdmin :: nil, Continue)
      else if negb (clientBuilds o) then
        (Sleep 1 :: loadAdmin :: NewClusterForConfig :: nil, Continue)
      else
        (Sleep 1 :: loadAdmin :: NewClusterForConfig :: Get "/readyz" :: nil,
         match readyz o with
         | ProbeError => Continue
         | ProbeStatus rc => if rc =? StatusOK then Return None else Continue
         end)
  end.

(** What the loop has come to when the observations end. *)
Inductive outcome : Type :=
| Returned (err : option error)
| Waiting.

(** The loop, run against the observations of its iterations: the events
    of each iteration it runs, and its outcome. *)
Fixpoint waitForReadiness (obs : list observation) : list (list event) * outcome :=
  match obs with
  | nil => (nil, Waiting)
  | o :: rest =>
      match iteration o with
      | (events, Return err) => (events :: nil, Returned err)
      | (events, Continue) =>
          let (more, out) := waitForReadiness rest in (events :: more, out)
      end
  end.

(** The iteration goes on to the next one. *)
Definition continues (o : observation) : Prop := snd (iteration o) = Continue.

(** The probe of the iteration is made and answers 200. *)
Definition ready (o : observation) : Prop :=
  ctxDone o = false /\ terminatedCh o = None
  /\ configLoads o = true /\ clientBuilds o = true
  /\ readyz o = ProbeStatus 200.

End FrontProxy.

(** *** The shape of a cluster name

    [reClusterName] read as a predicate on strings: what the expression
    asks of the pieces of a name between its colons, and the strings that
    an expression stands for. *)

Module ClusterName.

(** Every byte of [s] is in the class [p]. *)
Fixpoint all_bytes (p : ascii -> bool) (s : string) : bool :=
  match s with
  | EmptyString => true
  | String c t => p c && all_bytes p t
  end.

(** The last byte of [s] is in the class [p]; true of the empty string. *)
Fixpoint ends_in (p : ascii -> bool) (s : string) : bool :=
  match s with
  | EmptyString => true
  | String c EmptyString => p c
  | String _ t => ends_in p t
  end.

(** [[a-z]([a-z0-9-]{0,61}[a-z0-9])?]: a lower-case letter, then at most
    62 bytes out of letters, digits and dashes, the last one no dash. *)
Definition label (s : string) : bool :=
  match s with
  | EmptyString => false
  | String c t =>
      Regexp.lower c
      && (String.length t <=? 62)%nat
      && all_bytes Regexp.lower_digit_dash t
      && ends_in Regexp.lower_digit t
  end.

(** The strings that a regular expression stands for. *)
Inductive matches : Regexp.regex -> string -> Prop :=
| MEps : matches Regexp.Eps ""
| MClass (p : ascii -> bool) (c : ascii) :
    p c = true -> matches (Regexp.Class p) (String c "")
| MSeq (r1 r2 : Regexp.regex) (s1 s2 : string) :
    matches r1 s1 -> matches r2 s2 -> matches (Regexp.Seq r1 r2) (s1 +:+ s2)
| MAltL (r1 r2 : Regexp.regex) (s : string) :
    matches r1 s -> matches (Regexp.Alt r1 r2) s
| MAltR (r1 r2 : Regexp.regex) (s : string) :
    matches r2 s -> matches (Regexp.Alt r1 r2) s
| MStarNil (r : Regexp.regex) : matches (Regexp.Star r) ""
| MStarCons (r : Regexp.regex) (s1 s2 : string) :
    matches r s1 -> matches (Regexp.Star r) s2 -> matches (Regexp.Star r) (s1 +:+ s2)
| MOptNone (r : Regexp.regex) : matches (Regexp.Opt r) ""
| MOptSome (r : Regexp.regex) (s : string) :
    matches r s -> matches (Regexp.Opt r) s
| MUptoNil (r : Regexp.regex) (n : nat) : matches (Regexp.Upto r n) ""
| MUptoCons (r : Regexp.regex) (n : nat) (s1 s2 : string) :
    matches r s1 -> matches (Regexp.Upto r n) s2 ->
    matches (Regexp.Upto r (S n)) (s1 +:+ s2).

End ClusterName.

(** *** pkg/server/handler.go: the other handlers of the chain *)

Module Chain.
Import GoStrings HTTP.

(** [UserAgentFrom]; a nil context is [None]. *)
Definition UserAgentFrom (ctx : option Context) : string :=
  match ctx with
  | None => ""
  | Some ctx =>
      match ctx_userAgent ctx with
      | Some v => v
      | None => ""
      end
  end.

(** A call into the audit library:
    [kaudit.AddAuditAnnotation(ctx, key, value)]. *)
Inductive auditCall : Type :=
| AddAuditAnnotation (key value : string).

(** [WithClusterAnnotation]: the calls it makes, and the request it hands
    on. *)
Definition WithClusterAnnotation (req : Request) : list auditCall * Request :=
  match ctx_cluster (Req_Context req) with
  | Some cluster =>
      (AddAuditAnnotation Handler.workspaceAnnotation (Cluster_Name cluster) :: nil, req)
  | None => (nil, req)
  end.

Section Projection.

(** Outside this file: the group and the version of
    [tenancyv1beta1.SchemeGroupVersion], and [tenancyv1alpha1.RootCluster]. *)
Variable Group Version : string.
Variable RootCluster : string.

Definition toRedirectPath : string :=
  GoPath.Join ("/apis" :: Group :: Version :: "workspaces/" :: nil).

Definition getHomeWorkspaceRequestPath : string :=
  GoPath.Join (toRedirectPath :: "~" :: nil).

(** [WithWorkspaceProjection]: the request handed on. The handler writes
    no response of its own; without a cluster in the context it reads the
    name of a nil cluster and panics, which is [None]. *)
Definition WithWorkspaceProjection (req : Request) : option Request :=
  match ctx_cluster (Req_Context req) with
  | None => None
  | Some cluster =>
      if String.eqb (Cluster_Name cluster) "" then Some req
      else if String.eqb (Cluster_Name cluster) RootCluster
              && String.eqb (URL_Path (Req_URL req)) getHomeWorkspaceRequestPath
      then Some req
      else if HasPrefix (URL_Path (Req_URL req)) toRedirectPath then
        let newPath :=
          GoPath.Join ("/services/workspaces" :: Cluster_Name cluster :: "all"
                         :: URL_Path (Req_URL req) :: nil) in
        Some (with_url req (mkURL newPath (URL_RawPath (Req_URL req))))
      else Some req
  end.

End Projection.

(** A handler followed by the handler it wraps. *)
Definition andThen (first next : Request -> Outcome) (req : Request) : Outcome :=
  match first req with
  | Next req' => next req'
  | Respond st => Respond st
  end.

End Chain.

(** *** What a handler has written into the in-memory writer *)

Module Written.
Import Discovery.

(** The bytes of the [Write] calls, in their order. *)
Fixpoint body (ops : list write_op) : string :=
  match ops with
  | nil => ""
  | OpWrite bytes :: rest => bytes +:+ body rest
  | OpWriteHeader _ :: rest => body rest
  end.

Definition is_write (op : write_op) : Prop :=
  match op with
  | OpWrite _ => True
  | OpWriteHeader _ => False
  end.

End Written.

(** *** The time the readiness loop sleeps *)

Module Pace.
Import FrontProxy.

(** The seconds slept in a run of events. *)
Fixpoint slept (events : list event) : Z :=
  match events with
  | nil => 0
  | Sleep seconds :: rest => seconds + slept rest
  | _ :: rest => slept rest
  end.

(** Nothing has arrived on the two channels. *)
Definition quiet (o : observation) : Prop :=
  ctxDone o = false /\ terminatedCh o = None.

End Pace.

(** *** Test data: the requests of the scenarios and the objects of the
    admission tests *)

Module Fixtures.
Import HTTP.

(** JSON texts are written with apostrophes for their quotes. *)
Fixpoint sq (s : string) : string :=
  match s with
  | EmptyString => ""
  | String c t => String (if Ascii.eqb c "'" then Json.dquote else c) (sq t)
  end.

Definition emptyContext : Context := mkContext None None None None None.

Definition request (path rawPath : string) : Request :=
  mkRequest (mkURL path rawPath) path ∅ emptyContext.

(** [%q] for strings that need no escape. *)
Definition quote (s : string) : string := Admission.quoted s.

Definition noPartialMetadata (_ : Context) : bool := false.

Definition LocalAdminCluster : string := "system:admin".

(** A request whose path holds an encoded slash, so that the server keeps
    the encoded path beside the decoded one. *)
Definition encodedSlashRequest : Request :=
  request "/clusters/root/apis/foo/v1/widgets/a/b"
          "/clusters/root/apis/foo/v1/widgets/a%2Fb".

(** [/clusters/root], nothing after the cluster name. *)
Definition bareClusterRequest : Request := request "/clusters/root" "".

Definition wildcardCluster : Cluster := mkCluster "*" true false.

Definition wildcardRequest (path : string) (ri : RequestInfo) : Request :=
  mkRequest (mkURL path "") path ∅
            (mkContext None None (Some wildcardCluster) (Some ri) None).

(** Scenario S2: a get of pods in the wildcard cluster. *)
Definition getPods : Request :=
  wildcardRequest "/api/v1/pods" (mkRequestInfo true "get" "" "v1" "pods").

(** Scenario S3: a list of widgets qualified by an identity. *)
Definition listWidgets : Request :=
  wildcardRequest "/apis/foo/v1/widgets:idabc123"
                  (mkRequestInfo true "list" "foo" "v1" "widgets:idabc123").

(** A list of the pods of the namespace [pods:id1], and the list of
    widgets with its colon encoded in the raw path. *)
Definition listPodsOfNamespace : Request :=
  wildcardRequest "/api/v1/namespaces/pods:id1/pods:id1"
                  (mkRequestInfo true "list" "" "v1" "pods:id1").

Definition listWidgetsEncoded : Request :=
  mkRequest (mkURL "/apis/foo/v1/widgets:idabc123" "/apis/foo/v1/widgets%3Aidabc123")
            "/apis/foo/v1/widgets%3Aidabc123" ∅
            (mkContext None None (Some wildcardCluster)
               (Some (mkRequestInfo true "list" "foo" "v1" "widgets:idabc123")) None).

(** What the identity handler makes of that list. *)
Definition listedWidgets : Request :=
  mkRequest (mkURL "/apis/foo/v1/widgets" "") "/apis/foo/v1/widgets:idabc123" ∅
            (mkContext None None (Some wildcardCluster)
               (Some (mkRequestInfo true "list" "foo" "v1" "widgets"))
               (Some "idabc123")).

(** The same with nothing after the colon. *)
Definition listWidgetsNoIdentity : Request :=
  wildcardRequest "/apis/foo/v1/widgets:"
                  (mkRequestInfo true "list" "foo" "v1" "widgets:").

Definition MethodNotSupportedMessage (kind action : string) : string :=
  action +:+ " is not supported on resources of kind " +:+ quote kind.

(** A token library for the examples: a token is valid when it is the
    text [token], and its claims name the cluster [root:org]. *)
Definition claims : gmap string Unstructured.value :=
  {[ "iss" := Unstructured.VString "kubernetes/serviceaccount";
     "kubernetes.io" :=
       Unstructured.VMap {[ "clusterName" := Unstructured.VString "root:org" ]} ]}.

Definition ParseSigned (token : string) : option (gmap string Unstructured.value) :=
  if String.eqb token "token" then Some claims else None.

Definition UnsafeClaimsWithoutVerification (jwt : gmap string Unstructured.value)
  : option (gmap string Unstructured.value) := Some jwt.

(** A service-account request for [/api/v1/pods]. *)
Definition serviceAccountRequest : Request :=
  mkRequest (mkURL "/api/v1/pods" "") "/api/v1/pods"
            {[ "Authorization" := "Bearer token" :: nil ]} emptyContext.

(** The same request marked as sharded. *)
Definition shardedRequest : Request :=
  mkRequest (mkURL "/api/v1/pods" "") "/api/v1/pods"
            {[ "Authorization" := "Bearer token" :: nil;
               "X-Kubernetes-Sharded-Request" := "true" :: nil ]} emptyContext.

(** Discovery: the native server knows [configmaps] and [namespaces], and
    two CRDs give [foos] and a second [configmaps]. *)
Definition resource (name kind : string) : Discovery.APIResource :=
  Discovery.mkAPIResource name true kind ("get" :: "list" :: "watch" :: nil).

Definition nativeResources : list Discovery.APIResource :=
  resource "namespaces" "Namespace" :: resource "configmaps" "ConfigMap" :: nil.

Definition crdResources : list Discovery.APIResource :=
  resource "foos" "Foo" :: resource "configmaps" "ConfigMapCRD" :: nil.

(** The CRD machinery and the codec of the examples: a CRD is given by the
    resource it serves, and the body [v1] decodes to the native list. *)
Definition APIResourcesForGroupVersion (group version : string)
    (crds : list Discovery.APIResource) : list Discovery.APIResource := crds.

Definition Decode (body : string) : Discovery.decoded :=
  if String.eqb body "v1"
  then Discovery.DecodedList (Discovery.mkAPIResourceList "v1" nativeResources)
  else Discovery.DecodeError "unknown body".

Definition coreHandler (req : Request) : list Discovery.write_op :=
  Discovery.OpWrite "v1" :: nil.

(** Scenario S4: a discovery request for [/api/v1]. *)
Definition discoveryRequest : Request :=
  mkRequest (mkURL "/api/v1" "") "/api/v1" ∅
            (mkContext None None None (Some (mkRequestInfo false "get" "" "v1" "")) None).

(** The admission tests: the users, and the workspace [test] of type
    [root:org:foo] with the owner annotation [{}] that most cases use. *)
Definition someone : Admission.UserInfo :=
  Admission.mkUserInfo "someone" "id" ("a" :: "b" :: nil)
                       {[ "one" := "1" :: "01" :: nil ]}.

Definition nobody : Admission.UserInfo := Admission.mkUserInfo "" "" nil ∅.

(** A caller whose name holds the byte [0xFF], which no UTF-8 encoding
    holds, and the caller that is decoded from the annotation stamped for
    it: the byte has become U+FFFD. *)
Definition brokenName : Admission.UserInfo :=
  Admission.mkUserInfo (String "a" (String "255" (String "d" ""))) "id" nil ∅.

Definition mendedName : Admission.UserInfo :=
  Admission.mkUserInfo
    (String "a" (String "239" (String "191" (String "189" (String "d" ""))))) "id" nil ∅.

Definition someoneJSON : string :=
  sq "{'username':'someone','uid':'id','groups':['a','b'],'extra':{'one':['1','01']}}".

Definition fooType : Admission.ClusterWorkspaceTypeReference :=
  Admission.mkTypeReference "foo" "root:org".

Definition universalType : Admission.ClusterWorkspaceTypeReference :=
  Admission.mkTypeReference "universal" "root:org".

Definition status (phase : option Admission.ClusterWorkspacePhase)
    (initializers : list string) (current baseURL : string)
  : Admission.ClusterWorkspaceStatus :=
  Admission.mkStatus phase initializers (Admission.mkLocation current "") baseURL.

Definition noStatus : Admission.ClusterWorkspaceStatus := status None nil "" "".

Definition workspace (type : Admission.ClusterWorkspaceTypeReference)
    (st : Admission.ClusterWorkspaceStatus) : Admission.ClusterWorkspace :=
  Admission.mkClusterWorkspace "test" {[ "tenancy.kcp.dev/owner" := "{}" ]} type st.

Definition createAttrWithUser (ws : Admission.ClusterWorkspace) (info : Admission.UserInfo)
  : Admission.Attributes :=
  Admission.mkAttributes ws "clusterworkspaces" Admission.Create info.

Definition createAttr (ws : Admission.ClusterWorkspace) : Admission.Attributes :=
  createAttrWithUser ws nobody.

Definition updateAttr (ws old : Admission.ClusterWorkspace) : Admission.Attributes :=
  Admission.mkAttributes ws "clusterworkspaces" (Admission.Update old) nobody.

Definition baseURL : string := "https://kcp.bigcorp.com/clusters/org:test".

Definition readyStatus : Admission.ClusterWorkspaceStatus :=
  status (Some Admission.Ready) nil "somewhere" baseURL.

(** A request that names its cluster in the cluster header. *)
Definition headerRequest : Request :=
  mkRequest (mkURL "/api/v1/pods" "") "/api/v1/pods"
            {[ "X-Kubernetes-Cluster" := "root:org" :: nil ]} emptyContext.

(** A service-account request for the root path. *)
Definition serviceAccountRootRequest : Request :=
  mkRequest (mkURL "/" "") "/" {[ "Authorization" := "Bearer token" :: nil ]}
            emptyContext.

(** The group and version of the projected workspaces, the root cluster,
    and a list of the workspaces of [root:org]. *)
Definition Group : string := "tenancy.kcp.dev".
Definition Version : string := "v1beta1".
Definition RootCluster : string := "root".

Definition workspacesPath : list string :=
  "apis" :: "tenancy.kcp.dev" :: "v1beta1" :: "workspaces" :: nil.

Definition scopedRequest (name path : string) : Request :=
  mkRequest (mkURL path "") path ∅
            (mkContext None None (Some (mkCluster name false false)) None None).

Definition listWorkspaces : Request :=
  scopedRequest "root:org" "/apis/tenancy.kcp.dev/v1beta1/workspaces".

Definition clusterListWorkspaces : Request :=
  request "/clusters/root:org/apis/tenancy.kcp.dev/v1beta1/workspaces" "".

(** A native handler that answers 404 after it has begun a body. *)
Definition lateStatusHandler (req : Request) : list Discovery.write_op :=
  Discovery.OpWrite "not" :: Discovery.OpWriteHeader 404
    :: Discovery.OpWrite " found" :: nil.

(** The front proxy: an iteration in which nothing has happened yet and
    the probe answers with the given status, the iteration after a cancel
    (the child is killed, and its exit code -1 has arrived as well), and
    scenario S8 (503 twice, then 200). *)
Definition probing (rc : Z) : FrontProxy.observation :=
  FrontProxy.mkObservation false None false true true (FrontProxy.ProbeStatus rc).

Definition afterCancel (pickTerminated : bool) : FrontProxy.observation :=
  FrontProxy.mkObservation true (Some (-1)) pickTerminated true true
                           FrontProxy.ProbeError.

Definition scenarioS8 : list FrontProxy.observation :=
  probing 503 :: probing 503 :: probing 200 :: nil.

End Fixtures.

(** ** Part II: properties *)

(** *** Byte strings *)

Module GoStringsFacts.
Import GoStrings.

Lemma append_cons (x : ascii) (a b : string) : String x a +:+ b = String x (a +:+ b).
Proof. reflexivity. Qed.

Lemma append_assoc (a b c : string) : (a +:+ b) +:+ c = a +:+ (b +:+ c).
Proof.
  induction a as [|x a IH]; [reflexivity|].
  rewrite !append_cons. now f_equal.
Qed.

Lemma append_empty_r (a : string) : a +:+ "" = a.
Proof.
  induction a as [|x a IH]; [reflexivity|].
  rewrite append_cons. now f_equal.
Qed.

Lemma length_append (a b : string) :
  String.length (a +:+ b) = (String.length a + String.length b)%nat.
Proof.
  induction a as [|x a IH]; [reflexivity|].
  rewrite append_cons. simpl. now f_equal.
Qed.

Lemma HasPrefix_append (p s : string) : HasPrefix (p +:+ s) p = true.
Proof.
  induction p as [|x p IH]; simpl; [reflexivity|].
  now rewrite Ascii.eqb_refl, IH.
Qed.

Lemma HasPrefix_inv (s p : string) :
  HasPrefix s p = true -> exists t, s = p +:+ t.
Proof.
  revert s; induction p as [|x p IH]; intros s H; simpl in *.
  - now exists s.
  - destruct s as [|y s]; [discriminate|].
    apply andb_true_iff in H as [Hxy Hp].
    apply Ascii.eqb_eq in Hxy; subst y.
    destruct (IH _ Hp) as [t ->]. now exists t.
Qed.

Lemma slice_from_append (p s : string) : slice_from (String.length p) (p +:+ s) = s.
Proof. induction p as [|x p IH]; simpl; [now destruct s | exact IH]. Qed.

Lemma slice_to_append (p s : string) : slice_to (String.length p) (p +:+ s) = p.
Proof.
  induction p as [|x p IH]; [now destruct s|].
  rewrite append_cons. simpl. now f_equal.
Qed.

Lemma slice_to_from (n : nat) (s : string) : slice_to n s +:+ slice_from n s = s.
Proof.
  revert s; induction n as [|n IH]; intros [|c s]; try reflexivity.
  simpl slice_to; simpl slice_from. rewrite append_cons. f_equal. apply IH.
Qed.

Lemma TrimPrefix_append (p s : string) : TrimPrefix (p +:+ s) p = s.
Proof. unfold TrimPrefix. now rewrite HasPrefix_append, slice_from_append. Qed.

Lemma has_byte_append (c : ascii) (a b : string) :
  has_byte c (a +:+ b) = has_byte c a || has_byte c b.
Proof.
  induction a as [|x a IH]; [reflexivity|].
  rewrite append_cons. simpl has_byte. now rewrite IH, orb_assoc.
Qed.

Lemma index_of_cons (x : ascii) (s sub : string) :
  index_of (String x s) sub =
  if HasPrefix (String x s) sub then Some O else option_map S (index_of s sub).
Proof. reflexivity. Qed.

Lemma HasPrefix_byte (x c : ascii) (s : string) :
  HasPrefix (String x s) (String c "") = Ascii.eqb c x.
Proof. simpl. apply andb_true_r. Qed.

(** The first occurrence of a byte is where the bytes before it end. *)
Lemma index_of_byte (c : ascii) (pre post : string) :
  has_byte c pre = false ->
  index_of (pre +:+ String c post) (String c "") = Some (String.length pre).
Proof.
  induction pre as [|x pre IH]; intros H.
  - change ("" +:+ String c post) with (String c post).
    now rewrite index_of_cons, HasPrefix_byte, Ascii.eqb_refl.
  - simpl in H. apply orb_false_iff in H as [Hx Hpre].
    rewrite append_cons, index_of_cons, HasPrefix_byte, Ascii.eqb_sym, Hx.
    now rewrite (IH Hpre).
Qed.

Lemma index_of_absent (c : ascii) (s : string) :
  has_byte c s = false -> index_of s (String c "") = None.
Proof.
  induction s as [|x s IH]; intros H; [reflexivity|].
  simpl in H. apply orb_false_iff in H as [Hx Hs].
  rewrite index_of_cons, HasPrefix_byte, Ascii.eqb_sym, Hx.
  now rewrite (IH Hs).
Qed.

Lemma Index_byte (c : ascii) (pre post : string) :
  has_byte c pre = false ->
  Index (pre +:+ String c post) (String c "") = Z.of_nat (String.length pre).
Proof. intros H. unfold Index. now rewrite index_of_byte. Qed.

Lemma Index_absent (c : ascii) (s : string) :
  has_byte c s = false -> Index s (String c "") = -1.
Proof. intros H. unfold Index. now rewrite index_of_absent. Qed.

Lemma Index_present (c : ascii) (s : string) :
  has_byte c s = true ->
  exists pre post, s = pre +:+ String c post /\ has_byte c pre = false.
Proof.
  induction s as [|x s IH]; simpl; intros H; [discriminate|].
  destruct (Ascii.eqb x c) eqn:E.
  - apply Ascii.eqb_eq in E; subst x. now exists "", s.
  - simpl in H. destruct (IH H) as (pre & post & -> & Hpre).
    exists (String x pre), post. split; [reflexivity|].
    simpl. now rewrite E, Hpre.
Qed.

(** [Replace1] rewrites the first occurrence and nothing else. *)
Lemma Replace1_first (pre old new post : string) :
  index_of (pre +:+ old +:+ post) old = Some (String.length pre) ->
  Replace1 (pre +:+ old +:+ post) old new = pre +:+ new +:+ post.
Proof.
  intros H. unfold Replace1. rewrite H.
  rewrite slice_to_append.
  replace (pre +:+ old +:+ post) with ((pre +:+ old) +:+ post)
    by apply append_assoc.
  rewrite <- length_append, slice_from_append. reflexivity.
Qed.

Lemma Replace1_absent (s old new : string) :
  index_of s old = None -> Replace1 s old new = s.
Proof. intros H. unfold Replace1. now rewrite H. Qed.

Lemma Contains_suffix (s suffix : string) : Contains (s +:+ suffix) suffix.
Proof. exists s, "". now rewrite append_empty_r. Qed.

End GoStringsFacts.

(** *** [path.Join] on clean paths *)

Module GoPathFacts.
Import GoStrings GoStringsFacts GoPath.

Lemma split_on_sep (c : ascii) (e rest : string) :
  has_byte c e = false ->
  split_on c (e +:+ String c rest) = e :: split_on c rest.
Proof.
  induction e as [|a e IH]; intros H.
  - change ("" +:+ String c rest) with (String c rest).
    cbn [split_on]. now rewrite Ascii.eqb_refl.
  - simpl in H. apply orb_false_iff in H as [Ha He].
    rewrite append_cons. cbn [split_on]. now rewrite Ha, (IH He).
Qed.

Lemma split_on_single (c : ascii) (e : string) :
  has_byte c e = false -> split_on c e = e :: nil.
Proof.
  induction e as [|a e IH]; intros H; [reflexivity|].
  simpl in H. apply orb_false_iff in H as [Ha He].
  cbn [split_on]. now rewrite Ha, (IH He).
Qed.

Lemma plain_elem_no_slash (e : string) : plain_elem e = true -> has_byte "/" e = false.
Proof.
  unfold plain_elem. intros H.
  apply andb_true_iff in H as [_ H]. now apply negb_true_iff in H.
Qed.

(** [Clean] keeps a plain element. *)
Lemma clean_elems_plain (rooted : bool) (e : string) (rest out : list string) :
  plain_elem e = true ->
  clean_elems rooted (e :: rest) out = clean_elems rooted rest (e :: out).
Proof.
  unfold plain_elem. intros H.
  apply andb_true_iff in H as [H _].
  apply andb_true_iff in H as [H H2].
  apply andb_true_iff in H as [H0 H1].
  apply negb_true_iff in H0, H1, H2.
  cbn [clean_elems]. now rewrite H0, H1, H2.
Qed.

Lemma clean_elems_elem_path (e : string) (es out : list string) :
  plain_elem e = true ->
  Forall (fun x => plain_elem x = true) es ->
  clean_elems true (split_on "/" (e +:+ rooted_path es)) out = (rev out ++ e :: es)%list.
Proof.
  revert e out; induction es as [|e2 es IH]; intros e out He Hes.
  - cbn [rooted_path]. rewrite append_empty_r.
    rewrite (split_on_single "/" e (plain_elem_no_slash e He)).
    rewrite (clean_elems_plain true e nil out He). reflexivity.
  - inversion Hes as [|? ? He2 Hes']; subst.
    change (rooted_path (e2 :: es)) with (String "/" (e2 +:+ rooted_path es)).
    rewrite (split_on_sep "/" e _ (plain_elem_no_slash e He)).
    rewrite (clean_elems_plain true e _ out He).
    rewrite (IH e2 (e :: out) He2 Hes'). cbn [rev].
    now rewrite <- app_assoc.
Qed.

Lemma clean_elems_rooted_path (es out : list string) :
  Forall (fun x => plain_elem x = true) es ->
  clean_elems true (split_on "/" (rooted_path es)) out = (rev out ++ es)%list.
Proof.
  destruct es as [|e es]; intros Hes.
  - cbn. now rewrite app_nil_r.
  - inversion Hes as [|? ? He Hes']; subst.
    change (rooted_path (e :: es)) with (String "/" (e +:+ rooted_path es)).
    cbn [split_on]. rewrite Ascii.eqb_refl.
    change (clean_elems true ("" :: ?l) out) with (clean_elems true l out).
    now apply clean_elems_elem_path.
Qed.

Lemma Join_elems_rooted (e : string) (es : list string) :
  GoStrings.Join (e :: es) "/" = e +:+ rooted_path es.
Proof.
  revert e; induction es as [|e2 es IH]; intros e.
  - cbn. now rewrite append_empty_r.
  - change (GoStrings.Join (e :: e2 :: es) "/")
      with (e +:+ "/" +:+ GoStrings.Join (e2 :: es) "/").
    now rewrite IH.
Qed.

(** Joining [/clusters], a plain cluster name and a clean rooted path puts
    [/clusters/<name>] in front of the path. *)
Lemma Join_clusters (name : string) (es : list string) :
  plain_elem name = true ->
  Forall (fun x => plain_elem x = true) es ->
  GoPath.Join ("/clusters" :: name :: rooted_path es :: nil)
  = "/clusters/" +:+ name +:+ rooted_path es.
Proof.
  intros Hname Hes. unfold GoPath.Join. cbn [skip_empty String.eqb Ascii.eqb Bool.eqb].
  change (GoStrings.Join ("/clusters" :: name :: rooted_path es :: nil) "/")
    with (String "/" ("clusters" +:+ String "/" (name +:+ String "/" (rooted_path es)))).
  unfold Clean. cbn [Ascii.eqb Bool.eqb].
  cbn [split_on]. cbn [Ascii.eqb Bool.eqb].
  rewrite (split_on_sep "/" "clusters" _ eq_refl).
  rewrite (split_on_sep "/" name _ (plain_elem_no_slash name Hname)).
  change (clean_elems true ("" :: ?l) nil) with (clean_elems true l nil).
  rewrite (clean_elems_plain true "clusters" _ nil eq_refl).
  rewrite (clean_elems_plain true name _ _ Hname).
  rewrite (clean_elems_rooted_path es _ Hes). cbn [rev app].
  rewrite (Join_elems_rooted "clusters" (name :: es)). reflexivity.
Qed.

Example Clean_examples :
  Clean "/../a/b/../././/c" = "/a/c" /\ Clean "a/c/b/.." = "a/c"
  /\ Clean "../../a/../b" = "../../b" /\ Clean "" = "." /\ Clean "/" = "/"
  /\ Clean "abc/def/../../.." = "..".
Proof. repeat split. Qed.

End GoPathFacts.

(** *** Regular expressions: a byte that no class accepts is in no match *)

Module RegexpFacts.
Import Regexp.

Lemma void_seq (r1 r2 : regex) : void (seq r1 r2) = void r1 || void r2.
Proof. unfold seq. destruct (void r1 || void r2) eqn:E; simpl; congruence. Qed.

Lemma void_alt (r1 r2 : regex) : void (alt r1 r2) = void r1 && void r2.
Proof.
  unfold alt. destruct (void r1) eqn:E1; simpl; [reflexivity|].
  destruct (void r2) eqn:E2; simpl; [|now rewrite E1, E2].
  now rewrite E1.
Qed.

Lemma avoids_seq (c : ascii) (r1 r2 : regex) :
  avoids c r1 = true -> avoids c r2 = true -> avoids c (seq r1 r2) = true.
Proof. intros H1 H2. unfold seq. destruct (_ || _); simpl; [|rewrite H1, H2]; easy. Qed.

Lemma avoids_alt (c : ascii) (r1 r2 : regex) :
  avoids c r1 = true -> avoids c r2 = true -> avoids c (alt r1 r2) = true.
Proof.
  intros H1 H2. unfold alt.
  destruct (void r1); [easy|]. destruct (void r2); [easy|].
  simpl. now rewrite H1, H2.
Qed.

Lemma void_not_nullable (r : regex) : void r = true -> nullable r = false.
Proof.
  induction r; simpl; intros H; try discriminate; try reflexivity.
  - apply orb_true_iff in H as [H|H];
      [rewrite (IHr1 H) | rewrite (IHr2 H), andb_false_r]; reflexivity.
  - apply andb_true_iff in H as [H1 H2]. now rewrite (IHr1 H1), (IHr2 H2).
Qed.

Lemma void_deriv (a : ascii) (r : regex) : void r = true -> void (deriv a r) = true.
Proof.
  induction r; simpl; intros H; try discriminate; try reflexivity.
  - rewrite void_alt, void_seq. apply orb_true_iff in H as [H|H].
    + now rewrite (IHr1 H), (void_not_nullable _ H).
    + rewrite H, orb_true_r. destruct (nullable r1); [now rewrite (IHr2 H)|reflexivity].
  - apply andb_true_iff in H as [H1 H2].
    now rewrite void_alt, (IHr1 H1), (IHr2 H2).
Qed.

Lemma avoids_deriv (c a : ascii) (r : regex) :
  avoids c r = true -> avoids c (deriv a r) = true.
Proof.
  induction r; simpl; intros H; try reflexivity.
  - now destruct (p a).
  - apply andb_true_iff in H as [H1 H2].
    apply avoids_alt; [apply avoids_seq; auto|].
    destruct (nullable r1); auto.
  - apply andb_true_iff in H as [H1 H2]. apply avoids_alt; auto.
  - apply avoids_seq; auto.
  - auto.
  - destruct n; [reflexivity|]. apply avoids_seq; auto.
Qed.

Lemma deriv_avoided (c : ascii) (r : regex) :
  avoids c r = true -> void (deriv c r) = true.
Proof.
  induction r; simpl; intros H; try reflexivity.
  - apply negb_true_iff in H. now rewrite H.
  - apply andb_true_iff in H as [H1 H2].
    rewrite void_alt, void_seq, (IHr1 H1). simpl.
    destruct (nullable r1); auto.
  - apply andb_true_iff in H as [H1 H2]. now rewrite void_alt, IHr1, IHr2.
  - now rewrite void_seq, IHr.
  - auto.
  - destruct n; [reflexivity|]. now rewrite void_seq, IHr.
Qed.

Lemma void_no_match (s : string) (r : regex) : void r = true -> MatchString r s = false.
Proof.
  revert r; induction s as [|a s IH]; intros r H; simpl.
  - now apply void_not_nullable.
  - apply IH. now apply void_deriv.
Qed.

(** A string matched by [r] holds no byte that every class of [r] refuses. *)
Lemma MatchString_avoids (c : ascii) (s : string) (r : regex) :
  avoids c r = true -> MatchString r s = true -> GoStrings.has_byte c s = false.
Proof.
  revert r; induction s as [|a s IH]; intros r Hav Hm; simpl in *; [reflexivity|].
  destruct (Ascii.eqb a c) eqn:E; simpl.
  - apply Ascii.eqb_eq in E; subst a.
    rewrite (void_no_match s _ (deriv_avoided _ _ Hav)) in Hm. discriminate.
  - apply (IH (deriv a r)); [now apply avoids_deriv | exact Hm].
Qed.

End RegexpFacts.

(** *** The handler chain *)

Module HandlerFacts.
Import GoStrings GoStringsFacts HTTP Handler.

Lemma reClusterName_no_slash (c : string) :
  Regexp.MatchString reClusterName c = true -> has_byte "/" c = false.
Proof. apply RegexpFacts.MatchString_avoids. reflexivity. Qed.

Lemma reClusterName_not_wildcard (c : string) :
  Regexp.MatchString reClusterName c = true -> String.eqb c Wildcard = false.
Proof.
  intros H. apply String.eqb_neq. intros ->. discriminate.
Qed.

Lemma reClusterName_not_empty (c : string) :
  Regexp.MatchString reClusterName c = true -> String.eqb c "" = false.
Proof.
  intros H. apply String.eqb_neq. intros ->. discriminate.
Qed.

Section ClusterScope.

Variable quote : string -> string.
Variable isPartialMetadataRequest : Context -> bool.
Variable LocalAdminCluster : string.

Local Abbreviation shortenRawPath := (Handler.shortenRawPath quote).
Local Abbreviation clusterNameOf := (Handler.clusterNameOf quote).
Local Abbreviation WithClusterScope :=
  (Handler.WithClusterScope quote isPartialMetadataRequest LocalAdminCluster).

(** An empty raw path stays empty. *)
Lemma shortenRawPath_empty (n : nat) (c : string) : shortenRawPath n c "" = inr "".
Proof. destruct n; reflexivity. Qed.

Lemma slice_before_slash (x : ascii) (seg rest : string) :
  exists z, slice_from (String.length seg) (String x (seg +:+ String "/" rest))
            = String z (String "/" rest).
Proof.
  revert x; induction seg as [|w seg IH]; intros x.
  - now exists x.
  - cbn [String.length]. rewrite append_cons. cbn [slice_from]. apply IH.
Qed.

Lemma len_two (y z : ascii) (t : string) : (len (String y (String z t)) >? 1) = true.
Proof. unfold len. cbn [String.length]. apply Z.gtb_lt. lia. Qed.

(** When the raw path has a slash after its first byte, the loop returns
    the raw path from the byte before that slash: the first round cuts one
    byte too few, and the second round then finds the slash at once and
    cuts nothing. *)
Lemma shortenRawPath_keeps_a_byte (c seg rest : string) (x : ascii) :
  has_byte "/" seg = false ->
  shortenRawPath 2 c (String x (seg +:+ String "/" rest))
  = inr (slice_from (String.length seg) (String x (seg +:+ String "/" rest))).
Proof.
  intros Hseg. cbn [Handler.shortenRawPath].
  replace (len (String x (seg +:+ String "/" rest)) >? 1) with true.
  2:{ symmetry. unfold len. cbn [String.length]. rewrite length_append.
      cbn [String.length]. apply Z.gtb_lt. lia. }
  cbn [slice_from].
  rewrite (Index_byte "/" seg rest Hseg).
  replace (Z.of_nat (String.length seg) =? -1) with false
    by (symmetry; apply Z.eqb_neq; lia).
  rewrite Nat2Z.id.
  destruct (slice_before_slash x seg rest) as [z ->].
  rewrite len_two. cbn [slice_from].
  change (Index (String "/" rest) "/") with 0. reflexivity.
Qed.

(** A raw path of more than one byte without a slash after its first
    byte stops the request with an InternalError (500). *)
Lemma shortenRawPath_without_slash (c t : string) (x y : ascii) :
  has_byte "/" (String y t) = false ->
  exists st, shortenRawPath 2 c (String x (String y t)) = inl st
             /\ Status_Code st = 500.
Proof.
  intros H. cbn [Handler.shortenRawPath]. rewrite len_two. cbn [slice_from].
  rewrite (Index_absent "/" _ H). cbn [Z.eqb].
  eexists. split; reflexivity.
Qed.

(** The raw path of a [/clusters/<c>/<rest>] request after the loop: the
    first round cuts one byte before the slash it found, and the second
    round then finds that slash at once and cuts nothing. *)
Lemma shortenRawPath_clusters (c c' rest : string) :
  shortenRawPath 2 c ("/clusters/" +:+ c' +:+ "/" +:+ rest)
  = inr ("s/" +:+ c' +:+ "/" +:+ rest).
Proof.
  exact (shortenRawPath_keeps_a_byte c "clusters" (c' +:+ "/" +:+ rest) "/" eq_refl).
Qed.

(** The cluster name and the path of a [/clusters/<c>/<rest>] request. *)
Lemma clusterNameOf_clusters (req : Request) (c rest : string) :
  URL_Path (Req_URL req) = "/clusters/" +:+ c +:+ "/" +:+ rest ->
  has_byte "/" c = false ->
  clusterNameOf req =
  match shortenRawPath 2 c (URL_RawPath (Req_URL req)) with
  | inl st => inl st
  | inr rawPath => inr (c, with_url req (mkURL ("/" +:+ rest) rawPath))
  end.
Proof.
  intros Hpath Hc. unfold Handler.clusterNameOf. rewrite Hpath.
  rewrite HasPrefix_append, TrimPrefix_append.
  change (c +:+ "/" +:+ rest) with (c +:+ String "/" rest).
  rewrite (Index_byte "/" c rest Hc).
  replace (Z.of_nat (String.length c) =? -1) with false
    by (symmetry; apply Z.eqb_neq; lia).
  rewrite Nat2Z.id, slice_to_append, slice_from_append. reflexivity.
Qed.

(** [WithClusterScope] on a [/clusters/<c>/<rest>] request with a valid
    cluster name: unless the loop over the raw path fails, the wrapped
    handler gets the path [/<rest>] and the cluster [c]. *)
Lemma WithClusterScope_clusters (req : Request) (c rest rawPath : string) :
  URL_Path (Req_URL req) = "/clusters/" +:+ c +:+ "/" +:+ rest ->
  Regexp.MatchString reClusterName c = true ->
  shortenRawPath 2 c (URL_RawPath (Req_URL req)) = inr rawPath ->
  WithClusterScope req =
  Next (mkRequest (mkURL ("/" +:+ rest) rawPath) (RequestURI req) (Header req)
          (WithCluster (Req_Context req)
             (mkCluster c false (isPartialMetadataRequest (Req_Context req))))).
Proof.
  intros Hpath Hc Hraw.
  unfold Handler.WithClusterScope.
  rewrite (clusterNameOf_clusters req c rest Hpath (reClusterName_no_slash c Hc)), Hraw.
  rewrite (reClusterName_not_wildcard c Hc), (reClusterName_not_empty c Hc), Hc.
  reflexivity.
Qed.

(** C10: a path that starts with [/clusters/] and has no slash after
    that prefix gets a BadRequest (400) status, and the wrapped handler is
    not called. *)
Theorem clusters_without_slash_is_bad_request (req : Request) (c : string) :
  URL_Path (Req_URL req) = "/clusters/" +:+ c ->
  has_byte "/" c = false ->
  exists st,
    WithClusterScope req = Respond st
    /\ Status_Code st = 400
    /\ Status_Reason st = "BadRequest".
Proof.
  intros Hpath Hc.
  unfold Handler.WithClusterScope, Handler.clusterNameOf.
  rewrite Hpath, HasPrefix_append, TrimPrefix_append, (Index_absent "/" c Hc).
  cbn. eexists. repeat split.
Qed.

End ClusterScope.

(** C1 (the raw path): on [/clusters/root/apis/foo/v1/widgets/a%2Fb] the
    wrapped handler gets the path [/apis/foo/v1/widgets/a/b] and the
    cluster [root], but the raw path [s/root/apis/foo/v1/widgets/a%2Fb]:
    the two leading segments are not removed from it, one byte of the first
    is. *)
Theorem cluster_scope_leaves_raw_path_unaligned :
  WithClusterScope Fixtures.quote Fixtures.noPartialMetadata Fixtures.LocalAdminCluster
                   Fixtures.encodedSlashRequest
  = Next (mkRequest
            (mkURL "/apis/foo/v1/widgets/a/b" "s/root/apis/foo/v1/widgets/a%2Fb")
            "/clusters/root/apis/foo/v1/widgets/a/b" ∅
            (mkContext None None (Some (mkCluster "root" false false)) None None)).
Proof. vm_compute. reflexivity. Qed.

Section ClusterScopeRawPath.

Variable quote : string -> string.
Variable isPartialMetadataRequest : Context -> bool.
Variable LocalAdminCluster : string.

(** The same for every request of the form [/clusters/<c>/<rest>] that
    has a raw path of that form: the path and the cluster are as the
    specification says, the raw path keeps [s/<c>] in front. *)
Lemma WithClusterScope_raw_path (req : Request) (c rest c' rest' : string) :
  URL_Path (Req_URL req) = "/clusters/" +:+ c +:+ "/" +:+ rest ->
  URL_RawPath (Req_URL req) = "/clusters/" +:+ c' +:+ "/" +:+ rest' ->
  Regexp.MatchString reClusterName c = true ->
  WithClusterScope quote isPartialMetadataRequest LocalAdminCluster req =
  Next (mkRequest (mkURL ("/" +:+ rest) ("s/" +:+ c' +:+ "/" +:+ rest'))
          (RequestURI req) (Header req)
          (WithCluster (Req_Context req)
             (mkCluster c false (isPartialMetadataRequest (Req_Context req))))).
Proof.
  intros Hpath Hraw Hc.
  apply WithClusterScope_clusters; [assumption | assumption |].
  rewrite Hraw. apply shortenRawPath_clusters.
Qed.

(** Without a raw path the request is scoped as specified. *)
Lemma WithClusterScope_no_raw_path (req : Request) (c rest : string) :
  URL_Path (Req_URL req) = "/clusters/" +:+ c +:+ "/" +:+ rest ->
  URL_RawPath (Req_URL req) = "" ->
  Regexp.MatchString reClusterName c = true ->
  WithClusterScope quote isPartialMetadataRequest LocalAdminCluster req =
  Next (mkRequest (mkURL ("/" +:+ rest) "") (RequestURI req) (Header req)
          (WithCluster (Req_Context req)
             (mkCluster c false (isPartialMetadataRequest (Req_Context req))))).
Proof.
  intros Hpath Hraw Hc.
  apply WithClusterScope_clusters; [assumption | assumption |].
  rewrite Hraw. reflexivity.
Qed.

End ClusterScopeRawPath.

(** Scenario S1. *)
Example scenario_S1 :
  WithClusterScope Fixtures.quote Fixtures.noPartialMetadata Fixtures.LocalAdminCluster
                   (Fixtures.request "/clusters/root:org:foo/api/v1/namespaces" "")
  = Next (mkRequest (mkURL "/api/v1/namespaces" "")
            "/clusters/root:org:foo/api/v1/namespaces" ∅
            (mkContext None None (Some (mkCluster "root:org:foo" false false)) None None)).
Proof. vm_compute. reflexivity. Qed.

(** [/clusters/root] is such a path. *)
Lemma clusters_without_slash_witness :
  exists st,
    WithClusterScope Fixtures.quote Fixtures.noPartialMetadata Fixtures.LocalAdminCluster
                     Fixtures.bareClusterRequest = Respond st
    /\ Status_Code st = 400
    /\ Status_Reason st = "BadRequest".
Proof.
  apply (clusters_without_slash_is_bad_request
           Fixtures.quote Fixtures.noPartialMetadata Fixtures.LocalAdminCluster
           Fixtures.bareClusterRequest "root"); reflexivity.
Defined.

Section WildcardGuard.

Variable MethodNotSupportedMessage : string -> string -> string.

(** C6: in the wildcard cluster a resource request whose verb is neither
    list nor watch gets a MethodNotSupported (405) status whose message
    contains the wildcard remark, and is not handed on. *)
Theorem wildcard_guard_rejects_other_verbs
    (req : Request) (cluster : Cluster) (requestInfo : RequestInfo) :
  ctx_cluster (Req_Context req) = Some cluster ->
  Cluster_Wildcard cluster = true ->
  ctx_requestInfo (Req_Context req) = Some requestInfo ->
  IsResourceRequest requestInfo = true ->
  Verb requestInfo <> "list" ->
  Verb requestInfo <> "watch" ->
  exists st,
    WithWildcardListWatchGuard MethodNotSupportedMessage req = Respond st
    /\ Status_Code st = 405
    /\ Status_Reason st = "MethodNotAllowed"
    /\ Contains (Status_Message st) " in the `*` logical cluster".
Proof.
  intros Hc Hw Hri Hres Hlist Hwatch.
  unfold WithWildcardListWatchGuard. rewrite Hc, Hw, Hri, Hres.
  assert (Hverb : list_or_watch (Verb requestInfo) = false).
  { unfold list_or_watch. apply bool_decide_eq_false.
    rewrite elem_of_union, !elem_of_singleton. intros [E|E]; contradiction. }
  rewrite Hverb. cbn [andb negb].
  eexists. split; [reflexivity|]. cbn. repeat split.
  apply Contains_suffix.
Qed.

(** The verbs list and watch pass the guard. *)
Lemma wildcard_guard_forwards_list_watch
    (req : Request) (cluster : Cluster) (requestInfo : RequestInfo) :
  ctx_cluster (Req_Context req) = Some cluster ->
  ctx_requestInfo (Req_Context req) = Some requestInfo ->
  Verb requestInfo = "list" \/ Verb requestInfo = "watch" ->
  WithWildcardListWatchGuard MethodNotSupportedMessage req = Next req.
Proof.
  intros Hc Hri Hverb.
  unfold WithWildcardListWatchGuard. rewrite Hc, Hri.
  destruct (Cluster_Wildcard cluster); [|reflexivity].
  destruct Hverb as [-> | ->]; now rewrite andb_false_r.
Qed.

End WildcardGuard.

(** Scenario S2 is such a request. *)
Lemma wildcard_guard_witness :
  exists st,
    WithWildcardListWatchGuard Fixtures.MethodNotSupportedMessage Fixtures.getPods
    = Respond st
    /\ Status_Code st = 405
    /\ Status_Reason st = "MethodNotAllowed"
    /\ Contains (Status_Message st) " in the `*` logical cluster".
Proof.
  apply (wildcard_guard_rejects_other_verbs Fixtures.MethodNotSupportedMessage
           Fixtures.getPods Fixtures.wildcardCluster
           (mkRequestInfo true "get" "" "v1" "pods"));
    first [reflexivity | discriminate].
Defined.

Section WildcardIdentity.

Variable quote : string -> string.

(** A text found at the start of a string is its first occurrence. *)
Lemma index_of_here (s sub : string) : HasPrefix s sub = true -> index_of s sub = Some O.
Proof. intros H. destruct s; cbn [index_of]; now rewrite H. Qed.

(** With no colon before it, [<resource>:<identity>] is found where it
    stands: an occurrence of the text has its colon at a colon. *)
Lemma index_of_qualified (pre resource identity post : string) :
  has_byte ":" pre = false ->
  has_byte ":" resource = false ->
  index_of (pre +:+ (resource +:+ ":" +:+ identity) +:+ post)
           (resource +:+ ":" +:+ identity)
  = Some (String.length pre).
Proof.
  intros Hpre Hres. induction pre as [|x pre IH].
  - apply index_of_here.
    exact (HasPrefix_append (resource +:+ ":" +:+ identity) post).
  - cbn [has_byte] in Hpre. apply orb_false_iff in Hpre as [Hx Hpre].
    rewrite append_cons, index_of_cons.
    destruct (HasPrefix _ _) eqn:E.
    + exfalso. apply HasPrefix_inv in E as [t E].
      assert (H1 : index_of (String x (pre +:+ (resource +:+ ":" +:+ identity) +:+ post)) ":"
                   = Some (String.length (String x pre +:+ resource))).
      { replace (String x (pre +:+ (resource +:+ ":" +:+ identity) +:+ post))
          with ((String x pre +:+ resource) +:+ String ":" (identity +:+ post)).
        - apply index_of_byte. rewrite has_byte_append. cbn [has_byte].
          now rewrite Hx, Hpre, Hres.
        - rewrite !append_cons, !append_assoc. reflexivity. }
      rewrite E in H1.
      replace ((resource +:+ ":" +:+ identity) +:+ t)
        with (resource +:+ String ":" (identity +:+ t)) in H1
        by (rewrite !append_assoc; reflexivity).
      rewrite (index_of_byte ":" resource _ Hres) in H1.
      injection H1 as H1. rewrite length_append in H1. cbn [String.length] in H1. lia.
    + rewrite (IH Hpre). reflexivity.
Qed.


(** A request outside the wildcard cluster, and a resource without a
    colon, pass unchanged. *)
Lemma wildcard_identity_unqualified
    (req : Request) (cluster : Cluster) (requestInfo : RequestInfo) :
  ctx_cluster (Req_Context req) = Some cluster ->
  ctx_requestInfo (Req_Context req) = Some requestInfo ->
  Cluster_Wildcard cluster = false \/ has_byte ":" (Resource requestInfo) = false ->
  WithWildcardIdentity quote req = Next req.
Proof.
  intros Hc Hri H. unfold WithWildcardIdentity, processResourceIdentity.
  rewrite Hc, Hri. destruct (Cluster_Wildcard cluster); [|reflexivity].
  destruct H as [H|H]; [discriminate|]. cbn [negb].
  rewrite (Index_absent ":" _ H).
  now destruct (IsResourceRequest requestInfo).
Qed.

End WildcardIdentity.



(** Scenario S3, and the request with an empty identity. *)
Example scenario_S3 :
  WithWildcardIdentity Fixtures.quote Fixtures.listWidgets
  = Next (mkRequest (mkURL "/apis/foo/v1/widgets" "") "/apis/foo/v1/widgets:idabc123" ∅
            (mkContext None None (Some Fixtures.wildcardCluster)
               (Some (mkRequestInfo true "list" "foo" "v1" "widgets"))
               (Some "idabc123")))
  /\ exists message,
      WithWildcardIdentity Fixtures.quote Fixtures.listWidgetsNoIdentity
      = Respond (mkStatus 500 "InternalError" message).
Proof. split; [vm_compute; reflexivity | eexists; vm_compute; reflexivity]. Qed.

(** Scenario S2. *)
Example scenario_S2 :
  WithWildcardListWatchGuard Fixtures.MethodNotSupportedMessage Fixtures.getPods
  = Respond (mkStatus 405 "MethodNotAllowed"
               (Fixtures.MethodNotSupportedMessage "pods" "get"
                +:+ " in the `*` logical cluster")).
Proof. vm_compute. reflexivity. Qed.

(** The cluster name claimed by a token: the bound claim
    [kubernetes.io.clusterName] when it is a string, otherwise the legacy
    claim [kubernetes.io/serviceaccount/clusterName]. *)
Lemma claimedClusterName_bound
    (claims m : gmap string Unstructured.value) (name : string) :
  claims !! "kubernetes.io" = Some (Unstructured.VMap m) ->
  m !! "clusterName" = Some (Unstructured.VString name) ->
  claimedClusterName claims = Some name.
Proof.
  intros H1 H2. unfold claimedClusterName, Unstructured.NestedString.
  cbn [Unstructured.NestedField]. now rewrite H1, H2.
Qed.

Lemma claimedClusterName_legacy
    (claims : gmap string Unstructured.value) (name : string) :
  claims !! "kubernetes.io" = None ->
  claims !! "kubernetes.io/serviceaccount/clusterName" = Some (Unstructured.VString name) ->
  claimedClusterName claims = Some name.
Proof.
  intros H1 H2. unfold claimedClusterName, Unstructured.NestedString.
  cbn [Unstructured.NestedField]. now rewrite H1, H2.
Qed.

Lemma claimedClusterName_absent (claims : gmap string Unstructured.value) :
  claims !! "kubernetes.io" = None ->
  claims !! "kubernetes.io/serviceaccount/clusterName" = None ->
  claimedClusterName claims = None.
Proof.
  intros H1 H2. unfold claimedClusterName, Unstructured.NestedString.
  cbn [Unstructured.NestedField]. now rewrite H1, H2.
Qed.

Section ServiceAccountRewrite.

Variable JSONWebToken : Type.
Variable ParseSigned : string -> option JSONWebToken.
Variable UnsafeClaimsWithoutVerification :
  JSONWebToken -> option (gmap string Unstructured.value).

Local Abbreviation Rewrite :=
  (WithInClusterServiceAccountRequestRewrite
     JSONWebToken ParseSigned UnsafeClaimsWithoutVerification).

(** A request that names its cluster in a header, or is marked as sharded,
    or whose request URI starts with [/clusters/], is handed on as it is. *)
Lemma rewrite_skips_scoped_requests (req : Request) :
  Header_Get (Header req) ClusterHeader <> ""
  \/ Header_Get (Header req) "X-Kubernetes-Sharded-Request" <> ""
  \/ HasPrefix (RequestURI req) "/clusters/" = true ->
  Rewrite req = Next req.
Proof.
  intros H. unfold WithInClusterServiceAccountRequestRewrite.
  destruct (String.eqb_spec (Header_Get (Header req) ClusterHeader) "") as [E1|E1];
    [|reflexivity].
  destruct (String.eqb_spec (Header_Get (Header req) "X-Kubernetes-Sharded-Request") "")
    as [E2|E2]; [|reflexivity].
  cbn [negb orb].
  destruct H as [H|[H|H]]; [contradiction | contradiction |].
  now rewrite H.
Qed.

(** C8, as the code has it: for a request with no cluster header, no
    sharded-request header and a request URI outside [/clusters/], a bearer
    token whose claims name a cluster makes the handler hand on the request
    with [path.Join("/clusters", name, ...)] as its path and as its request
    URI, which is [/clusters/<name>] put in front when the name is one
    plain path element and the old value is a clean rooted path; when the
    token is no bearer token, does not parse, has no claims or names no
    cluster, the request is handed on as it is. *)
Theorem service_account_rewrite (req : Request) :
  Header_Get (Header req) ClusterHeader = "" ->
  Header_Get (Header req) "X-Kubernetes-Sharded-Request" = "" ->
  HasPrefix (RequestURI req) "/clusters/" = false ->
  (HasPrefix (Header_Get (Header req) "Authorization") "Bearer " = false ->
   Rewrite req = Next req)
  /\ forall token,
      Header_Get (Header req) "Authorization" = "Bearer " +:+ token ->
      (forall jwt claims clusterName,
          ParseSigned token = Some jwt ->
          UnsafeClaimsWithoutVerification jwt = Some claims ->
          claimedClusterName claims = Some clusterName ->
          Rewrite req
          = Next (mkRequest
                    (mkURL (GoPath.Join ("/clusters" :: clusterName
                                           :: URL_Path (Req_URL req) :: nil))
                           (URL_RawPath (Req_URL req)))
                    (GoPath.Join ("/clusters" :: clusterName :: RequestURI req :: nil))
                    (Header req) (Req_Context req))
          /\ (GoPath.plain_elem clusterName = true ->
              (forall es, URL_Path (Req_URL req) = GoPath.rooted_path es ->
                          Forall (fun e => GoPath.plain_elem e = true) es ->
                          GoPath.Join ("/clusters" :: clusterName
                                         :: URL_Path (Req_URL req) :: nil)
                          = "/clusters/" +:+ clusterName +:+ URL_Path (Req_URL req))
              /\ (forall es, RequestURI req = GoPath.rooted_path es ->
                             Forall (fun e => GoPath.plain_elem e = true) es ->
                             GoPath.Join ("/clusters" :: clusterName
                                            :: RequestURI req :: nil)
                             = "/clusters/" +:+ clusterName +:+ RequestURI req)))
      /\ (ParseSigned token = None -> Rewrite req = Next req)
      /\ (forall jwt,
             ParseSigned token = Some jwt ->
             UnsafeClaimsWithoutVerification jwt = None ->
             Rewrite req = Next req)
      /\ (forall jwt claims,
             ParseSigned token = Some jwt ->
             UnsafeClaimsWithoutVerification jwt = Some claims ->
             claimedClusterName claims = None ->
             Rewrite req = Next req).
Proof.
  intros Hcluster Hsharded Huri.
  unfold WithInClusterServiceAccountRequestRewrite.
  rewrite Hcluster, Hsharded, Huri. cbn [String.eqb negb orb].
  split.
  - intros Hbearer. now rewrite Hbearer.
  - intros token Hauth. rewrite Hauth, HasPrefix_append. cbn [negb].
    change (String.length "Bearer ") with (String.length ("Bearer " : string)).
    rewrite slice_from_append.
    repeat split.
    + match goal with
      | Hp : ParseSigned token = Some _,
        Hc : UnsafeClaimsWithoutVerification _ = Some _,
        Hn : claimedClusterName _ = Some _ |- _ => now rewrite Hp, Hc, Hn
      end.
    + intros es Hpath Hes. rewrite Hpath. now apply GoPathFacts.Join_clusters.
    + intros es Hpath Hes. rewrite Hpath. now apply GoPathFacts.Join_clusters.
    + intros H. now rewrite H.
    + intros jwt H1 H2. now rewrite H1, H2.
    + intros jwt claims H1 H2 H3. now rewrite H1, H2, H3.
Qed.

End ServiceAccountRewrite.

(** C8 as stated fails on a request that carries the sharded-request
    header: it has no cluster header, no [/clusters/] prefix and a bearer
    token whose claims name the cluster [root:org], and it is handed on with
    its path and its request URI unchanged. *)
Lemma sharded_request_is_not_rewritten :
  Header_Get (Header Fixtures.shardedRequest) ClusterHeader = ""
  /\ HasPrefix (URL_Path (Req_URL Fixtures.shardedRequest)) "/clusters/" = false
  /\ HasPrefix (RequestURI Fixtures.shardedRequest) "/clusters/" = false
  /\ Header_Get (Header Fixtures.shardedRequest) "Authorization" = "Bearer token"
  /\ Fixtures.ParseSigned "token" = Some Fixtures.claims
  /\ Fixtures.UnsafeClaimsWithoutVerification Fixtures.claims = Some Fixtures.claims
  /\ Fixtures.claims !! "kubernetes.io"
     = Some (Unstructured.VMap {[ "clusterName" := Unstructured.VString "root:org" ]})
  /\ WithInClusterServiceAccountRequestRewrite _ Fixtures.ParseSigned
       Fixtures.UnsafeClaimsWithoutVerification Fixtures.shardedRequest
     = Next Fixtures.shardedRequest
  /\ URL_Path (Req_URL Fixtures.shardedRequest) = "/api/v1/pods"
  /\ RequestURI Fixtures.shardedRequest = "/api/v1/pods".
Proof. repeat split; vm_compute; reflexivity. Qed.

(** A service-account request for [/api/v1/pods] is rewritten. *)
Lemma service_account_rewrite_witness :
  WithInClusterServiceAccountRequestRewrite _ Fixtures.ParseSigned
    Fixtures.UnsafeClaimsWithoutVerification Fixtures.serviceAccountRequest
  = Next (mkRequest (mkURL "/clusters/root:org/api/v1/pods" "")
            "/clusters/root:org/api/v1/pods"
            (Header Fixtures.serviceAccountRequest) Fixtures.emptyContext).
Proof.
  destruct (service_account_rewrite _ Fixtures.ParseSigned
              Fixtures.UnsafeClaimsWithoutVerification Fixtures.serviceAccountRequest
              eq_refl eq_refl eq_refl) as [_ H].
  destruct (H "token" eq_refl) as [Hrewritten _].
  destruct (Hrewritten Fixtures.claims Fixtures.claims "root:org" eq_refl eq_refl eq_refl)
    as [-> _].
  reflexivity.
Defined.

Example legacy_claim_is_used :
  claimedClusterName
    {[ "kubernetes.io/serviceaccount/clusterName" := Unstructured.VString "root:legacy" ]}
  = Some "root:legacy"
  /\ claimedClusterName
       {[ "kubernetes.io" := Unstructured.VString "no object";
          "kubernetes.io/serviceaccount/clusterName" := Unstructured.VString "root:legacy" ]}
     = Some "root:legacy"
  /\ claimedClusterName {[ "iss" := Unstructured.VString "kubernetes/serviceaccount" ]}
     = None.
Proof. repeat split; vm_compute; reflexivity. Qed.

(** [path.Join] cleans what it joins: a trailing slash is lost, and a
    doubled slash in a query is halved. *)
Example rewrite_cleans_the_path :
  GoPath.Join ("/clusters" :: "root:org" :: "/api/v1/pods/" :: nil)
  = "/clusters/root:org/api/v1/pods"
  /\ GoPath.Join ("/clusters" :: "root:org" :: "/api/v1/pods?continue=a//b" :: nil)
     = "/clusters/root:org/api/v1/pods?continue=a/b".
Proof. split; vm_compute; reflexivity. Qed.

End HandlerFacts.

(** *** The order of strings *)

Module StringOrder.

Lemma ltb_leb (a b : string) : String.ltb a b = true -> String.leb a b = true.
Proof. unfold String.ltb, String.leb. now destruct (String.compare a b). Qed.

Lemma ltb_false_leb (a b : string) : String.ltb a b = false -> String.leb b a = true.
Proof.
  unfold String.ltb, String.leb. rewrite (String.compare_antisym a b).
  now destruct (String.compare b a).
Qed.

Lemma ltb_irrefl (a : string) : String.ltb a a = false.
Proof.
  unfold String.ltb. pose proof (String.compare_antisym a a) as H.
  now destruct (String.compare a a).
Qed.

Lemma ltb_neq (a b : string) : String.ltb a b = true -> a <> b.
Proof. intros H ->. now rewrite ltb_irrefl in H. Qed.

Lemma leb_trans (a b c : string) :
  String.leb a b = true -> String.leb b c = true -> String.leb a c = true.
Proof.
  unfold String.leb. intros Hab Hbc.
  destruct (String.compare a b) eqn:Eab; [| |discriminate].
  - apply String.compare_eq_iff in Eab. now subst b.
  - destruct (String.compare b c) eqn:Ebc; [| |discriminate].
    + apply String.compare_eq_iff in Ebc. subst c. now rewrite Eab.
    + apply String_as_OT.cmp_lt in Eab, Ebc.
      pose proof (String_as_OT.lt_trans _ _ _ Eab Ebc) as Hac.
      apply String_as_OT.cmp_lt in Hac. unfold String_as_OT.cmp in Hac.
      now rewrite Hac.
Qed.

End StringOrder.

(** *** [sort.SliceStable] sorts, keeps every element, and is stable *)

Module GoSortFacts.
Import GoSort.

Section ByKey.

Variable A : Type.
Variable key : A -> string.

Local Abbreviation less := (lessBy key).
Local Abbreviation ordered := (orderedBy key).

Lemma insert_back_perm (x : A) (sorted : list A) :
  Permutation (insert_back less x sorted) (x :: sorted).
Proof.
  induction sorted as [|y rest IH]; cbn [insert_back]; [reflexivity|].
  destruct (less x y); [|reflexivity].
  rewrite IH. apply perm_swap.
Qed.

Lemma fold_insert_perm (data acc : list A) :
  Permutation (fold_left (fun sorted x => insert_back less x sorted) data acc)
              (data ++ acc).
Proof.
  revert acc; induction data as [|x data IH]; intros acc; cbn [fold_left app].
  - reflexivity.
  - rewrite IH, insert_back_perm. symmetry. apply Permutation_middle.
Qed.

(** Every element is kept, as often as it occurs. *)
Lemma SliceStable_perm (data : list A) : Permutation (SliceStable less data) data.
Proof.
  unfold SliceStable. rewrite <- Permutation_rev, fold_insert_perm.
  now rewrite app_nil_r.
Qed.

Lemma insert_back_sorted (x : A) (sorted : list A) :
  StronglySorted (fun a b => ordered b a) sorted ->
  StronglySorted (fun a b => ordered b a) (insert_back less x sorted).
Proof.
  induction 1 as [|y rest Hrest IH Hy]; cbn [insert_back].
  - repeat constructor.
  - destruct (less x y) eqn:E.
    + constructor; [exact IH|].
      rewrite (insert_back_perm x rest). constructor; [|exact Hy].
      now apply StringOrder.ltb_leb.
    + apply StringOrder.ltb_false_leb in E.
      constructor; [now constructor|].
      constructor; [exact E|].
      eapply Forall_impl; [exact Hy|]. intros z Hz.
      unfold orderedBy in *. eapply StringOrder.leb_trans; eassumption.
Qed.

Lemma fold_insert_sorted (data acc : list A) :
  StronglySorted (fun a b => ordered b a) acc ->
  StronglySorted (fun a b => ordered b a)
                 (fold_left (fun sorted x => insert_back less x sorted) data acc).
Proof.
  revert acc; induction data as [|x data IH]; intros acc Hacc; cbn [fold_left].
  - exact Hacc.
  - apply IH. now apply insert_back_sorted.
Qed.

Lemma StronglySorted_rev (R : A -> A -> Prop) (l : list A) :
  StronglySorted (fun a b => R b a) l -> StronglySorted R (rev l).
Proof.
  induction 1 as [|x l Hl IH Hx]; cbn [rev]; [constructor|].
  apply StronglySorted_app_2; [|exact IH|repeat constructor].
  intros a b Ha Hb. apply list_elem_of_In in Ha, Hb.
  destruct Hb as [<-|[]]. apply in_rev in Ha.
  rewrite Forall_forall in Hx. apply Hx. now apply list_elem_of_In.
Qed.

(** The result is in non-decreasing order of the keys. *)
Lemma SliceStable_sorted (data : list A) :
  StronglySorted ordered (SliceStable less data).
Proof.
  unfold SliceStable. apply StronglySorted_rev, fold_insert_sorted. constructor.
Qed.

(** Elements with one key stay in the order they came in. *)
Lemma insert_back_stable (k : string) (x : A) (sorted : list A) :
  List.filter (fun a => String.eqb (key a) k) (rev (insert_back less x sorted))
  = List.filter (fun a => String.eqb (key a) k) (rev sorted ++ x :: nil).
Proof.
  induction sorted as [|y rest IH]; cbn [insert_back]; [reflexivity|].
  destruct (less x y) eqn:E; [|reflexivity].
  cbn [rev]. rewrite !List.filter_app, IH, List.filter_app, <- !app_assoc. f_equal.
  apply StringOrder.ltb_neq in E. cbn [List.filter].
  destruct (String.eqb_spec (key x) k), (String.eqb_spec (key y) k);
    try reflexivity.
  congruence.
Qed.

Lemma fold_insert_stable (k : string) (data acc : list A) :
  List.filter (fun a => String.eqb (key a) k)
              (rev (fold_left (fun sorted x => insert_back less x sorted) data acc))
  = List.filter (fun a => String.eqb (key a) k) (rev acc ++ data).
Proof.
  revert acc; induction data as [|x data IH]; intros acc; cbn [fold_left].
  - now rewrite app_nil_r.
  - rewrite IH, !List.filter_app, insert_back_stable, List.filter_app, <- app_assoc.
    f_equal. change (x :: data) with ((x :: nil) ++ data).
    now rewrite List.filter_app.
Qed.

Lemma SliceStable_stable (k : string) (data : list A) :
  List.filter (fun a => String.eqb (key a) k) (SliceStable less data)
  = List.filter (fun a => String.eqb (key a) k) data.
Proof. unfold SliceStable. now rewrite fold_insert_stable. Qed.

(** Sorting neither makes nor removes a repeated key. *)
Lemma SliceStable_NoDup (data : list A) :
  NoDup (map key (SliceStable less data)) <-> NoDup (map key data).
Proof.
  pose proof (Permutation_map key (SliceStable_perm data)) as H.
  split; intros Hnd.
  - now rewrite <- H.
  - now rewrite H.
Qed.

End ByKey.

End GoSortFacts.

(** *** The core-group discovery merge *)

Module DiscoveryFacts.
Import HTTP Discovery.

(** The in-memory writer answers 200 when the handler writes a body
    without setting a status first, and keeps the status set before. *)
Lemma Write_defaults_to_200 (bytes : string) :
  respCode (Write newInMemoryResponseWriter bytes) = 200.
Proof. reflexivity. Qed.

Lemma Write_keeps_status (code : Z) (bytes : string) :
  respCode (Write (WriteHeader newInMemoryResponseWriter code) bytes) = code.
Proof. reflexivity. Qed.

Section Merge.

Variable CustomResourceDefinition : Type.
Variable APIResourcesForGroupVersion :
  string -> string -> list CustomResourceDefinition -> list APIResource.
Variable Decode : string -> decoded.

Local Abbreviation merge :=
  (mergeCRDsIntoCoreGroup CustomResourceDefinition APIResourcesForGroupVersion Decode).

(** C2, as the code has it: a core-group discovery request for [/api/v1]
    without the passthrough header, when the CRDs are listed, the native
    handler answers 200 and its body decodes, is served a list that holds
    every native v1 resource and every CRD-derived v1 resource, each as
    often as it occurs in the two lists, in non-decreasing order of the
    resource names, resources of one name in the order they had (native
    before CRD-derived). No entry is dropped: the served list has two
    entries of one name exactly when the two lists together have. *)
Theorem discovery_is_sorted_concatenation
    (req : Request) (requestInfo : RequestInfo)
    (crds : list CustomResourceDefinition) (crdGet : string -> bool)
    (coreHandler : Request -> list write_op) (v1ResourceList : APIResourceList) :
  ctx_requestInfo (Req_Context req) = Some requestInfo ->
  APIGroup requestInfo = "" ->
  IsResourceRequest requestInfo = false ->
  URL_Path (Req_URL req) = "/api/v1" \/ URL_Path (Req_URL req) = "/api/v1/" ->
  Header req !! Handler.passthroughHeader = None ->
  respCode (capture coreHandler (passthroughRequest req)) = 200 ->
  Decode (data (capture coreHandler (passthroughRequest req)))
  = DecodedList v1ResourceList ->
  exists served,
    merge (inr crds) crdGet coreHandler req = ServeDiscovery (ServeVersion served)
    /\ Permutation served
         (APIResources v1ResourceList ++ APIResourcesForGroupVersion "" "v1" crds)
    /\ StronglySorted nameOrdered served
    /\ (forall name,
           List.filter (fun r => String.eqb (APIResource_Name r) name) served
           = List.filter (fun r => String.eqb (APIResource_Name r) name)
               (APIResources v1ResourceList ++ APIResourcesForGroupVersion "" "v1" crds))
    /\ (NoDup (map APIResource_Name served)
        <-> NoDup (map APIResource_Name
                     (APIResources v1ResourceList
                      ++ APIResourcesForGroupVersion "" "v1" crds))).
Proof.
  intros Hri Hgroup Hres Hpath Hpass Hcode Hdecode.
  unfold mergeCRDsIntoCoreGroup. rewrite Hri, Hgroup, Hres, Hpass.
  assert (Hp : String.eqb (URL_Path (Req_URL req)) "/api/v1"
               || String.eqb (URL_Path (Req_URL req)) "/api/v1/" = true).
  { destruct Hpath as [-> | ->]; reflexivity. }
  cbn [String.eqb negb andb]. rewrite Hp.
  unfold serveCoreV1Discovery. rewrite Hcode, Hdecode. cbn [Z.eqb Pos.eqb negb StatusOK].
  eexists. split; [reflexivity|].
  split; [apply (GoSortFacts.SliceStable_perm _ APIResource_Name)|].
  split; [apply (GoSortFacts.SliceStable_sorted _ APIResource_Name)|].
  split; [intros name; apply (GoSortFacts.SliceStable_stable _ APIResource_Name)|].
  apply (GoSortFacts.SliceStable_NoDup _ APIResource_Name).
Qed.

(** With the passthrough header the request goes to the native handler. *)
Lemma passthrough_is_processed
    (req : Request) (requestInfo : RequestInfo)
    (listed : string + list CustomResourceDefinition) (crdGet : string -> bool)
    (coreHandler : Request -> list write_op) (values : list string) :
  ctx_requestInfo (Req_Context req) = Some requestInfo ->
  IsResourceRequest requestInfo = false ->
  Header req !! Handler.passthroughHeader = Some values ->
  merge listed crdGet coreHandler req = ProcessFilter.
Proof.
  intros Hri Hres Hpass. unfold mergeCRDsIntoCoreGroup. rewrite Hri, Hres, Hpass.
  destruct (negb (String.eqb (APIGroup requestInfo) "")); [reflexivity|].
  cbn [negb andb]. now destruct (_ || _).
Qed.

(** The request that the native handler gets carries the header. *)
Lemma passthroughRequest_has_header (req : Request) :
  Header req !! Handler.passthroughHeader = None ->
  Header (passthroughRequest req) !! Handler.passthroughHeader = Some ("1" :: nil).
Proof.
  intros H. unfold passthroughRequest, Header_Add. cbn [Header].
  rewrite H. apply lookup_insert_eq.
Qed.

(** A response of the native handler other than 200 is relayed. *)
Lemma native_failure_is_relayed
    (req : Request) (crds : list CustomResourceDefinition)
    (coreHandler : Request -> list write_op) :
  respCode (capture coreHandler (passthroughRequest req)) <> 200 ->
  serveCoreV1Discovery CustomResourceDefinition APIResourcesForGroupVersion Decode
    (inr crds) coreHandler req
  = Relay (respCode (capture coreHandler (passthroughRequest req)))
          (data (capture coreHandler (passthroughRequest req))).
Proof.
  intros H. unfold serveCoreV1Discovery.
  apply Z.eqb_neq in H. unfold StatusOK. now rewrite H.
Qed.

End Merge.

(** C2 as stated fails when a CRD serves a resource of a native name: the
    native [configmaps] and the CRD-derived [configmaps] are both served. *)
Lemma discovery_serves_duplicate_names :
  mergeCRDsIntoCoreGroup _ Fixtures.APIResourcesForGroupVersion Fixtures.Decode
    (inr Fixtures.crdResources) (fun _ => false) Fixtures.coreHandler
    Fixtures.discoveryRequest
  = ServeDiscovery
      (ServeVersion (Fixtures.resource "configmaps" "ConfigMap"
                       :: Fixtures.resource "configmaps" "ConfigMapCRD"
                       :: Fixtures.resource "foos" "Foo"
                       :: Fixtures.resource "namespaces" "Namespace" :: nil))
  /\ ~ NoDup (map APIResource_Name
                (Fixtures.resource "configmaps" "ConfigMap"
                   :: Fixtures.resource "configmaps" "ConfigMapCRD"
                   :: Fixtures.resource "foos" "Foo"
                   :: Fixtures.resource "namespaces" "Namespace" :: nil)).
Proof.
  split; [vm_compute; reflexivity|].
  cbn [map APIResource_Name Fixtures.resource]. intros H.
  apply NoDup_cons in H as [H _]. apply H. constructor.
Qed.

(** Scenario S4: the native resources and those of the CRDs, sorted. *)
Lemma discovery_witness :
  exists served,
    mergeCRDsIntoCoreGroup _ Fixtures.APIResourcesForGroupVersion Fixtures.Decode
      (inr Fixtures.crdResources) (fun _ => false) Fixtures.coreHandler
      Fixtures.discoveryRequest
    = ServeDiscovery (ServeVersion served)
    /\ Permutation served (Fixtures.nativeResources ++ Fixtures.crdResources)
    /\ StronglySorted nameOrdered served.
Proof.
  destruct (discovery_is_sorted_concatenation _ Fixtures.APIResourcesForGroupVersion
              Fixtures.Decode Fixtures.discoveryRequest
              (mkRequestInfo false "get" "" "v1" "") Fixtures.crdResources
              (fun _ => false) Fixtures.coreHandler
              (mkAPIResourceList "v1" Fixtures.nativeResources)
              eq_refl eq_refl eq_refl (or_introl eq_refl) eq_refl eq_refl eq_refl)
    as (served & Hserved & Hperm & Hsorted & _).
  exists served. auto.
Defined.

End DiscoveryFacts.

(** *** JSON: what is written is read back *)

Module JsonFacts.
Import GoStrings GoStringsFacts Json.

(** Induction on JSON values, with the hypothesis for every element of an
    array and every member of an object. *)
Lemma value_induction (P : value -> Prop) :
  P JNull ->
  (forall b, P (JBool b)) ->
  (forall s, P (JString s)) ->
  (forall l, Forall P l -> P (JArray l)) ->
  (forall m, Forall (fun kv => P (snd kv)) m -> P (JObject m)) ->
  forall v, P v.
Proof.
  intros Hnull Hbool Hstring Harray Hobject.
  fix IH 1. intros [| b | s | l | m].
  - exact Hnull.
  - apply Hbool.
  - apply Hstring.
  - apply Harray. induction l as [|x l IHl]; constructor; [apply IH | exact IHl].
  - apply Hobject. induction m as [|[k x] m IHm]; constructor; [apply IH | exact IHm].
Qed.

(** Texts are compared as a first byte and a rest. *)
Ltac flatten_text :=
  repeat first [ rewrite append_assoc
               | rewrite append_cons
               | progress change (EmptyString +:+ ?s) with s ].

(** Reading back one escaped byte below [0x80]. *)
Lemma string_body_escape_byte (c : ascii) (rest : string) :
  (N_of_ascii c <? 128)%N = true ->
  string_runes 0 (escape_byte c +:+ rest) = cons_to (String c "") (string_runes 0 rest).
Proof.
  destruct c as [[] [] [] [] [] [] [] []]; intros H; try discriminate H; reflexivity.
Qed.

(** A first byte from [0x80] on is no quote, no backslash and no control
    byte. *)
Lemma string_runes_high (c : ascii) (t : string) :
  (N_of_ascii c <? 128)%N = false ->
  string_runes 0 (String c t)
  = match rune_width (String c t) with
    | O => cons_to replacement (string_runes 0 t)
    | S k => cons_to (String c "") (string_runes k t)
    end.
Proof.
  intros H. cbn [string_runes]. rewrite H.
  destruct c as [[] [] [] [] [] [] [] []]; try discriminate H; reflexivity.
Qed.

(** The width of a rune is read off the bytes that the encoder writes as
    they are. *)
Lemma rune_width_copied (c : ascii) (t rest : string) (k : nat) :
  (N_of_ascii c <? 128)%N = false ->
  rune_width (String c t) = S k ->
  rune_width (String c (escape_runes k 0 t +:+ rest)) = S k.
Proof.
  intros Hc. cbn [rune_width]. rewrite Hc.
  destruct (byte_in 194 223 c).
  { destruct t as [|c1 t]; [discriminate|].
    destruct (continuation c1) eqn:E1; [|discriminate].
    intros [= <-]. cbn [escape_runes]. rewrite append_cons. now rewrite E1. }
  destruct (byte_in 224 239 c).
  { destruct t as [|c1 [|c2 t]]; try discriminate.
    destruct (second_byte c c1 && continuation c2) eqn:E; [|discriminate].
    intros [= <-]. cbn [escape_runes]. rewrite !append_cons. now rewrite E. }
  destruct (byte_in 240 244 c); [|discriminate].
  destruct t as [|c1 [|c2 [|c3 t]]]; try discriminate.
  destruct (second_byte c c1 && continuation c2 && continuation c3) eqn:E; [|discriminate].
  intros [= <-]. cbn [escape_runes]. rewrite !append_cons. now rewrite E.
Qed.

Lemma HasPrefix_three (s : string) (a b c : ascii) :
  HasPrefix s (String a (String b (String c ""))) = true ->
  exists t, s = String a (String b (String c t)).
Proof.
  intros H. apply HasPrefix_inv in H as [t ->]. now exists t.
Qed.

(** Reading back the body of a string that is valid UTF-8, from every
    state of the encoder: at the start of a rune, within a rune that is
    written as it is, and within a rune that was written as an escape. *)
Lemma string_runes_escape (s rest : string) :
  (forall k, valid_runes k s = true ->
             string_runes k (escape_runes k 0 s +:+ String dquote rest) = Some (s, rest))
  /\ (forall d, valid_runes (S d) s = true ->
                string_runes 0 (escape_runes 0 (S d) s +:+ String dquote rest)
                = Some (slice_from (S d) s, rest)).
Proof.
  induction s as [|c t [IHk IHd]].
  - split; [intros [|k] H; [reflexivity | discriminate] | discriminate].
  - split.
    + intros [|k] H.
      * cbn [valid_runes] in H. cbn [escape_runes].
        destruct (N_of_ascii c <? 128)%N eqn:Hc.
        { cbn [rune_width] in H. rewrite Hc in H.
          rewrite append_assoc, (string_body_escape_byte c _ Hc), (IHk 0%nat H).
          reflexivity. }
        destruct (rune_width (String c t)) as [|k] eqn:Hw; [discriminate|].
        destruct (HasPrefix (String c t) line_separator) eqn:Hl.
        { apply HasPrefix_three in Hl as [t' [= -> ->]].
          injection Hw as <-.
          rewrite append_assoc.
          change (string_runes 0 (String backslash "u2028" +:+ ?x))
            with (cons_to line_separator (string_runes 0 x)).
          rewrite (IHd 1%nat H). reflexivity. }
        destruct (HasPrefix (String c t) paragraph_separator) eqn:Hp.
        { apply HasPrefix_three in Hp as [t' [= -> ->]].
          injection Hw as <-.
          rewrite append_assoc.
          change (string_runes 0 (String backslash "u2029" +:+ ?x))
            with (cons_to paragraph_separator (string_runes 0 x)).
          rewrite (IHd 1%nat H). reflexivity. }
        rewrite append_cons, (string_runes_high c _ Hc).
        rewrite (rune_width_copied c t _ k Hc Hw), (IHk k H). reflexivity.
      * cbn [valid_runes] in H. cbn [escape_runes]. rewrite append_cons.
        cbn [string_runes]. rewrite (IHk k H). reflexivity.
    + intros d H. cbn [valid_runes] in H. cbn [escape_runes slice_from].
      destruct d as [|d].
      * exact (IHk 0%nat H).
      * exact (IHd d H).
Qed.

(** Reading back an escaped string up to its closing quote. *)
Lemma string_body_escape (s rest : string) :
  ValidString s = true ->
  string_body (escape s +:+ String dquote rest) = Some (s, rest).
Proof. intros H. exact (proj1 (string_runes_escape s rest) 0%nat H). Qed.

Lemma quote_append (s rest : string) :
  quote s +:+ rest = String dquote (escape s +:+ String dquote rest).
Proof. unfold quote. rewrite append_cons, append_assoc. reflexivity. Qed.

Lemma eat_here (c : ascii) (rest : string) :
  is_blank c = false -> eat c (String c rest) = Some rest.
Proof. intros H. unfold eat. cbn [skip_blanks]. now rewrite H, Ascii.eqb_refl. Qed.

Lemma eat_other (c d : ascii) (rest : string) :
  is_blank d = false -> Ascii.eqb d c = false -> eat c (String d rest) = None.
Proof. intros H E. unfold eat. cbn [skip_blanks]. now rewrite H, E. Qed.

(** A written value starts with a byte that is no blank and closes
    nothing. *)
Lemma Marshal_head (v : value) (rest : string) :
  exists c t, Marshal v +:+ rest = String c t
              /\ is_blank c = false
              /\ Ascii.eqb c "]" = false
              /\ Ascii.eqb c "}" = false.
Proof.
  destruct v as [| [] | s | l | m]; eexists; eexists;
    (split; [reflexivity | repeat split]).
Qed.

Lemma parse_value_string (fuel : nat) (s rest : string) :
  ValidString s = true ->
  parse_value (S fuel) (quote s +:+ rest) = Some (JString s, rest).
Proof.
  intros Hs. rewrite quote_append.
  change (parse_value (S fuel) (String dquote ?t))
    with (match string_body t with
          | Some (str, r) => Some (JString str, r)
          | None => None
          end).
  now rewrite (string_body_escape s rest Hs).
Qed.

Lemma parse_value_array (fuel : nat) (t : string) :
  parse_value (S fuel) (String "[" t)
  = match eat "]" t with
    | Some rest => Some (JArray nil, rest)
    | None =>
        match parse_elements fuel t with
        | Some (l, rest) => Some (JArray l, rest)
        | None => None
        end
    end.
Proof. reflexivity. Qed.

Lemma parse_value_object (fuel : nat) (t : string) :
  parse_value (S fuel) (String "{" t)
  = match eat "}" t with
    | Some rest => Some (JObject nil, rest)
    | None =>
        match parse_members fuel t with
        | Some (m, rest) => Some (JObject m, rest)
        | None => None
        end
    end.
Proof. reflexivity. Qed.

Lemma parse_elements_S (fuel : nat) (s : string) :
  parse_elements (S fuel) s
  = match parse_value fuel s with
    | None => None
    | Some (v, rest) =>
        match eat "]" rest with
        | Some rest' => Some (v :: nil, rest')
        | None =>
            match eat "," rest with
            | Some rest' =>
                match parse_elements fuel rest' with
                | Some (l, rest'') => Some (v :: l, rest'')
                | None => None
                end
            | None => None
            end
        end
    end.
Proof. reflexivity. Qed.

Lemma parse_members_S (fuel : nat) (k t : string) :
  ValidString k = true ->
  parse_members (S fuel) (quote k +:+ String ":" t)
  = match parse_value fuel t with
    | None => None
    | Some (v, rest2) =>
        match eat "}" rest2 with
        | Some rest3 => Some ((k, v) :: nil, rest3)
        | None =>
            match eat "," rest2 with
            | Some rest3 =>
                match parse_members fuel rest3 with
                | Some (m, rest4) => Some ((k, v) :: m, rest4)
                | None => None
                end
            | None => None
            end
        end
    end.
Proof.
  intros Hk. rewrite quote_append.
  change (parse_members (S fuel) (String dquote ?b))
    with (match string_body b with
          | None => None
          | Some (k, rest) =>
              match eat ":" rest with
              | None => None
              | Some rest1 =>
                  match parse_value fuel rest1 with
                  | None => None
                  | Some (v, rest2) =>
                      match eat "}" rest2 with
                      | Some rest3 => Some ((k, v) :: nil, rest3)
                      | None =>
                          match eat "," rest2 with
                          | Some rest3 =>
                              match parse_members fuel rest3 with
                              | Some (m, rest4) => Some ((k, v) :: m, rest4)
                              | None => None
                              end
                          | None => None
                          end
                      end
                  end
              end
          end).
  rewrite (string_body_escape k _ Hk). reflexivity.
Qed.

Lemma parse_elements_Join (l : list value) (x : value) (fuel : nat) (rest : string) :
  Forall reads_back (x :: l) ->
  (elements_size (x :: l) <= fuel)%nat ->
  parse_elements fuel (Join (map Marshal (x :: l)) "," +:+ String "]" rest)
  = Some (x :: l, rest).
Proof.
  revert x fuel; induction l as [|y l IH]; intros x fuel Hall Hfuel;
    inversion Hall as [|? ? Hx Hl]; subst;
    cbn [elements_size fold_right] in Hfuel;
    (destruct fuel as [|fuel]; [lia|]); rewrite parse_elements_S.
  - cbn [map Join]. rewrite (Hx fuel _ ltac:(lia)).
    now rewrite eat_here.
  - change (Join (map Marshal (x :: y :: l)) ",")
      with (Marshal x +:+ "," +:+ Join (map Marshal (y :: l)) ",").
    flatten_text.
    rewrite (Hx fuel _ ltac:(lia)).
    rewrite eat_other, eat_here by reflexivity.
    rewrite (IH y fuel Hl) by (cbn [elements_size fold_right]; lia).
    reflexivity.
Qed.

Lemma parse_members_Join (m : list (string * value)) (kv : string * value)
    (fuel : nat) (rest : string) :
  Forall (fun kv => ValidString (fst kv) = true /\ reads_back (snd kv)) (kv :: m) ->
  (members_size (kv :: m) <= fuel)%nat ->
  parse_members fuel (Join (map member_text (kv :: m)) "," +:+ String "}" rest)
  = Some (kv :: m, rest).
Proof.
  revert kv fuel; induction m as [|kv2 m IH]; intros [k x] fuel Hall Hfuel;
    inversion Hall as [|? ? [Hk Hx] Hm]; subst;
    cbn [members_size fold_right fst snd] in Hfuel, Hk, Hx;
    (destruct fuel as [|fuel]; [lia|]).
  - cbn [map Join member_text]. flatten_text.
    rewrite (parse_members_S _ _ _ Hk), (Hx fuel _ ltac:(lia)).
    now rewrite eat_here.
  - change (Join (map member_text ((k, x) :: kv2 :: m)) ",")
      with ((quote k +:+ ":" +:+ Marshal x) +:+ ","
            +:+ Join (map member_text (kv2 :: m)) ",").
    flatten_text.
    rewrite (parse_members_S _ _ _ Hk), (Hx fuel _ ltac:(lia)).
    rewrite eat_other, eat_here by reflexivity.
    rewrite (IH kv2 fuel Hm) by (cbn [members_size fold_right]; lia).
    reflexivity.
Qed.

(** Every value whose strings are valid UTF-8 is read back from its
    text, whatever follows the text, once the fuel reaches the size of the
    value. *)
Lemma parse_value_Marshal (v : value) : valid_value v = true -> reads_back v.
Proof.
  induction v as [| b | s | l IH | m IH] using value_induction;
    intros Hv fuel rest Hfuel; (destruct fuel as [|fuel]; [cbn in Hfuel; lia|]).
  - reflexivity.
  - now destruct b.
  - now apply parse_value_string.
  - assert (Hl : Forall reads_back l).
    { cbn [valid_value] in Hv. rewrite forallb_forall in Hv.
      rewrite Forall_forall in IH |- *. intros x Hx.
      apply (IH x Hx), Hv. now apply list_elem_of_In. }
    cbn [Marshal]. flatten_text. rewrite parse_value_array.
    destruct l as [|x l].
    + cbn [map Join]. change ("" +:+ ?s) with s. now rewrite eat_here.
    + assert (Eeat : eat "]" (Join (map Marshal (x :: l)) "," +:+ String "]" rest) = None).
      { destruct l as [|y l].
        - cbn [map Join].
          destruct (Marshal_head x (String "]" rest)) as (c' & t' & -> & Hb' & Hc' & _).
          now apply eat_other.
        - change (Join (map Marshal (x :: y :: l)) ",")
            with (Marshal x +:+ "," +:+ Join (map Marshal (y :: l)) ",").
          rewrite append_assoc.
          destruct (Marshal_head x (("," +:+ Join (map Marshal (y :: l)) ",")
                                    +:+ String "]" rest))
            as (c' & t' & -> & Hb' & Hc' & _).
          now apply eat_other. }
      rewrite Eeat, (parse_elements_Join l x fuel rest Hl); [reflexivity|].
      cbn [size] in Hfuel. unfold elements_size. lia.
  - assert (Hm : Forall (fun kv => ValidString (fst kv) = true /\ reads_back (snd kv)) m).
    { cbn [valid_value] in Hv. rewrite forallb_forall in Hv.
      rewrite Forall_forall in IH |- *. intros kv Hkv.
      specialize (Hv kv ltac:(now apply list_elem_of_In)).
      apply andb_true_iff in Hv as [Hk Hx]. split; [exact Hk | now apply (IH kv Hkv)]. }
    cbn [Marshal].
    change (map (fun kv : string * value => let '(k, x) := kv in quote k +:+ ":" +:+ Marshal x) m)
      with (map member_text m).
    flatten_text. rewrite parse_value_object.
    destruct m as [|kv m].
    + cbn [map Join]. change ("" +:+ ?s) with s. now rewrite eat_here.
    + assert (Eeat : eat "}" (Join (map member_text (kv :: m)) "," +:+ String "}" rest)
                     = None).
      { destruct kv as [k x]. destruct m as [|kv2 m].
        - cbn [map Join member_text]. rewrite append_assoc, quote_append. reflexivity.
        - change (Join (map member_text ((k, x) :: kv2 :: m)) ",")
            with ((quote k +:+ ":" +:+ Marshal x) +:+ ","
                  +:+ Join (map member_text (kv2 :: m)) ",").
          rewrite !append_assoc, quote_append. reflexivity. }
      rewrite Eeat, (parse_members_Join m kv fuel rest Hm); [reflexivity|].
      cbn [size] in Hfuel. unfold members_size. lia.
Qed.

Lemma elements_length (l : list value) :
  Forall (fun v => (size v <= String.length (Marshal v))%nat) l ->
  (elements_size l <= String.length (Join (map Marshal l) ",") + 1)%nat.
Proof.
  induction 1 as [|x l Hx Hl IH]; [cbn; lia|].
  destruct l as [|y l].
  - cbn [map Join elements_size fold_right]. lia.
  - change (Join (map Marshal (x :: y :: l)) ",")
      with (Marshal x +:+ "," +:+ Join (map Marshal (y :: l)) ",").
    rewrite !length_append. unfold elements_size in *.
    cbn [fold_right String.length] in *. lia.
Qed.

Lemma members_length (m : list (string * value)) :
  Forall (fun kv => (size (snd kv) <= String.length (Marshal (snd kv)))%nat) m ->
  (members_size m <= String.length (Join (map member_text m) ",") + 1)%nat.
Proof.
  induction 1 as [|[k x] m Hx Hm IH]; [cbn; lia|].
  cbn [snd] in Hx.
  destruct m as [|kv m].
  - cbn [map Join members_size fold_right member_text snd].
    rewrite !length_append. lia.
  - change (Join (map member_text ((k, x) :: kv :: m)) ",")
      with ((quote k +:+ ":" +:+ Marshal x) +:+ ","
            +:+ Join (map member_text (kv :: m)) ",").
    rewrite !length_append. unfold members_size in *.
    cbn [fold_right String.length snd] in *. lia.
Qed.

(** The text of a value is at least as long as the value is big, so the
    fuel that [Unmarshal] takes from the text is enough. *)
Lemma Marshal_length (v : value) : (size v <= String.length (Marshal v))%nat.
Proof.
  induction v as [| b | s | l IH | m IH] using value_induction.
  - cbn. lia.
  - destruct b; cbn; lia.
  - cbn. lia.
  - pose proof (elements_length l IH) as H.
    cbn [size Marshal]. fold (elements_size l).
    rewrite !length_append. cbn [String.length]. lia.
  - pose proof (members_length m IH) as H.
    cbn [size Marshal]. fold (members_size m).
    change (map (fun kv : string * value => let '(k, x) := kv in quote k +:+ ":" +:+ Marshal x) m)
      with (map member_text m).
    rewrite !length_append. cbn [String.length]. lia.
Qed.

(** Round trip: a value whose strings are valid UTF-8 is read back from
    the text written for it. *)
Theorem Unmarshal_Marshal (v : value) :
  valid_value v = true -> Unmarshal (Marshal v) = Some v.
Proof.
  intros Hv. unfold Unmarshal.
  pose proof (parse_value_Marshal v Hv (S (String.length (Marshal v))) ""
                ltac:(pose proof (Marshal_length v); lia)) as H.
  rewrite append_empty_r in H. rewrite H. reflexivity.
Qed.

Example Unmarshal_with_blanks_and_escapes :
  Unmarshal (Fixtures.sq " { 'a' : [ ] , 'b\né' : [true , null, {}] } ")
  = Some (JObject (("a", JArray nil)
                   :: (String "b" (String "010" (String "195" (String "169" ""))),
                       JArray (JBool true :: JNull :: JObject nil :: nil)) :: nil)).
Proof. vm_compute. reflexivity. Qed.

End JsonFacts.

(** *** The ClusterWorkspace admission plugin *)

Module AdmissionFacts.
Import GoStrings GoStringsFacts Admission.

Lemma mapM_map_Some (A B : Type) (f : A -> option B) (g : B -> A) (l : list B) :
  (forall x, f (g x) = Some x) -> mapM f (map g l) = Some l.
Proof.
  intros H. induction l as [|x l IH]; [reflexivity|].
  cbn. rewrite H. cbn. rewrite IH. reflexivity.
Qed.

Lemma as_strings_json (l : list string) : as_strings (strings_json l) = Some l.
Proof. unfold as_strings, strings_json. now apply mapM_map_Some. Qed.

Lemma as_extra_members (extra : gmap string (list string)) :
  as_extra (Json.JObject (extra_members extra)) = Some extra.
Proof.
  unfold as_extra, extra_members.
  rewrite (mapM_map_Some _ _ _ (fun kv : string * list string =>
                                   (fst kv, strings_json (snd kv)))).
  - cbn [option_map]. f_equal. symmetry. apply list_to_map_flip.
    rewrite <- Permutation_rev. symmetry.
    apply (GoSortFacts.SliceStable_perm _ fst).
  - intros [k l]. cbn [fst snd]. now rewrite as_strings_json.
Qed.

(** The identity is read back from its JSON object. *)
Lemma userFromJSON_ownerJSON (u : UserInfo) : userFromJSON (ownerJSON u) = Some u.
Proof.
  destruct u as [name uid groups extra].
  unfold userFromJSON, ownerJSON, omitempty. cbn [User_Name User_UID User_Groups User_Extra].
  destruct (String.eqb_spec name ""), (String.eqb_spec uid ""),
    (bool_decide_reflect (groups = nil)), (bool_decide_reflect (extra = ∅)); subst;
    cbn [app fold_left decode_member String.eqb Ascii.eqb Bool.eqb as_string option_map
         User_Name User_UID User_Groups User_Extra];
    rewrite ?as_strings_json; cbn [option_map];
    rewrite ?as_extra_members; reflexivity.
Qed.

Lemma forallb_Permutation (A : Type) (f : A -> bool) (l l' : list A) :
  Permutation l l' -> forallb f l' = true -> forallb f l = true.
Proof.
  intros Hp. rewrite !forallb_forall. intros H x Hx.
  apply H. now apply (Permutation_in _ Hp).
Qed.

Lemma valid_strings_json (l : list string) :
  forallb Json.ValidString l = true -> Json.valid_value (strings_json l) = true.
Proof.
  unfold strings_json. cbn [Json.valid_value]. intros H.
  rewrite forallb_forall in H |- *. intros v Hv.
  apply in_map_iff in Hv as (x & <- & Hx). now apply H.
Qed.

Lemma valid_extra_members (extra : gmap string (list string)) :
  forallb (fun kv => Json.ValidString (fst kv) && forallb Json.ValidString (snd kv))
          (map_to_list extra) = true ->
  Json.valid_value (Json.JObject (extra_members extra)) = true.
Proof.
  intros H. cbn [Json.valid_value]. unfold extra_members.
  apply (forallb_Permutation _ _ _ _ (GoSortFacts.SliceStable_perm _ fst (map_to_list extra)))
    in H.
  rewrite forallb_forall in H |- *. intros kv Hkv.
  apply in_map_iff in Hkv as ([k l] & <- & Hx). specialize (H _ Hx).
  cbn [fst snd] in *. apply andb_true_iff in H as [Hk Hl].
  now rewrite Hk, (valid_strings_json l Hl).
Qed.

Lemma valid_omitempty (key : string) (v : Json.value) (empty : bool) :
  Json.ValidString key = true -> Json.valid_value v = true ->
  forallb (fun kv => Json.ValidString (fst kv) && Json.valid_value (snd kv))
          (omitempty key v empty) = true.
Proof.
  intros Hk Hv. destruct empty; [reflexivity|].
  cbn [omitempty forallb fst snd]. now rewrite Hk, Hv.
Qed.

(** The object written for a caller whose strings are valid UTF-8 holds
    valid UTF-8 only. *)
Lemma valid_ownerJSON (u : UserInfo) :
  validUTF8 u = true -> Json.valid_value (ownerJSON u) = true.
Proof.
  unfold validUTF8. intros H.
  apply andb_true_iff in H as [H He].
  apply andb_true_iff in H as [H Hg].
  apply andb_true_iff in H as [Hn Hu].
  unfold ownerJSON. cbn [Json.valid_value]. rewrite !forallb_app.
  rewrite !valid_omitempty; try reflexivity; try assumption.
  - now apply valid_extra_members.
  - now apply valid_strings_json.
Qed.

(** Round trip of the owner annotation: decoding the value stamped for a
    caller whose strings are valid UTF-8 gives the caller. *)
Lemma DecodeOwnerAnnotation_value (u : UserInfo) :
  validUTF8 u = true ->
  DecodeOwnerAnnotation (ClusterWorkspaceOwnerAnnotationValue u) = Some u.
Proof.
  intros Hu. unfold DecodeOwnerAnnotation, ClusterWorkspaceOwnerAnnotationValue.
  rewrite (JsonFacts.Unmarshal_Marshal _ (valid_ownerJSON u Hu)).
  apply userFromJSON_ownerJSON.
Qed.

Lemma omitempty_keys (key : string) (v : Json.value) (empty : bool) :
  sublist (map fst (omitempty key v empty)) (key :: nil).
Proof.
  destruct empty; cbn [omitempty map fst].
  - apply sublist_cons, sublist_nil.
  - apply sublist_skip, sublist_nil.
Qed.

(** The members of the owner object come in the canonical order. *)
Lemma ownerJSON_keys (u : UserInfo) :
  exists members, ownerJSON u = Json.JObject members
                  /\ sublist (map fst members) canonicalKeys.
Proof.
  eexists. split; [reflexivity|].
  rewrite !map_app.
  change canonicalKeys
    with (("username" :: nil) ++ ("uid" :: nil) ++ ("groups" :: nil) ++ ("extra" :: nil)).
  repeat apply sublist_app; apply omitempty_keys.
Qed.

(** The keys of the [extra] member are sorted, and they are the keys of
    the caller's extra map. *)
Lemma extra_members_sorted (extra : gmap string (list string)) :
  StronglySorted keysOrdered (map fst (extra_members extra))
  /\ Permutation (map fst (extra_members extra)) (map fst (map_to_list extra)).
Proof.
  unfold extra_members. rewrite map_map. cbn [fst].
  split.
  - apply (StronglySorted_fmap fst (GoSort.orderedBy fst)).
    + intros x y H. exact H.
    + apply (GoSortFacts.SliceStable_sorted _ fst).
  - apply Permutation_map. apply (GoSortFacts.SliceStable_perm _ fst).
Qed.

Lemma ownerJSON_extra (u : UserInfo) (members : list (string * Json.value))
    (x : Json.value) :
  ownerJSON u = Json.JObject members ->
  Json.member "extra" members = Some x ->
  x = Json.JObject (extra_members (User_Extra u)).
Proof.
  intros Hm Hx. unfold ownerJSON, omitempty in Hm. injection Hm as <-.
  destruct (String.eqb (User_Name u) ""), (String.eqb (User_UID u) ""),
    (bool_decide (User_Groups u = nil)), (bool_decide (User_Extra u = ∅));
    cbn in Hx; congruence.
Qed.




(** TestAdmit, "adds user information on create". *)
Example test_admit_adds_user_information :
  Attr_Object
    (Admit (Fixtures.createAttrWithUser
              (mkClusterWorkspace "test" ∅ Fixtures.fooType Fixtures.noStatus)
              Fixtures.someone))
  = mkClusterWorkspace "test" {[ "tenancy.kcp.dev/owner" := Fixtures.someoneJSON ]}
                       Fixtures.fooType Fixtures.noStatus.
Proof. vm_compute. reflexivity. Qed.

Example owner_annotation_of_the_empty_user :
  ClusterWorkspaceOwnerAnnotationValue Fixtures.nobody = "{}".
Proof. reflexivity. Qed.

Example owner_annotation_decodes :
  DecodeOwnerAnnotation Fixtures.someoneJSON = Some Fixtures.someone.
Proof. vm_compute. reflexivity. Qed.

(** An error among the field errors shows in the rejection. *)
Lemma Join_Contains (errs : list string) (sep m : string) :
  In m errs -> Contains (Join errs sep) m.
Proof.
  induction errs as [|e errs IH]; intros Hin; [destruct Hin|].
  destruct Hin as [<- | Hin].
  - destruct errs as [|e2 errs].
    + exists "", "". cbn [Join]. now rewrite append_empty_r.
    + exists "", (sep +:+ Join (e2 :: errs) sep). reflexivity.
  - destruct (IH Hin) as (pre & post & E).
    destruct errs as [|e2 errs]; [destruct Hin|].
    exists (e +:+ sep +:+ pre), post.
    change (Join (e :: e2 :: errs) sep) with (e +:+ sep +:+ Join (e2 :: errs) sep).
    rewrite E, !append_assoc. reflexivity.
Qed.

Lemma aggregate_Contains (errs : list string) (m : string) :
  In m errs -> Contains (aggregate errs) m.
Proof.
  intros Hin. destruct (Join_Contains errs ", " m Hin) as (pre & post & E).
  destruct errs as [|e [|e2 errs]]; [destruct Hin | |].
  - exists pre, post. exact E.
  - exists ("[" +:+ pre), (post +:+ "]"). unfold aggregate.
    rewrite E, !append_assoc. reflexivity.
Qed.

Lemma Validate_rejects (a : Attributes) (m : string) :
  In m (ValidateErrors a) ->
  exists err, Validate a = Some err /\ Contains err m.
Proof.
  intros Hin. unfold Validate.
  pose proof (aggregate_Contains _ _ Hin) as Hc.
  destruct (ValidateErrors a) as [|e errs]; [destruct Hin|].
  eexists. split; [reflexivity | exact Hc].
Qed.

Lemma Validate_accepts (a : Attributes) :
  Validate a = None <-> ValidateErrors a = nil.
Proof. unfold Validate. destruct (ValidateErrors a); split; congruence. Qed.

Lemma In_check (failed : bool) (message m : string) :
  In m (check failed message) -> failed = true /\ m = message.
Proof. destruct failed; cbn; intuition congruence. Qed.

Lemma check_nil (failed : bool) (message : string) :
  check failed message = nil <-> failed = false.
Proof. destruct failed; cbn; split; congruence. Qed.

(** An error that begins with the words of the phase rule comes from the
    phase rule. *)
Lemma transition_only_from_phases
    (new old : ClusterWorkspace) (user : UserInfo) (e : string) :
  In e (ValidateErrors (mkAttributes new "clusterworkspaces" (Update old) user)) ->
  HasPrefix e "cannot transition" = true ->
  In e (validatePhaseTransition (Status old) (Status new)).
Proof.
  unfold ValidateErrors, validateUpdate, validateReady.
  cbn [Attr_Resource Attr_Operation Attr_Object String.eqb Ascii.eqb Bool.eqb negb].
  rewrite !in_app_iff.
  intros [[H|[H|[H|H]]]|H] Hp; try (apply In_check in H as [_ ->]; discriminate).
  - exact H.
  - destruct (Status_Phase (Status new)) as [[]|]; try destruct H.
    rewrite !in_app_iff in H.
    destruct H as [H|[H|H]]; apply In_check in H as [_ ->]; discriminate.
Qed.

(** C3: an update that takes the phase back, from Initializing to
    Scheduling, from Ready to Scheduling or from Ready to Initializing, is
    rejected with an error that contains "cannot transition from <old> to
    <new>" with the two phases in quotes; an update that keeps the phase or
    takes it forward gets no error that begins with "cannot transition". *)
Theorem phase_cannot_go_back
    (new old : ClusterWorkspace) (user : UserInfo) (po pn : ClusterWorkspacePhase) :
  Status_Phase (Status old) = Some po ->
  Status_Phase (Status new) = Some pn ->
  (po = Initializing -> pn = Scheduling ->
   exists err,
     Validate (mkAttributes new "clusterworkspaces" (Update old) user) = Some err
     /\ Contains err (Fixtures.sq "cannot transition from 'Initializing' to 'Scheduling'"))
  /\ (po = Ready -> pn = Scheduling ->
      exists err,
        Validate (mkAttributes new "clusterworkspaces" (Update old) user) = Some err
        /\ Contains err (Fixtures.sq "cannot transition from 'Ready' to 'Scheduling'"))
  /\ (po = Ready -> pn = Initializing ->
      exists err,
        Validate (mkAttributes new "clusterworkspaces" (Update old) user) = Some err
        /\ Contains err (Fixtures.sq "cannot transition from 'Ready' to 'Initializing'"))
  /\ (po = pn
      \/ po = Scheduling /\ pn = Initializing
      \/ po = Scheduling /\ pn = Ready
      \/ po = Initializing /\ pn = Ready ->
      forall e,
        In e (ValidateErrors (mkAttributes new "clusterworkspaces" (Update old) user)) ->
        HasPrefix e "cannot transition" = false).
Proof.
  intros Hpo Hpn.
  assert (Hin : forall e,
             validatePhaseTransition (Status old) (Status new) = e :: nil ->
             In e (ValidateErrors (mkAttributes new "clusterworkspaces" (Update old) user))).
  { intros e He. unfold ValidateErrors, validateUpdate.
    cbn [Attr_Resource Attr_Operation Attr_Object String.eqb Ascii.eqb Bool.eqb negb].
    rewrite He, !in_app_iff. left. right. right. right. now left. }
  unfold validatePhaseTransition in Hin. rewrite Hpo, Hpn in Hin.
  repeat split.
  - intros -> ->. apply Validate_rejects, Hin. reflexivity.
  - intros -> ->. apply Validate_rejects, Hin. reflexivity.
  - intros -> ->. apply Validate_rejects, Hin. reflexivity.
  - intros Hstep e He.
    destruct (HasPrefix e "cannot transition") eqn:Hp; [exfalso | reflexivity].
    apply transition_only_from_phases in He; [|exact Hp].
    unfold validatePhaseTransition in He. rewrite Hpo, Hpn in He.
    destruct Hstep as [->|[[-> ->]|[[-> ->]|[-> ->]]]]; [destruct pn| | |]; destruct He.
Qed.

(** The test case "rejects transition to previous phase". *)
Lemma phase_cannot_go_back_witness :
  exists err,
    Validate (Fixtures.updateAttr
                (Fixtures.workspace Fixtures.fooType
                   (Fixtures.status (Some Initializing) nil "somewhere" Fixtures.baseURL))
                (Fixtures.workspace Fixtures.fooType Fixtures.readyStatus))
    = Some err
    /\ Contains err (Fixtures.sq "cannot transition from 'Ready' to 'Initializing'").
Proof.
  destruct (phase_cannot_go_back
              (Fixtures.workspace Fixtures.fooType
                 (Fixtures.status (Some Initializing) nil "somewhere" Fixtures.baseURL))
              (Fixtures.workspace Fixtures.fooType Fixtures.readyStatus)
              Fixtures.nobody Ready Initializing eq_refl eq_refl) as (_ & _ & H & _).
  exact (H eq_refl eq_refl).
Defined.

Lemma validateReady_nil (ws : ClusterWorkspace) :
  Status_Phase (Status ws) = Some Ready ->
  validateReady ws = nil <-> readyConditions ws.
Proof.
  intros Hphase. unfold validateReady, readyConditions. rewrite Hphase.
  split.
  - intros H. apply app_eq_nil in H as [H1 H]. apply app_eq_nil in H as [H2 H3].
    apply check_nil in H1, H2, H3.
    apply negb_false_iff, bool_decide_eq_true in H1.
    apply String.eqb_neq in H2, H3. auto.
  - intros (H1 & H2 & H3).
    apply String.eqb_neq in H2, H3. rewrite H1, H2, H3. reflexivity.
Qed.

(** C4, as the rules have it: a create or update whose new phase is
    Ready is accepted only if the initializers are empty, the base URL is
    set and the current location is set; a create in phase Ready whose
    owner annotation is the stamped value, as it is when [Admit] ran on
    it, is accepted exactly when the three conditions hold. *)
Theorem ready_needs_its_conditions (a : Attributes) :
  Attr_Resource a = "clusterworkspaces" ->
  Status_Phase (Status (Attr_Object a)) = Some Ready ->
  (Validate a = None -> readyConditions (Attr_Object a))
  /\ (Attr_Operation a = Create ->
      default "" (Meta_Annotations (Attr_Object a) !! ClusterWorkspaceOwnerAnnotationKey)
      = ClusterWorkspaceOwnerAnnotationValue (Attr_UserInfo a) ->
      (Validate a = None <-> readyConditions (Attr_Object a)))
  /\ (Attr_Operation a = Create ->
      (Validate (Admit a) = None <-> readyConditions (Attr_Object a))).
Proof.
  intros Hres Hphase.
  assert (Hcreate : forall b, Attr_Resource b = "clusterworkspaces" ->
            Status_Phase (Status (Attr_Object b)) = Some Ready ->
            Attr_Operation b = Create ->
            default "" (Meta_Annotations (Attr_Object b) !! ClusterWorkspaceOwnerAnnotationKey)
            = ClusterWorkspaceOwnerAnnotationValue (Attr_UserInfo b) ->
            (Validate b = None <-> readyConditions (Attr_Object b))).
  { intros b Hb Hready Hop Hann. rewrite Validate_accepts.
    unfold ValidateErrors. rewrite Hb, Hop. cbn [String.eqb Ascii.eqb Bool.eqb negb].
    unfold validateCreate. rewrite Hann, String.eqb_refl. cbn [negb check app].
    now apply validateReady_nil. }
  assert (Herrs : ValidateErrors a
                  = match Attr_Operation a with
                    | Create => validateCreate a
                    | Update old => validateUpdate (Attr_Object a) old
                    end ++ validateReady (Attr_Object a)).
  { unfold ValidateErrors. now rewrite Hres. }
  split.
  - intros H. apply Validate_accepts in H. rewrite Herrs in H.
    apply app_eq_nil in H as [_ H]. now apply validateReady_nil.
  - split.
    + intros Hop Hann. now apply Hcreate.
    + intros Hop.
      assert (Hadmit : Admit a
                       = mkAttributes
                           (set_annotation (Attr_Object a) ClusterWorkspaceOwnerAnnotationKey
                              (ClusterWorkspaceOwnerAnnotationValue (Attr_UserInfo a)))
                           (Attr_Resource a) Create (Attr_UserInfo a)).
      { unfold Admit. now rewrite Hop. }
      rewrite Hadmit. rewrite Hcreate.
      * reflexivity.
      * exact Hres.
      * exact Hphase.
      * reflexivity.
      * cbn [Attr_Object Attr_UserInfo set_annotation Meta_Annotations].
        now rewrite lookup_insert_eq.
Qed.

(** C4 as stated fails on a create whose owner annotation is not the
    stamped one: the object is in phase Ready, the three conditions hold,
    and it is rejected. *)
Lemma ready_create_rejected_for_its_owner :
  Attr_Operation (Fixtures.createAttrWithUser
                    (Fixtures.workspace Fixtures.fooType Fixtures.readyStatus)
                    Fixtures.someone) = Create
  /\ Status_Phase (Status (Fixtures.workspace Fixtures.fooType Fixtures.readyStatus))
     = Some Ready
  /\ readyConditions (Fixtures.workspace Fixtures.fooType Fixtures.readyStatus)
  /\ Validate (Fixtures.createAttrWithUser
                 (Fixtures.workspace Fixtures.fooType Fixtures.readyStatus)
                 Fixtures.someone)
     = Some ("expected user annotation tenancy.kcp.dev/owner=" +:+ Fixtures.someoneJSON).
Proof.
  split; [reflexivity|]. split; [reflexivity|].
  split; [repeat split; discriminate|].
  vm_compute. reflexivity.
Qed.

(** The test case "allows creation to ready directly when valid". *)
Lemma ready_needs_its_conditions_witness :
  Validate (Fixtures.createAttr (Fixtures.workspace Fixtures.fooType Fixtures.readyStatus))
  = None
  <-> readyConditions (Fixtures.workspace Fixtures.fooType Fixtures.readyStatus).
Proof.
  destruct (ready_needs_its_conditions
              (Fixtures.createAttr
                 (Fixtures.workspace Fixtures.fooType Fixtures.readyStatus))
              eq_refl eq_refl) as (_ & H & _).
  exact (H eq_refl eq_refl).
Defined.

(** The cases of TestValidate, in the order of the test file. *)

Example test_rejects_type_mutations :
  Validate (Fixtures.updateAttr
              (Fixtures.workspace Fixtures.fooType Fixtures.noStatus)
              (Fixtures.workspace Fixtures.universalType Fixtures.noStatus))
  = Some "field is immutable".
Proof. vm_compute. reflexivity. Qed.

Example test_rejects_unsetting_location :
  Validate (Fixtures.updateAttr
              (Fixtures.workspace Fixtures.fooType (Fixtures.status None nil "" ""))
              (Fixtures.workspace Fixtures.fooType (Fixtures.status None nil "cluster" "")))
  = Some "status.location.current cannot be unset".
Proof. vm_compute. reflexivity. Qed.

Example test_rejects_unsetting_baseURL :
  Validate (Fixtures.updateAttr
              (Fixtures.workspace Fixtures.fooType Fixtures.noStatus)
              (Fixtures.workspace Fixtures.fooType
                 (Fixtures.status None nil "" "https://cluster/clsuters/test")))
  = Some "status.baseURL cannot be unset".
Proof. vm_compute. reflexivity. Qed.

Example test_rejects_ready_with_initializers :
  Validate (Fixtures.updateAttr
              (Fixtures.workspace Fixtures.fooType
                 (Fixtures.status (Some Ready) ("a" :: nil) "somewhere" Fixtures.baseURL))
              (Fixtures.workspace Fixtures.fooType
                 (Fixtures.status (Some Initializing) ("a" :: nil) "" "")))
  = Some "spec.initializers must be empty for phase Ready".
Proof. vm_compute. reflexivity. Qed.

Example test_allows_ready_from_initializing :
  Validate (Fixtures.updateAttr
              (Fixtures.workspace Fixtures.fooType Fixtures.readyStatus)
              (Fixtures.workspace Fixtures.fooType
                 (Fixtures.status (Some Initializing) ("a" :: nil) "somewhere"
                                  Fixtures.baseURL)))
  = None.
Proof. vm_compute. reflexivity. Qed.

Example test_allows_ready_from_scheduling :
  Validate (Fixtures.updateAttr
              (Fixtures.workspace Fixtures.fooType Fixtures.readyStatus)
              (Fixtures.workspace Fixtures.fooType
                 (Fixtures.status (Some Scheduling) ("a" :: nil) "" "")))
  = None.
Proof. vm_compute. reflexivity. Qed.

Example test_allows_creation_in_ready :
  Validate (Fixtures.createAttr (Fixtures.workspace Fixtures.fooType Fixtures.readyStatus))
  = None.
Proof. vm_compute. reflexivity. Qed.

Example test_rejects_ready_without_baseURL :
  Validate (Fixtures.updateAttr
              (Fixtures.workspace Fixtures.fooType
                 (Fixtures.status (Some Ready) nil "somewhere" ""))
              (Fixtures.workspace Fixtures.fooType
                 (Fixtures.status (Some Scheduling) ("a" :: nil) "" "")))
  = Some "status.baseURL must be set for phase Ready".
Proof. vm_compute. reflexivity. Qed.

Example test_rejects_previous_phase :
  Validate (Fixtures.updateAttr
              (Fixtures.workspace Fixtures.fooType
                 (Fixtures.status (Some Initializing) nil "somewhere" Fixtures.baseURL))
              (Fixtures.workspace Fixtures.fooType Fixtures.readyStatus))
  = Some (Fixtures.sq "cannot transition from 'Ready' to 'Initializing'").
Proof. vm_compute. reflexivity. Qed.

Example test_ignores_different_resources :
  Validate (mkAttributes (Fixtures.workspace (mkTypeReference "" "") Fixtures.noStatus)
                         "clusterworkspaceshards" Create Fixtures.nobody)
  = None.
Proof. vm_compute. reflexivity. Qed.

Example test_checks_user_information_on_create :
  Validate (Fixtures.createAttrWithUser
              (Fixtures.workspace Fixtures.fooType Fixtures.noStatus) Fixtures.someone)
  = Some ("expected user annotation tenancy.kcp.dev/owner=" +:+ Fixtures.someoneJSON).
Proof. vm_compute. reflexivity. Qed.

End AdmissionFacts.

(** *** The readiness loop of the front proxy *)

Module FrontProxyFacts.
Import FrontProxy.

Lemma waitForReadiness_cons (o : observation) (rest : list observation) :
  waitForReadiness (o :: rest)
  = match iteration o with
    | (events, Return err) => (events :: nil, Returned err)
    | (events, Continue) =>
        (events :: fst (waitForReadiness rest), snd (waitForReadiness rest))
    end.
Proof.
  cbn [waitForReadiness]. destruct (iteration o) as [events [err|]]; [reflexivity|].
  now destruct (waitForReadiness rest).
Qed.

(** Iterations that go on are passed over. *)
Lemma waitForReadiness_skip (pre rest : list observation) :
  Forall continues pre ->
  snd (waitForReadiness (pre ++ rest)) = snd (waitForReadiness rest).
Proof.
  induction 1 as [|o pre Ho Hpre IH]; [reflexivity|].
  cbn [app]. rewrite waitForReadiness_cons.
  unfold continues in Ho. destruct (iteration o) as [events st].
  cbn [snd] in Ho. subst st. exact IH.
Qed.

(** The loop returns at the first iteration that does not go on. *)
Lemma waitForReadiness_returns (o : observation) (rest : list observation)
    (err : option error) :
  snd (iteration o) = Return err ->
  snd (waitForReadiness (o :: rest)) = Returned err.
Proof.
  intros H. rewrite waitForReadiness_cons.
  destruct (iteration o) as [events st]. cbn [snd] in H. now subst st.
Qed.

(** Where a returning loop returned. *)
Lemma waitForReadiness_Returned (obs : list observation) (err : option error) :
  snd (waitForReadiness obs) = Returned err ->
  exists pre o post,
    obs = pre ++ o :: post /\ Forall continues pre /\ snd (iteration o) = Return err.
Proof.
  induction obs as [|o obs IH]; [discriminate|].
  rewrite waitForReadiness_cons.
  destruct (iteration o) as [events st] eqn:E. destruct st as [e|].
  - cbn [snd]. intros [= <-]. exists nil, o, obs.
    split; [reflexivity|]. split; [constructor|]. now rewrite E.
  - cbn [snd]. intros H. destruct (IH H) as (pre & o' & post & -> & Hpre & Ho').
    exists (o :: pre), o', post. split; [reflexivity|]. split; [|exact Ho'].
    constructor; [|exact Hpre]. unfold continues. now rewrite E.
Qed.

(** An iteration breaks out of the loop exactly when nothing has arrived
    on the two channels, the client is built and the probe answers 200. *)
Lemma iteration_ready (o : observation) :
  snd (iteration o) = Return None <-> ready o.
Proof.
  unfold iteration, ready, select.
  destruct o as [done term pick config client probe]. cbn [ctxDone terminatedCh
    pickTerminated configLoads clientBuilds readyz].
  destruct done, term as [rc|], pick, config, client, probe as [|code]; cbn [negb snd];
    try (split; [discriminate | intros (? & ? & ? & ? & ?); discriminate]).
  all: unfold StatusOK; destruct (Z.eqb_spec code 200) as [->|Hne];
    (split; [intros H; try discriminate; repeat split
            | intros (_ & _ & _ & _ & H); try reflexivity; congruence]).
Qed.

Lemma iteration_select (o : observation) :
  match select (ctxDone o) (terminatedCh o) (pickTerminated o) with
  | SelectDone => snd (iteration o) = Return (Some ContextCanceled)
  | SelectTerminated rc => snd (iteration o) = Return (Some (TerminatedWithExitCode rc))
  | SelectDefault => True
  end.
Proof. unfold iteration. now destruct (select _ _ _). Qed.

(** An iteration that finds the channels quiet and is not ready goes on. *)
Lemma quiet_not_ready_continues (o : observation) :
  Pace.quiet o -> ~ ready o -> continues o.
Proof.
  intros [Hd Ht] Hn. unfold continues.
  destruct (snd (iteration o)) as [[e|]|] eqn:E; [| |reflexivity]; exfalso.
  - unfold iteration in E. rewrite Hd, Ht in E. cbn [select] in E.
    destruct (negb (configLoads o)); [discriminate|].
    destruct (negb (clientBuilds o)); [discriminate|]. cbn [snd] in E.
    destruct (readyz o) as [|rc]; [discriminate|].
    destruct (rc =? StatusOK); discriminate.
  - now apply Hn, iteration_ready.
Qed.

Lemma going_on_continues (pre : list observation) :
  Forall (fun o => Pace.quiet o /\ ~ ready o) pre -> Forall continues pre.
Proof.
  intros H. eapply Forall_impl; [exact H|].
  intros o [Hq Hn]. now apply quiet_not_ready_continues.
Qed.

(** The events of the iteration that follows iterations that went on. *)
Lemma waitForReadiness_events (pre : list observation) (o : observation)
    (post : list observation) :
  Forall continues pre ->
  nth_error (fst (waitForReadiness (pre ++ o :: post))) (length pre)
  = Some (fst (iteration o)).
Proof.
  induction 1 as [|o' pre Ho' _ IH]; cbn [app length nth_error].
  - rewrite waitForReadiness_cons. now destruct (iteration o) as [events [err|]].
  - rewrite waitForReadiness_cons. unfold continues in Ho'.
    destruct (iteration o') as [events st]. cbn [snd] in Ho'. subst st. exact IH.
Qed.

Lemma waitForReadiness_waits (obs : list observation) :
  Forall continues obs -> snd (waitForReadiness obs) = Waiting.
Proof.
  induction 1 as [|o obs Ho _ IH]; [reflexivity|].
  rewrite waitForReadiness_cons. unfold continues in Ho.
  destruct (iteration o) as [events st]. cbn [snd] in Ho. now subst st.
Qed.

Lemma iterations_run (pre : list observation) (o : observation) (post : list observation) :
  Forall continues pre -> snd (iteration o) <> Continue ->
  length (fst (waitForReadiness (pre ++ o :: post))) = S (length pre).
Proof.
  intros Hpre Ho. induction Hpre as [|o' pre Ho' _ IH]; cbn [app].
  - rewrite waitForReadiness_cons.
    destruct (iteration o) as [events [err|]]; [reflexivity | now cbn in Ho].
  - rewrite waitForReadiness_cons. unfold continues in Ho'.
    destruct (iteration o') as [events st]. cbn [snd] in Ho'. subst st.
    cbn [fst length]. now rewrite IH.
Qed.

(** An iteration that is ready, or finds a channel ready, does not go
    on. *)
Lemma stops (o : observation) :
  ready o \/ ctxDone o = true \/ terminatedCh o <> None -> snd (iteration o) <> Continue.
Proof.
  intros [H|H].
  - apply iteration_ready in H. congruence.
  - pose proof (iteration_select o) as Hs.
    destruct H as [H|H].
    + rewrite H in Hs.
      destruct (terminatedCh o) as [rc|]; cbn [select] in Hs;
        try (destruct (pickTerminated o)); congruence.
    + destruct (terminatedCh o) as [rc|]; [|contradiction].
      destruct (ctxDone o); cbn [select] in Hs;
        try (destruct (pickTerminated o)); congruence.
Qed.

(** C9, as the loop has it. An iteration goes on when it finds neither
    the context done nor an exit code of the child, and its probe does not
    answer 200. After iterations that all went on, the next iteration
    sleeps one second, and then: with the context done or an exit code
    arrived it does nothing more, and returns a cancellation error when
    only the context is done, an error with the child's exit code when only
    that code has arrived, one of the two when both have; otherwise it
    reads .kcp/admin.kubeconfig with the context system:admin, builds the
    client when the kubeconfig loads, and probes [/readyz] when the client
    is built; it returns success when that probe answers 200. An
    iteration that returns is the last one to run. The loop returns
    success in no other way, and it is still waiting when every iteration
    went on. *)
Theorem readiness_loop (pre : list observation) (o : observation)
    (post : list observation) :
  Forall (fun o' => Pace.quiet o' /\ ~ ready o') pre ->
  ((ctxDone o = true \/ terminatedCh o <> None ->
    nth_error (fst (waitForReadiness (pre ++ o :: post))) (length pre)
    = Some (Sleep 1 :: nil))
   /\ (Pace.quiet o -> configLoads o = false ->
       nth_error (fst (waitForReadiness (pre ++ o :: post))) (length pre)
       = Some (Sleep 1 :: LoadKubeconfig ".kcp/admin.kubeconfig" "system:admin" :: nil))
   /\ (Pace.quiet o -> configLoads o = true -> clientBuilds o = false ->
       nth_error (fst (waitForReadiness (pre ++ o :: post))) (length pre)
       = Some (Sleep 1 :: LoadKubeconfig ".kcp/admin.kubeconfig" "system:admin"
                 :: NewClusterForConfig :: nil))
   /\ (Pace.quiet o -> configLoads o = true -> clientBuilds o = true ->
       nth_error (fst (waitForReadiness (pre ++ o :: post))) (length pre)
       = Some (Sleep 1 :: LoadKubeconfig ".kcp/admin.kubeconfig" "system:admin"
                 :: NewClusterForConfig :: Get "/readyz" :: nil)))
  /\ ((ready o -> snd (waitForReadiness (pre ++ o :: post)) = Returned None)
      /\ (ctxDone o = true -> terminatedCh o = None ->
          snd (waitForReadiness (pre ++ o :: post)) = Returned (Some ContextCanceled))
      /\ (forall rc, ctxDone o = false -> terminatedCh o = Some rc ->
                     snd (waitForReadiness (pre ++ o :: post))
                     = Returned (Some (TerminatedWithExitCode rc)))
      /\ (forall rc, ctxDone o = true -> terminatedCh o = Some rc ->
                     snd (waitForReadiness (pre ++ o :: post))
                     = Returned (Some ContextCanceled)
                     \/ snd (waitForReadiness (pre ++ o :: post))
                        = Returned (Some (TerminatedWithExitCode rc))))
  /\ (ready o \/ ctxDone o = true \/ terminatedCh o <> None ->
      length (fst (waitForReadiness (pre ++ o :: post))) = S (length pre))
  /\ snd (waitForReadiness pre) = Waiting
  /\ (forall obs,
         snd (waitForReadiness obs) = Returned None ->
         exists pre' o' post',
           obs = (pre' ++ o' :: post')%list
           /\ Forall (fun o'' => Pace.quiet o'' /\ ~ ready o'') pre'
           /\ ready o').
Proof.
  intros Hpre. apply going_on_continues in Hpre.
  rewrite (waitForReadiness_events pre o post Hpre), (waitForReadiness_skip pre _ Hpre).
  pose proof (iteration_select o) as Hsel.
  split; [|split; [|split; [|split]]].
  - unfold iteration, Pace.quiet. repeat split.
    + intros [Hd|Ht].
      * rewrite Hd. now destruct (terminatedCh o), (pickTerminated o).
      * destruct (terminatedCh o) as [rc|]; [|contradiction].
        now destruct (ctxDone o), (pickTerminated o).
    + intros [-> ->] ->. reflexivity.
    + intros [-> ->] -> ->. reflexivity.
    + intros [-> ->] -> ->. reflexivity.
  - repeat split.
    + intros Hr. apply waitForReadiness_returns. now apply iteration_ready.
    + intros Hdone Hterm. rewrite Hdone, Hterm in Hsel.
      now apply waitForReadiness_returns.
    + intros rc Hdone Hterm. rewrite Hdone, Hterm in Hsel.
      now apply waitForReadiness_returns.
    + intros rc Hdone Hterm. rewrite Hdone, Hterm in Hsel. cbn [select] in Hsel.
      destruct (pickTerminated o); [right | left]; now apply waitForReadiness_returns.
  - intros Hstop. apply (iterations_run pre o post Hpre). now apply stops.
  - now apply waitForReadiness_waits.
  - intros obs H.
    apply waitForReadiness_Returned in H as (pre' & o' & post' & -> & Hpre' & Ho').
    exists pre', o', post'. split; [reflexivity|]. split; [|now apply iteration_ready].
    eapply Forall_impl; [exact Hpre'|]. intros x Hx. unfold continues in Hx.
    split.
    + pose proof (iteration_select x) as Hs. unfold Pace.quiet.
      destruct (ctxDone x), (terminatedCh x) as [rc|]; cbn [select] in Hs;
        try (destruct (pickTerminated x)); try congruence; now split.
    + intros Hr. apply iteration_ready in Hr. congruence.
Qed.

(** Scenario S8: two probes answer 503, the third answers 200; the loop
    probes a third time and returns success. *)
Lemma readiness_loop_witness :
  snd (waitForReadiness Fixtures.scenarioS8) = Returned None
  /\ nth_error (fst (waitForReadiness Fixtures.scenarioS8)) 2
     = Some (Sleep 1 :: LoadKubeconfig ".kcp/admin.kubeconfig" "system:admin"
               :: NewClusterForConfig :: Get "/readyz" :: nil).
Proof.
  destruct (readiness_loop
              (Fixtures.probing 503 :: Fixtures.probing 503 :: nil)
              (Fixtures.probing 200) nil)
    as ((_ & _ & _ & He) & (Hr & _) & _).
  - repeat constructor; intros (_ & _ & _ & _ & H); discriminate.
  - split; [apply Hr; repeat split | apply He; repeat split].
Defined.

(** C9 as stated fails at the check that follows a cancel: the context is
    done, the child was killed and its exit code -1 has arrived too, and the
    loop returns the error with the exit code when the runtime picks that
    case. *)
Lemma canceled_loop_reports_exit_code :
  ctxDone (Fixtures.afterCancel true) = true
  /\ reportExit (WaitExitError (-1)) = terminatedCh (Fixtures.afterCancel true)
  /\ snd (waitForReadiness (Fixtures.afterCancel true :: nil))
     = Returned (Some (TerminatedWithExitCode (-1)))
  /\ snd (waitForReadiness (Fixtures.afterCancel true :: nil))
     <> Returned (Some ContextCanceled).
Proof. repeat split. discriminate. Qed.

(** An exit of the child that [cmd.Wait] reports with another error than
    an exit error sends nothing, so the loop does not learn of it. *)
Example unreported_exit : reportExit WaitOtherError = None.
Proof. reflexivity. Qed.

End FrontProxyFacts.

(** ** Part III: further properties of the code *)

(** *** Cluster names: what [reClusterName] accepts *)

Module ClusterNameFacts.
Import GoStrings GoStringsFacts Regexp ClusterName.

Lemma append_nil_inv (s1 s2 : string) : s1 +:+ s2 = "" -> s1 = "" /\ s2 = "".
Proof. destruct s1; [intros H; split; [reflexivity | exact H] | discriminate]. Qed.

Lemma append_byte (c : ascii) (s : string) : String c "" +:+ s = String c s.
Proof. reflexivity. Qed.

Lemma matches_Nothing (s : string) : ~ matches Nothing s.
Proof. intros H. inversion H. Qed.

Lemma nullable_matches (r : regex) : nullable r = true -> matches r "".
Proof.
  induction r as [| |p|r1 IH1 r2 IH2|r1 IH1 r2 IH2|r1 IH1|r1 IH1|r1 IH1 n];
    cbn [nullable]; intros H; try discriminate.
  - constructor.
  - apply andb_true_iff in H as [H1 H2].
    change (matches (Seq r1 r2) ("" +:+ "")). constructor; auto.
  - apply orb_true_iff in H as [H|H]; [apply MAltL | apply MAltR]; auto.
  - constructor.
  - apply MOptNone.
  - constructor.
Qed.

Lemma matches_nullable (r : regex) (s : string) :
  matches r s -> s = "" -> nullable r = true.
Proof.
  induction 1; intros E; cbn [nullable]; try reflexivity; try discriminate.
  - apply append_nil_inv in E as [-> ->]. now rewrite IHmatches1, IHmatches2.
  - now rewrite IHmatches.
  - rewrite (IHmatches E). apply orb_true_r.
Qed.

Lemma void_matches (r : regex) (s : string) : matches r s -> void r = false.
Proof.
  induction 1; cbn [void]; try reflexivity.
  - now rewrite IHmatches1, IHmatches2.
  - now rewrite IHmatches.
  - rewrite IHmatches. apply andb_false_r.
Qed.

Lemma matches_seq (r1 r2 : regex) (s : string) :
  matches (seq r1 r2) s <-> matches (Seq r1 r2) s.
Proof.
  unfold seq. destruct (void r1 || void r2) eqn:E; [|reflexivity].
  split; intros H; [now apply matches_Nothing in H|].
  inversion H as [| |? ? ? ? H1 H2| | | | | | | |]; subst.
  apply void_matches in H1, H2. rewrite H1, H2 in E. discriminate.
Qed.

Lemma matches_alt (r1 r2 : regex) (s : string) :
  matches (alt r1 r2) s <-> matches r1 s \/ matches r2 s.
Proof.
  unfold alt. destruct (void r1) eqn:E1; [|destruct (void r2) eqn:E2].
  - split; [auto|]. intros [H|H]; [|exact H].
    apply void_matches in H. congruence.
  - split; [auto|]. intros [H|H]; [exact H|].
    apply void_matches in H. congruence.
  - split.
    + intros H. inversion H; subst; auto.
    + intros [H|H]; [now apply MAltL | now apply MAltR].
Qed.

Lemma matches_upto_more (r : regex) (n : nat) (s : string) :
  matches (Upto r n) s -> matches (Upto r (S n)) s.
Proof.
  revert s; induction n as [|n IH]; intros s H; inversion H; subst;
    try apply MUptoNil.
  apply MUptoCons; auto.
Qed.

(** The derivative by [c] stands for the rests of the strings that begin
    with [c]. *)
Lemma deriv_sound (c : ascii) (r : regex) (t : string) :
  matches (deriv c r) t -> matches r (String c t).
Proof.
  revert t; induction r as [| |p|r1 IH1 r2 IH2|r1 IH1 r2 IH2|r1 IH1|r1 IH1|r1 IH1 n];
    intros t H; cbn [deriv] in H.
  - now apply matches_Nothing in H.
  - now apply matches_Nothing in H.
  - destruct (p c) eqn:E; [|now apply matches_Nothing in H].
    inversion H; subst. now constructor.
  - apply matches_alt in H as [H|H].
    + apply matches_seq in H. inversion H; subst.
      change (String c (?a +:+ ?b)) with (String c a +:+ b). constructor; auto.
    + destruct (nullable r1) eqn:E; [|now apply matches_Nothing in H].
      change (String c t) with ("" +:+ String c t). constructor; auto.
      now apply nullable_matches.
  - apply matches_alt in H as [H|H]; [apply MAltL | apply MAltR]; auto.
  - apply matches_seq in H. inversion H; subst.
    change (String c (?a +:+ ?b)) with (String c a +:+ b). constructor; auto.
  - constructor. auto.
  - destruct n as [|n]; [now apply matches_Nothing in H|].
    apply matches_seq in H. inversion H; subst.
    change (String c (?a +:+ ?b)) with (String c a +:+ b). constructor; auto.
Qed.

Lemma deriv_complete (r : regex) (s : string) :
  matches r s -> forall c t, s = String c t -> matches (deriv c r) t.
Proof.
  induction 1 as [|p c0 Hp|r1 r2 s1 s2 H1 IH1 H2 IH2|r1 r2 s H IH|r1 r2 s H IH|r
                 |r s1 s2 H1 IH1 H2 IH2|r|r s H IH|r n|r n s1 s2 H1 IH1 H2 IH2];
    intros c t E; cbn [deriv]; try discriminate.
  - injection E as -> <-. rewrite Hp. constructor.
  - apply matches_alt. destruct s1 as [|a s1].
    + right. rewrite (matches_nullable r1 "" H1 eq_refl). now apply IH2.
    + injection E as -> <-. left. apply matches_seq. constructor; auto.
  - apply matches_alt. left. now apply IH.
  - apply matches_alt. right. now apply IH.
  - destruct s1 as [|a s1]; [now apply IH2|].
    injection E as -> <-. apply matches_seq. constructor; auto.
  - now apply IH.
  - destruct s1 as [|a s1].
    + specialize (IH2 c t E). cbn [deriv] in IH2.
      destruct n as [|n]; [now apply matches_Nothing in IH2|].
      apply matches_seq in IH2. apply matches_seq.
      inversion IH2; subst. constructor; [assumption|].
      now apply matches_upto_more.
    + injection E as -> <-. apply matches_seq. constructor; auto.
Qed.

(** [MatchString] accepts the strings that the expression stands for. *)
Lemma MatchString_matches (r : regex) (s : string) :
  MatchString r s = true <-> matches r s.
Proof.
  revert r; induction s as [|c t IH]; intros r; cbn [MatchString].
  - split; [apply nullable_matches | intros H; now apply (matches_nullable r "")].
  - rewrite IH. split; [apply deriv_sound | intros H; now apply (deriv_complete r _ H)].
Qed.

Lemma all_bytes_append (p : ascii -> bool) (s1 s2 : string) :
  all_bytes p (s1 +:+ s2) = all_bytes p s1 && all_bytes p s2.
Proof.
  induction s1 as [|c s1 IH]; [reflexivity|].
  rewrite append_cons. cbn [all_bytes]. now rewrite IH, andb_assoc.
Qed.

Lemma ends_in_last (p : ascii -> bool) (s : string) (c : ascii) :
  ends_in p (s +:+ String c "") = p c.
Proof.
  induction s as [|a s IH]; [reflexivity|].
  rewrite append_cons. cbn [ends_in]. rewrite IH.
  destruct s; reflexivity.
Qed.

(** A string that is not empty has a last byte. *)
Lemma last_byte (c : ascii) (t : string) :
  exists u d, String c t = u +:+ String d "".
Proof.
  revert c; induction t as [|a t IH]; intros c.
  - now exists "", c.
  - destruct (IH a) as (u & d & E). exists (String c u), d.
    rewrite append_cons. now rewrite E.
Qed.

Lemma matches_class (p : ascii -> bool) (s : string) :
  matches (Class p) s <-> exists c, s = String c "" /\ p c = true.
Proof.
  split.
  - intros H. inversion H; subst. eauto.
  - intros (c & -> & H). now constructor.
Qed.

(** [p{0,n}]: at most [n] bytes, all of the class. *)
Lemma matches_upto_class (p : ascii -> bool) (n : nat) (s : string) :
  matches (Upto (Class p) n) s <-> (String.length s <= n)%nat /\ all_bytes p s = true.
Proof.
  split.
  - revert s; induction n as [|n IH]; intros s H; inversion H; subst;
      try (split; [cbn; lia | reflexivity]).
    match goal with Hc : matches (Class p) _ |- _ =>
      apply matches_class in Hc as (c & -> & Hc) end.
    match goal with Hu : matches (Upto _ n) _ |- _ => apply IH in Hu as [Hl Ha] end.
    match goal with Hc : p c = true |- _ =>
      rewrite append_byte; cbn [String.length all_bytes]; rewrite Ha, Hc end.
    split; [lia | reflexivity].
  - revert n; induction s as [|c t IH]; intros n [Hl Ha]; [constructor|].
    cbn [String.length all_bytes] in Hl, Ha. apply andb_true_iff in Ha as [Hc Ha].
    destruct n as [|n]; [lia|].
    change (String c t) with (String c "" +:+ t).
    constructor; [now constructor | apply IH; split; [lia | exact Ha]].
Qed.

Lemma lower_is_lower_digit_dash (c : ascii) :
  lower c = true -> lower_digit_dash c = true.
Proof. unfold lower_digit_dash, lower_digit, lower. now intros ->. Qed.

Lemma lower_digit_is_lower_digit_dash (c : ascii) :
  lower_digit c = true -> lower_digit_dash c = true.
Proof. unfold lower_digit_dash. now intros ->. Qed.

(** [reSegment] stands for the labels. *)
Lemma matches_label (s : string) : matches Handler.reSegment s <-> label s = true.
Proof.
  unfold Handler.reSegment. split.
  - intros H. inversion H as [| |? ? s1 s2 H1 H2| | | | | | | |]; subst.
    apply matches_class in H1 as (c & -> & Hc).
    rewrite append_byte. cbn [label]. rewrite Hc. cbn [andb].
    inversion H2 as [| | | | | | |?|? ? H3| |]; subst; [reflexivity|].
    inversion H3 as [| |? ? u v Hu Hv| | | | | | | |]; subst.
    apply matches_upto_class in Hu as [Hl Ha].
    apply matches_class in Hv as (d & -> & Hd).
    rewrite length_append, all_bytes_append, ends_in_last, Ha, Hd.
    cbn [String.length all_bytes]. rewrite (lower_digit_is_lower_digit_dash d Hd).
    cbn [andb]. rewrite !andb_true_r. apply Nat.leb_le. lia.
  - destruct s as [|c t]; [discriminate|]. cbn [label]. intros H.
    apply andb_true_iff in H as [H He].
    apply andb_true_iff in H as [H Ha].
    apply andb_true_iff in H as [Hc Hl]. apply Nat.leb_le in Hl.
    change (String c t) with (String c "" +:+ t).
    constructor; [now constructor|].
    destruct t as [|a t]; [constructor|].
    destruct (last_byte a t) as (u & d & E). rewrite E in *.
    rewrite length_append in Hl. cbn [String.length] in Hl.
    rewrite all_bytes_append in Ha. apply andb_true_iff in Ha as [Ha _].
    rewrite ends_in_last in He.
    apply MOptSome. constructor; [|now constructor].
    apply matches_upto_class. split; [lia | exact Ha].
Qed.

Lemma all_bytes_has_byte (p : ascii -> bool) (c : ascii) (s : string) :
  p c = false -> all_bytes p s = true -> has_byte c s = false.
Proof.
  intros Hc. induction s as [|a s IH]; [reflexivity|].
  cbn [all_bytes has_byte]. intros H. apply andb_true_iff in H as [Ha Hs].
  rewrite (IH Hs), orb_false_r. apply Ascii.eqb_neq. intros ->. congruence.
Qed.

(** A label holds no colon. *)
Lemma label_no_colon (s : string) : label s = true -> has_byte ":" s = false.
Proof.
  destruct s as [|c t]; [discriminate|]. cbn [label]. intros H.
  apply andb_true_iff in H as [H _].
  apply andb_true_iff in H as [H Ha].
  apply andb_true_iff in H as [Hc _].
  apply (all_bytes_has_byte lower_digit_dash); [reflexivity|].
  cbn [all_bytes]. now rewrite (lower_is_lower_digit_dash c Hc), Ha.
Qed.

(** [strings.Split] of a string whose first piece ends at the first [c]. *)
Lemma split_on_first (c : ascii) (s : string) :
  has_byte c s = false
  \/ exists l rest, s = l +:+ String c rest /\ has_byte c l = false.
Proof.
  induction s as [|a s IH]; [now left|].
  cbn [has_byte]. destruct (Ascii.eqb_spec a c) as [->|Hne].
  - right. exists "", s. split; reflexivity.
  - destruct IH as [IH|(l & rest & -> & Hl)]; [now left|].
    right. exists (String a l), rest. rewrite append_cons. split; [reflexivity|].
    cbn [has_byte]. rewrite Hl, orb_false_r. now apply Ascii.eqb_neq.
Qed.

Lemma split_on_not_nil (c : ascii) (s : string) : GoPath.split_on c s <> nil.
Proof.
  destruct s as [|a s]; cbn [GoPath.split_on]; [discriminate|].
  destruct (Ascii.eqb a c); [discriminate|].
  destruct (GoPath.split_on c s); discriminate.
Qed.

Lemma split_on_append (c : ascii) (a b : string) :
  GoPath.split_on c (a +:+ String c b) = (GoPath.split_on c a ++ GoPath.split_on c b)%list.
Proof.
  induction a as [|x a IH].
  - change ("" +:+ String c b) with (String c b).
    cbn [GoPath.split_on]. now rewrite Ascii.eqb_refl.
  - rewrite append_cons. cbn [GoPath.split_on]. rewrite IH.
    destruct (Ascii.eqb x c); [reflexivity|].
    pose proof (split_on_not_nil c a) as Hne.
    destruct (GoPath.split_on c a); [contradiction | reflexivity].
Qed.

Local Abbreviation piece := (Seq Handler.reSegment (Class colon)).

Lemma matches_piece (s : string) :
  matches piece s <-> exists l, s = l +:+ ":" /\ label l = true.
Proof.
  split.
  - intros H. inversion H as [| |? ? s1 s2 H1 H2| | | | | | | |]; subst.
    apply matches_label in H1. apply matches_class in H2 as (c & -> & Hc).
    apply Ascii.eqb_eq in Hc as ->. eauto.
  - intros (l & -> & Hl). constructor; [now apply matches_label|].
    now constructor.
Qed.

Lemma matches_labels (s1 s2 : string) :
  matches (Star piece) s1 -> label s2 = true ->
  forallb label (GoPath.split_on ":" (s1 +:+ s2)) = true.
Proof.
  intros H Hl. remember (Star piece) as r eqn:Er.
  induction H as [| | | | | |r0 a b Ha _ Hb IH| | | |]; try discriminate.
  - change ("" +:+ s2) with s2.
    rewrite (GoPathFacts.split_on_single ":" s2 (label_no_colon s2 Hl)).
    cbn [forallb]. now rewrite Hl.
  - injection Er as ->. apply matches_piece in Ha as (l & -> & Hlab).
    rewrite !append_assoc. change (":" +:+ ?x) with (String ":" x).
    rewrite (GoPathFacts.split_on_sep ":" l _ (label_no_colon l Hlab)).
    cbn [forallb]. rewrite Hlab. now apply IH.
Qed.

Lemma labels_match (n : nat) (s : string) :
  (String.length s <= n)%nat ->
  forallb label (GoPath.split_on ":" s) = true ->
  matches Handler.reClusterName s.
Proof.
  revert s; induction n as [|n IH]; intros s Hn H.
  - destruct s; [discriminate | cbn in Hn; lia].
  - destruct (split_on_first ":" s) as [Hs|(l & rest & -> & Hl)].
    + rewrite (GoPathFacts.split_on_single ":" s Hs) in H. cbn [forallb] in H.
      rewrite andb_true_r in H.
      change s with ("" +:+ s). constructor; [constructor | now apply matches_label].
    + rewrite (GoPathFacts.split_on_sep ":" l rest Hl) in H. cbn [forallb] in H.
      apply andb_true_iff in H as [Hlab Hrest].
      rewrite length_append in Hn. cbn [String.length] in Hn.
      assert (Hr : matches Handler.reClusterName rest) by (apply IH; [lia | exact Hrest]).
      inversion Hr as [| |? ? r1 r2 H1 H2| | | | | | | |]; subst.
      replace (l +:+ String ":" (r1 +:+ r2)) with (((l +:+ ":") +:+ r1) +:+ r2)
        by (now rewrite !append_assoc).
      constructor; [|exact H2].
      constructor; [|exact H1].
      apply matches_piece. eauto.
Qed.

(** The names that [reClusterName] stands for are the strings whose
    pieces between the colons are labels. *)
Lemma reClusterName_matches (s : string) :
  matches Handler.reClusterName s <-> forallb label (GoPath.split_on ":" s) = true.
Proof.
  split.
  - intros H. inversion H as [| |? ? s1 s2 H1 H2| | | | | | | |]; subst.
    apply matches_labels; [exact H1 | now apply matches_label].
  - apply (labels_match (String.length s)). lia.
Qed.

(** A cluster name is valid exactly when each of its pieces between
    colons is a label: 1 to 63 bytes out of lower-case letters, digits and
    dashes, the first a letter and the last no dash. *)
Theorem cluster_name_shape (s : string) :
  Regexp.MatchString Handler.reClusterName s = forallb label (GoPath.split_on ":" s).
Proof.
  apply eq_true_iff_eq.
  rewrite MatchString_matches.
  apply reClusterName_matches.
Qed.

(** Two names joined by a colon make a valid name exactly when both are
    valid: every ancestor [root:org] of a valid name [root:org:ws] is valid,
    and so is every piece of it. *)
Theorem cluster_name_join (a b : string) :
  Regexp.MatchString Handler.reClusterName (a +:+ ":" +:+ b)
  = Regexp.MatchString Handler.reClusterName a
    && Regexp.MatchString Handler.reClusterName b.
Proof.
  apply eq_true_iff_eq.
  rewrite andb_true_iff, !MatchString_matches, !reClusterName_matches.
  change (a +:+ ":" +:+ b) with (a +:+ String ":" b).
  now rewrite split_on_append, forallb_app, andb_true_iff.
Qed.

(** A label of 63 bytes is a name, one of 64 bytes is not; a dash may not
    end a label, a digit may not begin one, and no piece may be empty. *)
Example cluster_name_bounds :
  Regexp.MatchString Handler.reClusterName
    "a23456789012345678901234567890123456789012345678901234567890123" = true
  /\ Regexp.MatchString Handler.reClusterName
       "a234567890123456789012345678901234567890123456789012345678901234" = false
  /\ Regexp.MatchString Handler.reClusterName "root:org-1:ws" = true
  /\ Regexp.MatchString Handler.reClusterName "root:org-" = false
  /\ Regexp.MatchString Handler.reClusterName "root:1org" = false
  /\ Regexp.MatchString Handler.reClusterName "root::ws" = false
  /\ Regexp.MatchString Handler.reClusterName "root:" = false
  /\ Regexp.MatchString Handler.reClusterName "Root" = false.
Proof. repeat split; vm_compute; reflexivity. Qed.

End ClusterNameFacts.

(** *** [path.Join] on paths with empty elements *)

Module JoinFacts.
Import GoStrings GoStringsFacts GoPath GoPathFacts.

Lemma rooted_path_app (a b : list string) :
  rooted_path (a ++ b) = rooted_path a +:+ rooted_path b.
Proof.
  induction a as [|x a IH]; [reflexivity|].
  cbn [app rooted_path]. rewrite IH.
  change ("/" +:+ ?s) with (String "/" s). rewrite append_cons.
  now rewrite append_assoc.
Qed.

Lemma split_on_elems (x : string) (xs : list string) :
  Forall (fun e => has_byte "/" e = false) (x :: xs) ->
  split_on "/" (x +:+ rooted_path xs) = x :: xs.
Proof.
  revert x; induction xs as [|y ys IH]; intros x H;
    inversion H as [|? ? Hx Hxs]; subst.
  - cbn [rooted_path]. rewrite append_empty_r. now apply split_on_single.
  - change (rooted_path (y :: ys)) with (String "/" (y +:+ rooted_path ys)).
    rewrite (split_on_sep "/" x _ Hx). now rewrite IH.
Qed.

(** [Clean] drops the empty elements and keeps the plain ones. *)
Lemma clean_elems_loose (xs out : list string) :
  Forall (fun e => e = "" \/ plain_elem e = true) xs ->
  clean_elems true xs out
  = (rev out ++ List.filter (fun e => negb (String.eqb e "")) xs)%list.
Proof.
  revert out; induction xs as [|x xs IH]; intros out H.
  - cbn. now rewrite app_nil_r.
  - inversion H as [|? ? Hx Hxs]; subst. destruct Hx as [->|Hx].
    + cbn [clean_elems String.eqb orb List.filter negb]. now apply IH.
    + rewrite (clean_elems_plain true x xs out Hx), (IH _ Hxs).
      cbn [rev List.filter].
      assert (Hne : String.eqb x "" = false).
      { unfold plain_elem in Hx. destruct (String.eqb x ""); [discriminate | reflexivity]. }
      rewrite Hne. cbn [negb]. now rewrite <- app_assoc.
Qed.

Lemma loose_no_slash (xs : list string) :
  Forall (fun e => e = "" \/ plain_elem e = true) xs ->
  Forall (fun e => has_byte "/" e = false) xs.
Proof.
  intros H. eapply Forall_impl; [exact H|].
  intros e [->|He]; [reflexivity | now apply plain_elem_no_slash].
Qed.

Lemma Clean_rooted_path (x : string) (xs : list string) :
  Forall (fun e => e = "" \/ plain_elem e = true) (x :: xs) ->
  Clean (rooted_path (x :: xs))
  = "/" +:+ GoStrings.Join (List.filter (fun e => negb (String.eqb e "")) (x :: xs)) "/".
Proof.
  intros H.
  change (rooted_path (x :: xs)) with (String "/" (x +:+ rooted_path xs)).
  unfold Clean. cbn [Ascii.eqb Bool.eqb split_on].
  rewrite (split_on_elems x xs (loose_no_slash _ H)).
  change (clean_elems true ("" :: ?l) nil) with (clean_elems true l nil).
  now rewrite (clean_elems_loose _ nil H).
Qed.

Lemma plain_not_empty (e : string) : plain_elem e = true -> String.eqb e "" = false.
Proof.
  unfold plain_elem. destruct (String.eqb e ""); [discriminate | reflexivity].
Qed.

Lemma filter_plain (es : list string) :
  Forall (fun e => plain_elem e = true) es ->
  List.filter (fun e => negb (String.eqb e "")) es = es.
Proof.
  induction 1 as [|e es He _ IH]; [reflexivity|].
  cbn [List.filter]. now rewrite (plain_not_empty e He), IH.
Qed.

Lemma plain_loose (es : list string) :
  Forall (fun e => plain_elem e = true) es ->
  Forall (fun e => e = "" \/ plain_elem e = true) es.
Proof. intros H. eapply Forall_impl; [exact H|]. auto. Qed.

Lemma Join_first (e : string) (rest : list string) :
  String.eqb e "" = false ->
  GoPath.Join (e :: rest) = Clean (GoStrings.Join (e :: rest) "/").
Proof. intros H. unfold GoPath.Join. cbn [skip_empty]. now rewrite H. Qed.

(** [path.Join("/clusters", name, "/")] is [/clusters/<name>]. *)
Lemma Join_clusters_root (name : string) :
  plain_elem name = true ->
  GoPath.Join ("/clusters" :: name :: "/" :: nil) = "/clusters/" +:+ name.
Proof.
  intros Hname. unfold GoPath.Join. cbn [skip_empty String.eqb Ascii.eqb Bool.eqb].
  change (GoStrings.Join ("/clusters" :: name :: "/" :: nil) "/")
    with (rooted_path ("clusters" :: name :: "" :: "" :: nil)).
  rewrite Clean_rooted_path by (repeat constructor; auto).
  cbn [List.filter String.eqb Ascii.eqb Bool.eqb negb].
  rewrite (plain_not_empty name Hname). reflexivity.
Qed.

(** [path.Join("/services/workspaces", name, "all", path)] for a clean
    rooted path. *)
Lemma Join_services (name : string) (ps : list string) :
  plain_elem name = true ->
  Forall (fun e => plain_elem e = true) ps ->
  GoPath.Join ("/services/workspaces" :: name :: "all" :: rooted_path ps :: nil)
  = "/services/workspaces/" +:+ name +:+ "/all" +:+ rooted_path ps.
Proof.
  intros Hname Hps. unfold GoPath.Join. cbn [skip_empty String.eqb Ascii.eqb Bool.eqb].
  change (GoStrings.Join ("/services/workspaces" :: name :: "all" :: rooted_path ps :: nil) "/")
    with (rooted_path ("services" :: "workspaces" :: name :: "all" :: "" :: ps)).
  rewrite Clean_rooted_path.
  2:{ repeat (constructor; [auto|]). now apply plain_loose. }
  cbn [List.filter String.eqb Ascii.eqb Bool.eqb negb].
  rewrite (plain_not_empty name Hname), (filter_plain ps Hps). cbn [negb].
  rewrite (Join_elems_rooted "services" ("workspaces" :: name :: "all" :: ps)).
  reflexivity.
Qed.

(** [path.Join("/apis", group, version, "workspaces/")] *)
Lemma Join_apis (group version : string) :
  plain_elem group = true -> plain_elem version = true ->
  GoPath.Join ("/apis" :: group :: version :: "workspaces/" :: nil)
  = "/apis/" +:+ group +:+ "/" +:+ version +:+ "/workspaces".
Proof.
  intros Hg Hv. unfold GoPath.Join. cbn [skip_empty String.eqb Ascii.eqb Bool.eqb].
  change (GoStrings.Join ("/apis" :: group :: version :: "workspaces/" :: nil) "/")
    with (rooted_path ("apis" :: group :: version :: "workspaces" :: "" :: nil)).
  rewrite Clean_rooted_path by (repeat constructor; auto).
  cbn [List.filter String.eqb Ascii.eqb Bool.eqb negb].
  rewrite (plain_not_empty group Hg), (plain_not_empty version Hv). cbn [negb].
  rewrite (Join_elems_rooted "apis" (group :: version :: "workspaces" :: nil)).
  reflexivity.
Qed.

(** [path.Join(toRedirectPath, "~")] *)
Lemma Join_home (group version : string) :
  plain_elem group = true -> plain_elem version = true ->
  GoPath.Join (("/apis/" +:+ group +:+ "/" +:+ version +:+ "/workspaces") :: "~" :: nil)
  = "/apis/" +:+ group +:+ "/" +:+ version +:+ "/workspaces/~".
Proof.
  intros Hg Hv. rewrite Join_first by reflexivity.
  change (GoStrings.Join (("/apis/" +:+ group +:+ "/" +:+ version +:+ "/workspaces")
                            :: "~" :: nil) "/")
    with (rooted_path ("apis" :: group :: version :: "workspaces" :: nil)
          +:+ rooted_path ("~" :: nil)).
  rewrite <- rooted_path_app. cbn [app].
  rewrite Clean_rooted_path by (repeat constructor; auto).
  cbn [List.filter String.eqb Ascii.eqb Bool.eqb negb].
  rewrite (plain_not_empty group Hg), (plain_not_empty version Hv). cbn [negb].
  rewrite (Join_elems_rooted "apis" (group :: version :: "workspaces" :: "~" :: nil)).
  reflexivity.
Qed.

End JoinFacts.

(** *** The handler chain: scoping, and the handlers one after the other *)

Module ChainFacts.
Import GoStrings GoStringsFacts HTTP Handler Chain.

(** A valid cluster name is one plain path element. *)
Lemma reClusterName_plain (c : string) :
  Regexp.MatchString reClusterName c = true -> GoPath.plain_elem c = true.
Proof.
  intros H. unfold GoPath.plain_elem.
  rewrite (HandlerFacts.reClusterName_not_empty c H),
          (HandlerFacts.reClusterName_no_slash c H).
  assert (H1 : String.eqb c "." = false)
    by (apply String.eqb_neq; intros ->; discriminate).
  assert (H2 : String.eqb c ".." = false)
    by (apply String.eqb_neq; intros ->; discriminate).
  now rewrite H1, H2.
Qed.

Lemma list_or_watch_spec (verb : string) :
  list_or_watch verb = true <-> verb = "list" \/ verb = "watch".
Proof.
  unfold list_or_watch. rewrite bool_decide_eq_true.
  now rewrite elem_of_union, !elem_of_singleton.
Qed.

(** The bytes before the first [c] hold no [c]. *)
Lemma slice_to_index (c : ascii) (s : string) (n : nat) :
  index_of s (String c "") = Some n -> has_byte c (slice_to n s) = false.
Proof.
  revert n; induction s as [|x s IH]; intros n; [discriminate|].
  rewrite index_of_cons, HasPrefix_byte.
  destruct (Ascii.eqb c x) eqn:E.
  - now intros [= <-].
  - destruct (index_of s (String c "")) as [m|]; [|discriminate].
    intros [= <-]. cbn [slice_to has_byte].
    now rewrite Ascii.eqb_sym, E, (IH m eq_refl).
Qed.

Section Scope.

Variable quote : string -> string.
Variable isPartialMetadataRequest : Context -> bool.
Variable LocalAdminCluster : string.

Local Abbreviation shortenRawPath := (Handler.shortenRawPath quote).
Local Abbreviation clusterNameOf := (Handler.clusterNameOf quote).
Local Abbreviation WithClusterScope :=
  (Handler.WithClusterScope quote isPartialMetadataRequest LocalAdminCluster).

Lemma shortenRawPath_fails (n : nat) (c rawPath : string) (st : Status) :
  shortenRawPath n c rawPath = inl st -> Status_Code st = 500.
Proof.
  revert rawPath; induction n as [|n IH]; intros rawPath; cbn [Handler.shortenRawPath];
    [discriminate|].
  destruct (len rawPath >? 1); [|discriminate].
  destruct (Index (slice_from 1 rawPath) "/" =? -1); [now intros [= <-] | apply IH].
Qed.

Lemma clusterNameOf_fails (req : Request) (st : Status) :
  clusterNameOf req = inl st -> Status_Code st = 400 \/ Status_Code st = 500.
Proof.
  unfold Handler.clusterNameOf.
  destruct (HasPrefix _ _); [|discriminate].
  destruct (Index _ _ =? -1); [intros [= <-]; now left|].
  destruct (shortenRawPath _ _ _) as [st'|rawPath] eqn:E; [|discriminate].
  intros [= <-]. right. exact (shortenRawPath_fails _ _ _ _ E).
Qed.

Lemma clusterNameOf_keeps (req r : Request) (c : string) :
  clusterNameOf req = inr (c, r) ->
  Header r = Header req /\ RequestURI r = RequestURI req
  /\ Req_Context r = Req_Context req.
Proof.
  unfold Handler.clusterNameOf.
  destruct (HasPrefix _ _); [|intros [= <- <-]; auto].
  destruct (Index _ _ =? -1); [discriminate|].
  destruct (shortenRawPath _ _ _); [discriminate|].
  intros [= <- <-]. auto.
Qed.

(** What [WithClusterScope] hands on. *)
Lemma cluster_scope_next (req r : Request) :
  WithClusterScope req = Next r ->
  Header r = Header req /\ RequestURI r = RequestURI req
  /\ exists cluster,
      Req_Context r = WithCluster (Req_Context req) cluster
      /\ Cluster_PartialMetadataRequest cluster
         = isPartialMetadataRequest (Req_Context req)
      /\ (Cluster_Wildcard cluster = true /\ Cluster_Name cluster = "*"
          \/ Cluster_Wildcard cluster = false
             /\ (Cluster_Name cluster = LocalAdminCluster
                 \/ Regexp.MatchString reClusterName (Cluster_Name cluster) = true)).
Proof.
  unfold Handler.WithClusterScope.
  destruct (clusterNameOf req) as [st|[c r']] eqn:E; [discriminate|].
  destruct (clusterNameOf_keeps req r' c E) as (Hh & Hu & Hc).
  destruct (String.eqb c Wildcard);
    [|destruct (String.eqb c "");
      [|destruct (Regexp.MatchString reClusterName c) eqn:Em]];
    cbn [negb]; intros [= <-];
    cbn [Header RequestURI Req_Context with_context]; rewrite ?Hc.
  - repeat split; try assumption. eexists. repeat split. left. now split.
  - repeat split; try assumption. eexists. repeat split. right. split; [reflexivity|now left].
  - repeat split; try assumption. eexists. repeat split. right. split; [reflexivity|now right].
Qed.

(** What [WithClusterScope] answers. *)
Lemma cluster_scope_respond (req : Request) (st : Status) :
  WithClusterScope req = Respond st -> Status_Code st = 400 \/ Status_Code st = 500.
Proof.
  unfold Handler.WithClusterScope.
  destruct (clusterNameOf req) as [st'|[c r']] eqn:E.
  - intros [= <-]. exact (clusterNameOf_fails req st' E).
  - destruct (String.eqb c Wildcard); [discriminate|].
    destruct (String.eqb c ""); [discriminate|].
    destruct (Regexp.MatchString reClusterName c); cbn [negb]; [discriminate|].
    intros [= <-]. now left.
Qed.

(** What [WithClusterScope] hands on and what it answers: a request that
    is handed on keeps its headers and its request URI, and its context
    gains a cluster that is the wildcard cluster [*], the local admin
    cluster, or a cluster whose name matches [reClusterName], the wildcard
    mark being set for [*] only; an answer of the handler itself has status
    400 or 500. *)
Theorem cluster_scope_outcome (req : Request) :
  match WithClusterScope req with
  | Next r =>
      Header r = Header req /\ RequestURI r = RequestURI req
      /\ exists cluster,
          Req_Context r = WithCluster (Req_Context req) cluster
          /\ Cluster_PartialMetadataRequest cluster
             = isPartialMetadataRequest (Req_Context req)
          /\ (Cluster_Wildcard cluster = true /\ Cluster_Name cluster = "*"
              \/ Cluster_Wildcard cluster = false
                 /\ (Cluster_Name cluster = LocalAdminCluster
                     \/ Regexp.MatchString reClusterName (Cluster_Name cluster) = true))
  | Respond st => Status_Code st = 400 \/ Status_Code st = 500
  end.
Proof.
  destruct (WithClusterScope req) as [r|st] eqn:E.
  - exact (cluster_scope_next req r E).
  - exact (cluster_scope_respond req st E).
Qed.

(** A request outside [/clusters/] is scoped by its cluster header and
    keeps its URL: the header [*] gives the wildcard cluster, no header (or
    an empty one) the local admin cluster, a valid name the cluster of that
    name, and anything else is answered with status 400. *)
Theorem cluster_scope_by_header (req : Request) :
  HasPrefix (URL_Path (Req_URL req)) "/clusters/" = false ->
  (Header_Get (Header req) ClusterHeader = "*" ->
   WithClusterScope req
   = Next (with_context req
             (WithCluster (Req_Context req)
                (mkCluster "*" true (isPartialMetadataRequest (Req_Context req))))))
  /\ (Header_Get (Header req) ClusterHeader = "" ->
      WithClusterScope req
      = Next (with_context req
                (WithCluster (Req_Context req)
                   (mkCluster LocalAdminCluster false
                      (isPartialMetadataRequest (Req_Context req))))))
  /\ (Regexp.MatchString reClusterName (Header_Get (Header req) ClusterHeader) = true ->
      WithClusterScope req
      = Next (with_context req
                (WithCluster (Req_Context req)
                   (mkCluster (Header_Get (Header req) ClusterHeader) false
                      (isPartialMetadataRequest (Req_Context req))))))
  /\ (Header_Get (Header req) ClusterHeader <> "*" ->
      Header_Get (Header req) ClusterHeader <> "" ->
      Regexp.MatchString reClusterName (Header_Get (Header req) ClusterHeader) = false ->
      exists st, WithClusterScope req = Respond st /\ Status_Code st = 400).
Proof.
  intros Hpath. unfold Handler.WithClusterScope, Handler.clusterNameOf. rewrite Hpath.
  repeat split.
  - intros ->. reflexivity.
  - intros ->. reflexivity.
  - intros Hc.
    now rewrite (HandlerFacts.reClusterName_not_wildcard _ Hc),
                (HandlerFacts.reClusterName_not_empty _ Hc), Hc.
  - intros Hw He Hc. apply String.eqb_neq in Hw, He.
    unfold Wildcard. rewrite Hw, He, Hc. cbn [negb]. eexists. split; reflexivity.
Qed.

(** A request for [/clusters/<c>/<rest>] without a raw path is handed on
    with the path [/<rest>], scoped by what stands between the two slashes:
    [*] gives the wildcard cluster, nothing (the path [/clusters//<rest>])
    the local admin cluster, a valid name the cluster of that name, and
    anything else is answered with status 400. *)
Theorem cluster_scope_by_path (req : Request) (c rest : string) :
  URL_Path (Req_URL req) = "/clusters/" +:+ c +:+ "/" +:+ rest ->
  has_byte "/" c = false ->
  URL_RawPath (Req_URL req) = "" ->
  (c = "*" ->
   WithClusterScope req
   = Next (mkRequest (mkURL ("/" +:+ rest) "") (RequestURI req) (Header req)
             (WithCluster (Req_Context req)
                (mkCluster "*" true (isPartialMetadataRequest (Req_Context req))))))
  /\ (c = "" ->
      WithClusterScope req
      = Next (mkRequest (mkURL ("/" +:+ rest) "") (RequestURI req) (Header req)
                (WithCluster (Req_Context req)
                   (mkCluster LocalAdminCluster false
                      (isPartialMetadataRequest (Req_Context req))))))
  /\ (Regexp.MatchString reClusterName c = true ->
      WithClusterScope req
      = Next (mkRequest (mkURL ("/" +:+ rest) "") (RequestURI req) (Header req)
                (WithCluster (Req_Context req)
                   (mkCluster c false (isPartialMetadataRequest (Req_Context req))))))
  /\ (c <> "*" -> c <> "" -> Regexp.MatchString reClusterName c = false ->
      exists st, WithClusterScope req = Respond st /\ Status_Code st = 400).
Proof.
  intros Hpath Hc Hraw. unfold Handler.WithClusterScope.
  rewrite (HandlerFacts.clusterNameOf_clusters quote req c rest Hpath Hc), Hraw.
  rewrite (HandlerFacts.shortenRawPath_empty quote 2 c).
  repeat split.
  - intros ->. reflexivity.
  - intros ->. reflexivity.
  - intros Hm.
    now rewrite (HandlerFacts.reClusterName_not_wildcard _ Hm),
                (HandlerFacts.reClusterName_not_empty _ Hm), Hm.
  - intros Hw He Hm. apply String.eqb_neq in Hw, He.
    unfold Wildcard. rewrite Hw, He, Hm. cbn [negb]. eexists. split; reflexivity.
Qed.

(** A request inside [/clusters/] is scoped by its path alone: whatever
    its headers are, the cluster header among them, the outcome is the
    same. *)
Theorem cluster_scope_path_over_header (req : Request) (header : gmap string (list string)) :
  HasPrefix (URL_Path (Req_URL req)) "/clusters/" = true ->
  WithClusterScope (mkRequest (Req_URL req) (RequestURI req) header (Req_Context req))
  = match WithClusterScope req with
    | Next r => Next (mkRequest (Req_URL r) (RequestURI r) header (Req_Context r))
    | Respond st => Respond st
    end.
Proof.
  intros Hpath. unfold Handler.WithClusterScope, Handler.clusterNameOf.
  cbn [Req_URL Req_Context]. rewrite Hpath.
  destruct (Index _ _ =? -1); [reflexivity|].
  destruct (shortenRawPath _ _ _); [reflexivity|].
  cbn [with_url Req_Context].
  repeat match goal with |- context [if ?b then _ else _] => destruct b end;
    reflexivity.
Qed.

(** Behind [WithClusterScope], [WithClusterAnnotation] records the
    workspace annotation once, with the name of the cluster the request was
    scoped to, and hands the request on as it is. *)
Theorem cluster_annotation_behind_scope (req r : Request) :
  WithClusterScope req = Next r ->
  exists cluster,
    ctx_cluster (Req_Context r) = Some cluster
    /\ WithClusterAnnotation r
       = (AddAuditAnnotation "tenancy.kcp.dev/workspace" (Cluster_Name cluster) :: nil, r)
    /\ (Cluster_Name cluster = "*" \/ Cluster_Name cluster = LocalAdminCluster
        \/ Regexp.MatchString reClusterName (Cluster_Name cluster) = true).
Proof.
  intros H. destruct (cluster_scope_next req r H) as (_ & _ & cluster & Hctx & _ & Hname).
  exists cluster. unfold WithClusterAnnotation. rewrite Hctx. cbn [WithCluster ctx_cluster].
  repeat split. tauto.
Qed.

End Scope.

(** The request with the cluster header [root:org] is scoped to that
    cluster, and its URL is kept. *)
Lemma cluster_scope_by_header_witness :
  Handler.WithClusterScope Fixtures.quote Fixtures.noPartialMetadata
    Fixtures.LocalAdminCluster Fixtures.headerRequest
  = Next (mkRequest (mkURL "/api/v1/pods" "") "/api/v1/pods"
            (Header Fixtures.headerRequest)
            (mkContext None None (Some (mkCluster "root:org" false false)) None None)).
Proof.
  destruct (cluster_scope_by_header Fixtures.quote Fixtures.noPartialMetadata
              Fixtures.LocalAdminCluster Fixtures.headerRequest eq_refl)
    as (_ & _ & H & _).
  rewrite (H eq_refl). reflexivity.
Defined.

(** A list of pods of all clusters, and a request with nothing between
    the slashes. *)
Lemma cluster_scope_by_path_witness :
  Handler.WithClusterScope Fixtures.quote Fixtures.noPartialMetadata
    Fixtures.LocalAdminCluster (Fixtures.request "/clusters/*/api/v1/pods" "")
  = Next (mkRequest (mkURL "/api/v1/pods" "") "/clusters/*/api/v1/pods" ∅
            (mkContext None None (Some (mkCluster "*" true false)) None None))
  /\ Handler.WithClusterScope Fixtures.quote Fixtures.noPartialMetadata
       Fixtures.LocalAdminCluster (Fixtures.request "/clusters//api/v1/pods" "")
     = Next (mkRequest (mkURL "/api/v1/pods" "") "/clusters//api/v1/pods" ∅
               (mkContext None None (Some (mkCluster "system:admin" false false))
                  None None)).
Proof.
  split.
  - destruct (cluster_scope_by_path Fixtures.quote Fixtures.noPartialMetadata
                Fixtures.LocalAdminCluster (Fixtures.request "/clusters/*/api/v1/pods" "")
                "*" "api/v1/pods" eq_refl eq_refl eq_refl) as (H & _).
    rewrite (H eq_refl). reflexivity.
  - destruct (cluster_scope_by_path Fixtures.quote Fixtures.noPartialMetadata
                Fixtures.LocalAdminCluster (Fixtures.request "/clusters//api/v1/pods" "")
                "" "api/v1/pods" eq_refl eq_refl eq_refl) as (_ & H & _).
    rewrite (H eq_refl). reflexivity.
Defined.

(** Scenario S1 with a cluster header that names another cluster: the
    path decides. *)
Lemma cluster_scope_path_over_header_witness :
  Handler.WithClusterScope Fixtures.quote Fixtures.noPartialMetadata
    Fixtures.LocalAdminCluster
    (mkRequest (mkURL "/clusters/root:org:foo/api/v1/namespaces" "")
               "/clusters/root:org:foo/api/v1/namespaces"
               {[ "X-Kubernetes-Cluster" := "root:other" :: nil ]} Fixtures.emptyContext)
  = Next (mkRequest (mkURL "/api/v1/namespaces" "")
            "/clusters/root:org:foo/api/v1/namespaces"
            {[ "X-Kubernetes-Cluster" := "root:other" :: nil ]}
            (mkContext None None (Some (mkCluster "root:org:foo" false false)) None None)).
Proof.
  rewrite (cluster_scope_path_over_header Fixtures.quote Fixtures.noPartialMetadata
             Fixtures.LocalAdminCluster
             (Fixtures.request "/clusters/root:org:foo/api/v1/namespaces" "")
             {[ "X-Kubernetes-Cluster" := "root:other" :: nil ]} eq_refl).
  reflexivity.
Defined.

(** Scenario S1: the annotation names [root:org:foo]. *)
Lemma cluster_annotation_witness :
  exists r cluster,
    Handler.WithClusterScope Fixtures.quote Fixtures.noPartialMetadata
      Fixtures.LocalAdminCluster
      (Fixtures.request "/clusters/root:org:foo/api/v1/namespaces" "") = Next r
    /\ ctx_cluster (Req_Context r) = Some cluster
    /\ WithClusterAnnotation r
       = (AddAuditAnnotation "tenancy.kcp.dev/workspace" (Cluster_Name cluster) :: nil, r)
    /\ Cluster_Name cluster = "root:org:foo".
Proof.
  eexists.
  destruct (cluster_annotation_behind_scope Fixtures.quote Fixtures.noPartialMetadata
              Fixtures.LocalAdminCluster
              (Fixtures.request "/clusters/root:org:foo/api/v1/namespaces" "") _ eq_refl)
    as (cluster & Hc & Ha & _).
  exists cluster. repeat split; [exact Hc | exact Ha |].
  cbn in Hc. now injection Hc as <-.
Defined.

End ChainFacts.

(** *** The service-account rewrite in front of the cluster scope *)

Module RewriteFacts.
Import GoStrings GoStringsFacts HTTP Handler Chain.

Section RewriteThenScope.

Variable quote : string -> string.
Variable isPartialMetadataRequest : Context -> bool.
Variable LocalAdminCluster : string.
Variable JSONWebToken : Type.
Variable ParseSigned : string -> option JSONWebToken.
Variable UnsafeClaimsWithoutVerification :
  JSONWebToken -> option (gmap string Unstructured.value).

Local Abbreviation WithClusterScope :=
  (Handler.WithClusterScope quote isPartialMetadataRequest LocalAdminCluster).
Local Abbreviation Rewrite :=
  (WithInClusterServiceAccountRequestRewrite
     JSONWebToken ParseSigned UnsafeClaimsWithoutVerification).

(** The request that the rewrite hands on for a token that names a
    cluster. *)
Lemma rewrite_joins (req : Request) (token : string) (jwt : JSONWebToken)
    (claims : gmap string Unstructured.value) (c : string) :
  Header_Get (Header req) ClusterHeader = "" ->
  Header_Get (Header req) "X-Kubernetes-Sharded-Request" = "" ->
  HasPrefix (RequestURI req) "/clusters/" = false ->
  Header_Get (Header req) "Authorization" = "Bearer " +:+ token ->
  ParseSigned token = Some jwt ->
  UnsafeClaimsWithoutVerification jwt = Some claims ->
  claimedClusterName claims = Some c ->
  Rewrite req
  = Next (mkRequest
            (mkURL (GoPath.Join ("/clusters" :: c :: URL_Path (Req_URL req) :: nil))
                   (URL_RawPath (Req_URL req)))
            (GoPath.Join ("/clusters" :: c :: RequestURI req :: nil))
            (Header req) (Req_Context req)).
Proof.
  intros Hcluster Hsharded Huri Hauth Hparse Hclaims Hname.
  unfold WithInClusterServiceAccountRequestRewrite.
  rewrite Hcluster, Hsharded, Huri, Hauth, HasPrefix_append. cbn [String.eqb negb orb].
  change (String.length "Bearer ") with (String.length ("Bearer " : string)).
  now rewrite slice_from_append, Hparse, Hclaims, Hname.
Qed.

(** The rewrite and the cluster scope fit: a service-account request for
    a clean path, rewritten and then scoped, reaches the next handler with
    the path it came with and with the cluster that its token names. *)
Theorem service_account_request_is_scoped
    (req : Request) (token : string) (jwt : JSONWebToken)
    (claims : gmap string Unstructured.value) (c e : string) (es : list string) :
  Header_Get (Header req) ClusterHeader = "" ->
  Header_Get (Header req) "X-Kubernetes-Sharded-Request" = "" ->
  HasPrefix (RequestURI req) "/clusters/" = false ->
  Header_Get (Header req) "Authorization" = "Bearer " +:+ token ->
  ParseSigned token = Some jwt ->
  UnsafeClaimsWithoutVerification jwt = Some claims ->
  claimedClusterName claims = Some c ->
  Regexp.MatchString reClusterName c = true ->
  URL_Path (Req_URL req) = GoPath.rooted_path (e :: es) ->
  Forall (fun x => GoPath.plain_elem x = true) (e :: es) ->
  URL_RawPath (Req_URL req) = "" ->
  andThen Rewrite WithClusterScope req
  = Next (mkRequest (mkURL (URL_Path (Req_URL req)) "")
            (GoPath.Join ("/clusters" :: c :: RequestURI req :: nil))
            (Header req)
            (WithCluster (Req_Context req)
               (mkCluster c false (isPartialMetadataRequest (Req_Context req))))).
Proof.
  intros Hcluster Hsharded Huri Hauth Hparse Hclaims Hname Hc Hpath Hplain Hraw.
  unfold andThen.
  rewrite (rewrite_joins req token jwt claims c Hcluster Hsharded Huri Hauth
             Hparse Hclaims Hname).
  rewrite Hpath, Hraw.
  rewrite (GoPathFacts.Join_clusters c (e :: es) (ChainFacts.reClusterName_plain c Hc) Hplain).
  match goal with
  | |- Handler.WithClusterScope _ _ _ ?r = _ =>
      rewrite (HandlerFacts.WithClusterScope_no_raw_path quote isPartialMetadataRequest
                 LocalAdminCluster r c (e +:+ GoPath.rooted_path es) eq_refl eq_refl Hc)
  end.
  reflexivity.
Qed.

(** They do not fit for the root path: [path.Join] drops the slash that
    ends [/clusters/<name>/], and the cluster scope answers the rewritten
    request with status 400. *)
Theorem service_account_root_request_is_rejected
    (req : Request) (token : string) (jwt : JSONWebToken)
    (claims : gmap string Unstructured.value) (c : string) :
  Header_Get (Header req) ClusterHeader = "" ->
  Header_Get (Header req) "X-Kubernetes-Sharded-Request" = "" ->
  HasPrefix (RequestURI req) "/clusters/" = false ->
  Header_Get (Header req) "Authorization" = "Bearer " +:+ token ->
  ParseSigned token = Some jwt ->
  UnsafeClaimsWithoutVerification jwt = Some claims ->
  claimedClusterName claims = Some c ->
  Regexp.MatchString reClusterName c = true ->
  URL_Path (Req_URL req) = "/" ->
  exists st,
    andThen Rewrite WithClusterScope req = Respond st
    /\ Status_Code st = 400
    /\ Status_Message st = "unable to parse cluster: no `/` found in path " +:+ c.
Proof.
  intros Hcluster Hsharded Huri Hauth Hparse Hclaims Hname Hc Hpath.
  unfold andThen.
  rewrite (rewrite_joins req token jwt claims c Hcluster Hsharded Huri Hauth
             Hparse Hclaims Hname).
  rewrite Hpath, (JoinFacts.Join_clusters_root c (ChainFacts.reClusterName_plain c Hc)).
  unfold Handler.WithClusterScope, Handler.clusterNameOf. cbn [Req_URL URL_Path].
  rewrite HasPrefix_append, TrimPrefix_append,
          (Index_absent "/" c (HandlerFacts.reClusterName_no_slash c Hc)).
  cbn [Z.eqb]. eexists. repeat split.
Qed.

(** The rewrite answers no request itself: it always hands a request on,
    with the headers, the context and the raw path it came with, and either
    as it is or with a path and a request URI that [path.Join] has put
    behind [/clusters/<name>], [<name>] being a cluster name that the claims
    of the bearer token hold. *)
Theorem service_account_rewrite_frame (req : Request) :
  exists r,
    Rewrite req = Next r
    /\ Header r = Header req /\ Req_Context r = Req_Context req
    /\ URL_RawPath (Req_URL r) = URL_RawPath (Req_URL req)
    /\ (r = req
        \/ exists token jwt claims name,
             Header_Get (Header req) "Authorization" = "Bearer " +:+ token
             /\ ParseSigned token = Some jwt
             /\ UnsafeClaimsWithoutVerification jwt = Some claims
             /\ claimedClusterName claims = Some name
             /\ URL_Path (Req_URL r)
                = GoPath.Join ("/clusters" :: name :: URL_Path (Req_URL req) :: nil)
             /\ RequestURI r
                = GoPath.Join ("/clusters" :: name :: RequestURI req :: nil)).
Proof.
  unfold WithInClusterServiceAccountRequestRewrite.
  destruct (negb _ || negb _); [exists req; repeat split; now left|].
  destruct (HasPrefix (RequestURI req) "/clusters/"); [exists req; repeat split; now left|].
  destruct (HasPrefix (Header_Get (Header req) "Authorization") "Bearer ") eqn:Eb;
    cbn [negb]; [|exists req; repeat split; now left].
  apply HasPrefix_inv in Eb as [token Eb]. rewrite Eb.
  change (String.length "Bearer ") with (String.length ("Bearer " : string)).
  rewrite slice_from_append.
  destruct (ParseSigned token) as [jwt|] eqn:Ep; [|exists req; repeat split; now left].
  destruct (UnsafeClaimsWithoutVerification jwt) as [claims|] eqn:Ec;
    [|exists req; repeat split; now left].
  destruct (claimedClusterName claims) as [name|] eqn:En;
    [|exists req; repeat split; now left].
  eexists. split; [reflexivity|]. repeat split.
  right. exists token, jwt, claims, name. repeat split; assumption.
Qed.

End RewriteThenScope.

(** The service-account request for [/api/v1/pods] reaches the next
    handler in the cluster [root:org]. *)
Lemma service_account_request_is_scoped_witness :
  andThen (WithInClusterServiceAccountRequestRewrite _ Fixtures.ParseSigned
             Fixtures.UnsafeClaimsWithoutVerification)
          (Handler.WithClusterScope Fixtures.quote Fixtures.noPartialMetadata
             Fixtures.LocalAdminCluster)
          Fixtures.serviceAccountRequest
  = Next (mkRequest (mkURL "/api/v1/pods" "") "/clusters/root:org/api/v1/pods"
            (Header Fixtures.serviceAccountRequest)
            (mkContext None None (Some (mkCluster "root:org" false false)) None None)).
Proof.
  rewrite (service_account_request_is_scoped Fixtures.quote Fixtures.noPartialMetadata
             Fixtures.LocalAdminCluster _ Fixtures.ParseSigned
             Fixtures.UnsafeClaimsWithoutVerification Fixtures.serviceAccountRequest
             "token" Fixtures.claims Fixtures.claims "root:org" "api" ("v1" :: "pods" :: nil)
             eq_refl eq_refl eq_refl eq_refl eq_refl eq_refl eq_refl eq_refl eq_refl
             ltac:(repeat constructor) eq_refl).
  reflexivity.
Defined.

(** The service-account request for [/] is answered with status 400. *)
Lemma service_account_root_request_witness :
  exists st,
    andThen (WithInClusterServiceAccountRequestRewrite _ Fixtures.ParseSigned
               Fixtures.UnsafeClaimsWithoutVerification)
            (Handler.WithClusterScope Fixtures.quote Fixtures.noPartialMetadata
               Fixtures.LocalAdminCluster)
            Fixtures.serviceAccountRootRequest
    = Respond st
    /\ Status_Code st = 400
    /\ Status_Message st = "unable to parse cluster: no `/` found in path root:org".
Proof.
  exact (service_account_root_request_is_rejected Fixtures.quote Fixtures.noPartialMetadata
           Fixtures.LocalAdminCluster _ Fixtures.ParseSigned
           Fixtures.UnsafeClaimsWithoutVerification Fixtures.serviceAccountRootRequest
           "token" Fixtures.claims Fixtures.claims "root:org"
           eq_refl eq_refl eq_refl eq_refl eq_refl eq_refl eq_refl eq_refl eq_refl).
Defined.

End RewriteFacts.

(** *** The context values, the wildcard handlers and the projection *)

Module WildcardFacts.
Import GoStrings GoStringsFacts HTTP Handler Chain.

(** What [WithUserAgent] stores is what [UserAgentFrom] reads, also with
    [WithAcceptHeader] before or after it; the two handlers change nothing
    else of the request, and in either order they hand on the same
    request. A context that [WithUserAgent] has not seen, and no context at
    all, read as the empty string. *)
Theorem user_agent_is_read_back (req : Request) :
  exists r,
    andThen WithUserAgent WithAcceptHeader req = Next r
    /\ andThen WithAcceptHeader WithUserAgent req = Next r
    /\ UserAgentFrom (Some (Req_Context r)) = Header_Get (Header req) "User-Agent"
    /\ ctx_acceptHeader (Req_Context r) = Some (Header_Get (Header req) "Accept")
    /\ Req_URL r = Req_URL req /\ RequestURI r = RequestURI req
    /\ Header r = Header req
    /\ ctx_cluster (Req_Context r) = ctx_cluster (Req_Context req)
    /\ ctx_requestInfo (Req_Context r) = ctx_requestInfo (Req_Context req)
    /\ ctx_identity (Req_Context r) = ctx_identity (Req_Context req)
    /\ (ctx_userAgent (Req_Context req) = None ->
        UserAgentFrom (Some (Req_Context req)) = "")
    /\ UserAgentFrom None = "".
Proof.
  eexists. split; [reflexivity|]. split; [reflexivity|].
  repeat split. unfold UserAgentFrom. now intros ->.
Qed.

Section Guard.

Variable MethodNotSupportedMessage : string -> string -> string.

Local Abbreviation Guard := (WithWildcardListWatchGuard MethodNotSupportedMessage).

(** The guard hands a request on as it is or answers it: it hands on
    every request outside the wildcard cluster, and in the wildcard cluster
    the requests with a request info that are no resource requests or have
    the verb list or watch; its answers have status 405, or 500 when the
    request info is missing. *)
Theorem wildcard_guard_outcome (req : Request) :
  (Guard req = Next req
   <-> forall cluster,
         ctx_cluster (Req_Context req) = Some cluster ->
         Cluster_Wildcard cluster = true ->
         exists requestInfo,
           ctx_requestInfo (Req_Context req) = Some requestInfo
           /\ (IsResourceRequest requestInfo = true ->
               Verb requestInfo = "list" \/ Verb requestInfo = "watch"))
  /\ (Guard req = Next req
      \/ exists st, Guard req = Respond st
                    /\ (Status_Code st = 405
                        \/ Status_Code st = 500
                           /\ ctx_requestInfo (Req_Context req) = None)).
Proof.
  unfold WithWildcardListWatchGuard.
  destruct (ctx_cluster (Req_Context req)) as [cluster|].
  2:{ split; [|now left]. split; [discriminate | reflexivity]. }
  destruct (Cluster_Wildcard cluster) eqn:Ew.
  2:{ split; [|now left]. split; [|reflexivity].
      intros _ c [= <-] Hc. congruence. }
  destruct (ctx_requestInfo (Req_Context req)) as [requestInfo|].
  2:{ split.
      - split; [discriminate|]. intros H.
        destruct (H cluster eq_refl Ew) as (ri & Hri & _). discriminate.
      - right. eexists. split; [reflexivity|]. right. now split. }
  destruct (IsResourceRequest requestInfo) eqn:Er; cbn [andb].
  2:{ split; [|now left]. split; [|reflexivity].
      intros _ c _ _. exists requestInfo. split; [reflexivity | congruence]. }
  destruct (list_or_watch (Verb requestInfo)) eqn:Ev; cbn [negb].
  - split; [|now left]. split; [|reflexivity].
    intros _ c _ _. exists requestInfo. split; [reflexivity|].
    intros _. now apply ChainFacts.list_or_watch_spec.
  - split.
    + split; [discriminate|]. intros H.
      destruct (H cluster eq_refl Ew) as (ri & [= <-] & Hv).
      specialize (Hv Er). apply ChainFacts.list_or_watch_spec in Hv. congruence.
    + right. eexists. split; [reflexivity|]. now left.
Qed.

End Guard.

Section Identity.

Variable quote : string -> string.

Local Abbreviation Identity := (WithWildcardIdentity quote).

(** What [WithWildcardIdentity] hands on needs no more work: the handler
    hands it on as it is when it sees it again, and in the wildcard cluster
    the resource of a resource request that was handed on holds no colon. *)
Theorem wildcard_identity_settles (req r : Request) :
  Identity req = Next r ->
  Identity r = Next r
  /\ forall cluster requestInfo,
      ctx_cluster (Req_Context r) = Some cluster ->
      Cluster_Wildcard cluster = true ->
      ctx_requestInfo (Req_Context r) = Some requestInfo ->
      IsResourceRequest requestInfo = true ->
      has_byte ":" (Resource requestInfo) = false.
Proof.
  unfold WithWildcardIdentity.
  destruct (ctx_cluster (Req_Context req)) as [cluster|] eqn:Ec.
  2:{ intros [= <-]. rewrite Ec. split; [reflexivity | discriminate]. }
  destruct (Cluster_Wildcard cluster) eqn:Ew; cbn [negb].
  2:{ intros [= <-]. rewrite Ec, Ew. split; [reflexivity|].
      intros c ri [= <-]. congruence. }
  destruct (ctx_requestInfo (Req_Context req)) as [requestInfo|] eqn:Ei; [|discriminate].
  unfold processResourceIdentity.
  destruct (IsResourceRequest requestInfo) eqn:Er; cbn [negb].
  2:{ intros [= <-]. rewrite Ec, Ew, Ei, Er. split; [reflexivity|].
      intros c ri _ _ [= <-]. congruence. }
  unfold Index.
  destruct (index_of (Resource requestInfo) ":") as [n|] eqn:En.
  2:{ intros [= <-]. rewrite Ec, Ew, Ei, Er, En. split; [reflexivity|].
      intros c ri _ _ [= <-] _.
      destruct (has_byte ":" (Resource requestInfo)) eqn:Eb; [|reflexivity].
      destruct (Index_present ":" _ Eb) as (pre & post & E & Hpre).
      rewrite E, (index_of_byte ":" pre post Hpre) in En. discriminate. }
  replace (Z.of_nat n <? 0) with false by (symmetry; apply Z.ltb_ge; lia).
  rewrite Nat2Z.id.
  destruct (String.eqb _ "") eqn:Eid; [discriminate|].
  intros [= <-]. cbn [Req_Context set_requestInfo WithIdentity ctx_cluster
                      ctx_requestInfo]. rewrite Ec, Ew.
  cbn [negb set_Resource IsResourceRequest Resource]. rewrite Er. cbn [negb].
  pose proof (ChainFacts.slice_to_index ":" _ n En) as Hno.
  rewrite (index_of_absent ":" _ Hno). cbn [Z.ltb Z.compare].
  split; [reflexivity|].
  intros c ri _ _ [= <-] _. exact Hno.
Qed.

End Identity.

(** Scenario S3: the list of widgets, once its identity is split off,
    passes the handler as it is. *)
Lemma wildcard_identity_settles_witness :
  WithWildcardIdentity Fixtures.quote Fixtures.listedWidgets
  = Next Fixtures.listedWidgets.
Proof.
  exact (proj1 (wildcard_identity_settles Fixtures.quote Fixtures.listWidgets
                  Fixtures.listedWidgets eq_refl)).
Defined.

Section Projection.

Variable Group Version RootCluster : string.
Hypothesis Group_plain : GoPath.plain_elem Group = true.
Hypothesis Version_plain : GoPath.plain_elem Version = true.

Local Abbreviation Projection := (WithWorkspaceProjection Group Version RootCluster).
Local Abbreviation workspaces := ("/apis/" +:+ Group +:+ "/" +:+ Version +:+ "/workspaces").

Lemma toRedirectPath_workspaces : toRedirectPath Group Version = workspaces.
Proof. unfold toRedirectPath. now apply JoinFacts.Join_apis. Qed.

Lemma getHomeWorkspaceRequestPath_home :
  getHomeWorkspaceRequestPath Group Version = workspaces +:+ "/~".
Proof.
  unfold getHomeWorkspaceRequestPath. rewrite toRedirectPath_workspaces.
  rewrite (JoinFacts.Join_home Group Version Group_plain Version_plain).
  now rewrite !append_assoc.
Qed.

Lemma Projection_redirects (req : Request) (cluster : Cluster) (ps : list string) :
  ctx_cluster (Req_Context req) = Some cluster ->
  GoPath.plain_elem (Cluster_Name cluster) = true ->
  URL_Path (Req_URL req) = GoPath.rooted_path ps ->
  Forall (fun e => GoPath.plain_elem e = true) ps ->
  HasPrefix (URL_Path (Req_URL req)) workspaces = true ->
  (Cluster_Name cluster = RootCluster -> URL_Path (Req_URL req) <> workspaces +:+ "/~") ->
  Projection req
  = Some (with_url req
            (mkURL ("/services/workspaces/" +:+ Cluster_Name cluster +:+ "/all"
                    +:+ URL_Path (Req_URL req))
                   (URL_RawPath (Req_URL req)))).
Proof.
  intros Hc Hname Hpath Hps Hprefix Hhome.
  unfold WithWorkspaceProjection. rewrite Hc.
  rewrite (JoinFacts.plain_not_empty _ Hname).
  rewrite toRedirectPath_workspaces, getHomeWorkspaceRequestPath_home, Hprefix.
  assert (Hnot : String.eqb (Cluster_Name cluster) RootCluster
                 && String.eqb (URL_Path (Req_URL req)) (workspaces +:+ "/~") = false).
  { destruct (String.eqb_spec (Cluster_Name cluster) RootCluster) as [E|]; [|reflexivity].
    cbn [andb]. apply String.eqb_neq. auto. }
  rewrite Hnot, Hpath. now rewrite (JoinFacts.Join_services _ ps Hname Hps).
Qed.

(** The two paths of the projection are
    [/apis/<group>/<version>/workspaces] (the slash that ends [workspaces/]
    is lost in [path.Join]) and [/apis/<group>/<version>/workspaces/~]. In
    a cluster with a plain name, a request whose clean path begins with the
    first is handed on with [/services/workspaces/<cluster>/all] put in
    front of its path, unless it asks the root cluster for the second. *)
Theorem workspace_projection_redirects :
  toRedirectPath Group Version = workspaces
  /\ getHomeWorkspaceRequestPath Group Version = workspaces +:+ "/~"
  /\ forall (req : Request) (cluster : Cluster) (ps : list string),
      ctx_cluster (Req_Context req) = Some cluster ->
      GoPath.plain_elem (Cluster_Name cluster) = true ->
      URL_Path (Req_URL req) = GoPath.rooted_path ps ->
      Forall (fun e => GoPath.plain_elem e = true) ps ->
      HasPrefix (URL_Path (Req_URL req)) (toRedirectPath Group Version) = true ->
      (Cluster_Name cluster = RootCluster ->
       URL_Path (Req_URL req) <> getHomeWorkspaceRequestPath Group Version) ->
      Projection req
      = Some (mkRequest
                (mkURL ("/services/workspaces/" +:+ Cluster_Name cluster +:+ "/all"
                        +:+ URL_Path (Req_URL req))
                       (URL_RawPath (Req_URL req)))
                (RequestURI req) (Header req) (Req_Context req)).
Proof.
  split; [exact toRedirectPath_workspaces|].
  split; [exact getHomeWorkspaceRequestPath_home|].
  intros req cluster ps Hc Hname Hpath Hps Hprefix Hhome.
  rewrite toRedirectPath_workspaces in Hprefix.
  rewrite getHomeWorkspaceRequestPath_home in Hhome.
  now rewrite (Projection_redirects req cluster ps Hc Hname Hpath Hps Hprefix Hhome).
Qed.

(** The projection hands on as it is: every request of a cluster without
    a name, the request of the root cluster for its home workspace, and
    every request whose path does not begin with
    [/apis/<group>/<version>/workspaces]. What it hands on differs from what
    it got in the path at most. Without a cluster in the context it hands
    on nothing: it panics. *)
Theorem workspace_projection_leaves_alone (req : Request) :
  (ctx_cluster (Req_Context req) = None <-> Projection req = None)
  /\ (forall cluster,
         ctx_cluster (Req_Context req) = Some cluster ->
         Cluster_Name cluster = ""
         \/ (Cluster_Name cluster = RootCluster
             /\ URL_Path (Req_URL req) = workspaces +:+ "/~")
         \/ HasPrefix (URL_Path (Req_URL req)) workspaces = false ->
         Projection req = Some req)
  /\ (forall r,
         Projection req = Some r ->
         URL_RawPath (Req_URL r) = URL_RawPath (Req_URL req)
         /\ RequestURI r = RequestURI req /\ Header r = Header req
         /\ Req_Context r = Req_Context req).
Proof.
  unfold WithWorkspaceProjection.
  rewrite toRedirectPath_workspaces, getHomeWorkspaceRequestPath_home.
  destruct (ctx_cluster (Req_Context req)) as [cluster|].
  2:{ repeat split; discriminate. }
  split; [|split].
  - split; [discriminate|].
    repeat match goal with |- context [if ?b then _ else _] => destruct b end;
      discriminate.
  - intros c [= <-] H.
    destruct (String.eqb_spec (Cluster_Name cluster) "") as [|Hne]; [reflexivity|].
    destruct H as [H|[[H1 H2]|H]]; [contradiction | |].
    + rewrite H1, H2, !String.eqb_refl. reflexivity.
    + rewrite H. now destruct (_ && _).
  - intros r.
    repeat match goal with |- context [if ?b then _ else _] => destruct b end;
      intros [= <-]; destruct req as [[path rawPath] uri header ctx]; repeat split.
Qed.

Variable quote : string -> string.
Variable isPartialMetadataRequest : Context -> bool.
Variable LocalAdminCluster : string.

Local Abbreviation WithClusterScope :=
  (Handler.WithClusterScope quote isPartialMetadataRequest LocalAdminCluster).


End Projection.

(** The list of the workspaces of [root:org]. *)
Lemma workspace_projection_redirects_witness :
  WithWorkspaceProjection Fixtures.Group Fixtures.Version Fixtures.RootCluster
    Fixtures.listWorkspaces
  = Some (mkRequest
            (mkURL "/services/workspaces/root:org/all/apis/tenancy.kcp.dev/v1beta1/workspaces"
                   "")
            "/apis/tenancy.kcp.dev/v1beta1/workspaces" ∅
            (mkContext None None (Some (mkCluster "root:org" false false)) None None)).
Proof.
  destruct (workspace_projection_redirects Fixtures.Group Fixtures.Version
              Fixtures.RootCluster eq_refl eq_refl) as (_ & _ & H).
  rewrite (H Fixtures.listWorkspaces (mkCluster "root:org" false false)
             Fixtures.workspacesPath eq_refl eq_refl eq_refl
             ltac:(repeat constructor) eq_refl ltac:(discriminate)).
  reflexivity.
Defined.

(** The root cluster asked for its home workspace, and a list of pods. *)
Lemma workspace_projection_leaves_alone_witness :
  WithWorkspaceProjection Fixtures.Group Fixtures.Version Fixtures.RootCluster
    (Fixtures.scopedRequest "root" "/apis/tenancy.kcp.dev/v1beta1/workspaces/~")
  = Some (Fixtures.scopedRequest "root" "/apis/tenancy.kcp.dev/v1beta1/workspaces/~")
  /\ WithWorkspaceProjection Fixtures.Group Fixtures.Version Fixtures.RootCluster
       (Fixtures.scopedRequest "root:org" "/api/v1/pods")
     = Some (Fixtures.scopedRequest "root:org" "/api/v1/pods").
Proof.
  split.
  - apply (proj1 (proj2 (workspace_projection_leaves_alone Fixtures.Group Fixtures.Version
                           Fixtures.RootCluster eq_refl eq_refl
                           (Fixtures.scopedRequest "root"
                              "/apis/tenancy.kcp.dev/v1beta1/workspaces/~")))
             (mkCluster "root" false false) eq_refl).
    right. left. now split.
  - apply (proj1 (proj2 (workspace_projection_leaves_alone Fixtures.Group Fixtures.Version
                           Fixtures.RootCluster eq_refl eq_refl
                           (Fixtures.scopedRequest "root:org" "/api/v1/pods")))
             (mkCluster "root:org" false false) eq_refl).
    right. right. reflexivity.
Defined.


End WildcardFacts.

(** *** The in-memory writer and the routes of the core-group filter *)

Module RoutingFacts.
Import HTTP Discovery Written.

Lemma fold_data (ops : list write_op) (w : inMemoryResponseWriter) :
  data (fold_left apply_op ops w) = data w +:+ body ops.
Proof.
  revert w; induction ops as [|[code|bytes] ops IH]; intros w; cbn [fold_left body].
  - now rewrite GoStringsFacts.append_empty_r.
  - now rewrite IH.
  - rewrite IH. unfold apply_op, Write.
    destruct (writeHeaderCalled w); cbn [data WriteHeader];
      now rewrite GoStringsFacts.append_assoc.
Qed.

(** Once a status is set, writes do not change it. *)
Lemma fold_writes_keep_status (ops : list write_op) (w : inMemoryResponseWriter) :
  Forall is_write ops -> writeHeaderCalled w = true ->
  respCode (fold_left apply_op ops w) = respCode w.
Proof.
  intros H; revert w; induction H as [|[code|bytes] ops Hop _ IH]; intros w Hw;
    [reflexivity | contradiction|].
  cbn [fold_left apply_op]. rewrite IH; unfold Write; rewrite Hw;
    [reflexivity | exact Hw].
Qed.

Lemma fold_app (pre post : list write_op) (w : inMemoryResponseWriter) :
  fold_left apply_op (pre ++ post) w = fold_left apply_op post (fold_left apply_op pre w).
Proof. apply fold_left_app. Qed.

(** What the in-memory writer holds after a handler has served into it:
    the bytes of all writes in their order; the status of the last
    [WriteHeader], also of one that follows a write; 200 when the handler
    wrote and set no status; and 0 with no body when the handler did
    nothing. *)
Theorem in_memory_writer_records (handler : Request -> list write_op) (req : Request) :
  data (capture handler req) = body (handler req)
  /\ (handler req = nil ->
      respCode (capture handler req) = 0
      /\ writeHeaderCalled (capture handler req) = false)
  /\ (handler req <> nil -> Forall is_write (handler req) ->
      respCode (capture handler req) = 200)
  /\ (forall pre code post,
         handler req = (pre ++ OpWriteHeader code :: post)%list ->
         Forall is_write post ->
         respCode (capture handler req) = code).
Proof.
  unfold capture. repeat split.
  - now rewrite fold_data.
  - now rewrite H.
  - now rewrite H.
  - intros Hne Hw. destruct (handler req) as [|[code|bytes] ops]; [contradiction| |].
    + inversion Hw as [|? ? Hop _]. contradiction.
    + inversion Hw as [|? ? _ Hops]; subst. cbn [fold_left apply_op].
      now rewrite fold_writes_keep_status.
  - intros pre code post -> Hpost. rewrite fold_app. cbn [fold_left apply_op].
    now rewrite fold_writes_keep_status.
Qed.

(** A handler that sets the status 404 after it has begun the body. *)
Lemma in_memory_writer_witness :
  respCode (capture Fixtures.lateStatusHandler Fixtures.discoveryRequest) = 404
  /\ data (capture Fixtures.lateStatusHandler Fixtures.discoveryRequest) = "not found".
Proof.
  destruct (in_memory_writer_records Fixtures.lateStatusHandler Fixtures.discoveryRequest)
    as (Hd & _ & _ & Hc).
  split.
  - apply (Hc (OpWrite "not" :: nil) 404 (OpWrite " found" :: nil) eq_refl).
    repeat constructor.
  - rewrite Hd. reflexivity.
Defined.

Local Ltac settle :=
  repeat split; intros;
  repeat match goal with
         | H : _ /\ _ |- _ => destruct H
         | H : exists _, _ |- _ => destruct H
         | H : _ \/ _ |- _ => destruct H
         end;
  try congruence; eauto.

Section Routes.

Variable CustomResourceDefinition : Type.
Variable APIResourcesForGroupVersion :
  string -> string -> list CustomResourceDefinition -> list APIResource.
Variable Decode : string -> decoded.

Local Abbreviation merge :=
  (mergeCRDsIntoCoreGroup CustomResourceDefinition APIResourcesForGroupVersion Decode).
Local Abbreviation serve :=
  (serveCoreV1Discovery CustomResourceDefinition APIResourcesForGroupVersion Decode).

(** Where the filter sends a request. Without a request info it panics
    (the error it wants to write reads the group of the missing request
    info). With one: a resource request of the core group goes to the CRD
    handler exactly when the lister has the CRD [<resource>.core]; the
    discovery is served exactly for a core-group request that is no
    resource request, has the path [/api/v1] or [/api/v1/] and no
    passthrough header; every other request, every request of another
    group among them, goes down the filter chain. *)
Theorem core_group_routes
    (listed : string + list CustomResourceDefinition) (crdGet : string -> bool)
    (coreHandler : Request -> list write_op) (req : Request) :
  (merge listed crdGet coreHandler req = Panics
   <-> ctx_requestInfo (Req_Context req) = None)
  /\ forall requestInfo,
      ctx_requestInfo (Req_Context req) = Some requestInfo ->
      (merge listed crdGet coreHandler req = CRDHandler
       <-> APIGroup requestInfo = "" /\ IsResourceRequest requestInfo = true
           /\ crdGet (Resource requestInfo +:+ ".core") = true)
      /\ ((exists resp, merge listed crdGet coreHandler req = ServeDiscovery resp)
          <-> APIGroup requestInfo = "" /\ IsResourceRequest requestInfo = false
              /\ (URL_Path (Req_URL req) = "/api/v1" \/ URL_Path (Req_URL req) = "/api/v1/")
              /\ Header req !! Handler.passthroughHeader = None)
      /\ (APIGroup requestInfo <> "" -> merge listed crdGet coreHandler req = ProcessFilter)
      /\ (merge listed crdGet coreHandler req = ProcessFilter
          \/ merge listed crdGet coreHandler req = CRDHandler
          \/ exists resp, merge listed crdGet coreHandler req = ServeDiscovery resp).
Proof.
  unfold mergeCRDsIntoCoreGroup.
  destruct (ctx_requestInfo (Req_Context req)) as [ri|].
  2:{ split; [tauto | discriminate]. }
  split; [split; [|discriminate]|].
  { repeat match goal with
           | |- context [if ?b then _ else _] => destruct b
           | |- context [match ?o with Some _ => _ | None => _ end] => destruct o
           end; discriminate. }
  intros requestInfo [= <-].
  destruct (String.eqb_spec (APIGroup ri) "") as [Hg|Hg]; cbn [negb];
    [destruct (IsResourceRequest ri) eqn:Er; cbn [negb andb];
     [destruct (crdGet (Resource ri +:+ ".core")) eqn:Ec
     |destruct (String.eqb_spec (URL_Path (Req_URL req)) "/api/v1") as [Hp|Hp];
      [|destruct (String.eqb_spec (URL_Path (Req_URL req)) "/api/v1/") as [Hp'|Hp']];
      cbn [orb];
      try (destruct (Header req !! Handler.passthroughHeader) as [values|] eqn:Eh)]|];
    settle.
Qed.

(** The request that [serveCoreV1Discovery] sends to the native handler
    is the client's request with the passthrough header added, and nothing
    else changed; and the filter never serves the discovery for it, so that
    a native handler behind this filter is not asked twice. *)
Theorem discovery_does_not_recur
    (listed : string + list CustomResourceDefinition) (crdGet : string -> bool)
    (coreHandler : Request -> list write_op) (req : Request) :
  (forall resp,
      merge listed crdGet coreHandler (passthroughRequest req) <> ServeDiscovery resp)
  /\ (exists values,
         Header (passthroughRequest req) !! Handler.passthroughHeader
         = Some (values ++ "1" :: nil)%list)
  /\ (forall key, key <> Handler.passthroughHeader ->
                  Header (passthroughRequest req) !! key = Header req !! key)
  /\ Req_URL (passthroughRequest req) = Req_URL req
  /\ RequestURI (passthroughRequest req) = RequestURI req
  /\ Req_Context (passthroughRequest req) = Req_Context req.
Proof.
  assert (Hh : Header (passthroughRequest req) !! Handler.passthroughHeader
               = Some (default nil (Header req !! Handler.passthroughHeader)
                         ++ "1" :: nil)%list).
  { unfold passthroughRequest, Header_Add. cbn [Header]. apply lookup_insert_eq. }
  repeat split.
  - intros resp. unfold mergeCRDsIntoCoreGroup. rewrite Hh.
    repeat match goal with
           | |- context [if ?b then _ else _] => destruct b
           | |- context [match ?o with Some _ => _ | None => _ end] => destruct o
           end; discriminate.
  - eexists. exact Hh.
  - intros key Hkey. unfold passthroughRequest, Header_Add. cbn [Header].
    now apply lookup_insert_ne.
Qed.

(** What [serveCoreV1Discovery] writes: a list only when the CRDs were
    listed, the native handler answered 200 and its body decoded to a list,
    and then the whole of both lists; the answer of the native handler, its
    status and its body as they are, when that status is not 200; and an
    InternalError (500) in every other case. *)
Theorem discovery_outcomes
    (listed : string + list CustomResourceDefinition)
    (coreHandler : Request -> list write_op) (req : Request) :
  match serve listed coreHandler req with
  | ServeVersion served =>
      exists crds v1ResourceList,
        listed = inr crds
        /\ respCode (capture coreHandler (passthroughRequest req)) = 200
        /\ Decode (data (capture coreHandler (passthroughRequest req)))
           = DecodedList v1ResourceList
        /\ Permutation served
             (APIResources v1ResourceList ++ APIResourcesForGroupVersion "" "v1" crds)
  | Relay code body =>
      (exists crds, listed = inr crds)
      /\ code = respCode (capture coreHandler (passthroughRequest req))
      /\ code <> 200
      /\ body = data (capture coreHandler (passthroughRequest req))
  | ErrorNegotiated st =>
      Status_Code st = 500
      /\ ((exists err, listed = inl err)
          \/ respCode (capture coreHandler (passthroughRequest req)) = 200
             /\ forall l, Decode (data (capture coreHandler (passthroughRequest req)))
                          <> DecodedList l)
  end.
Proof.
  unfold serveCoreV1Discovery. destruct listed as [err|crds].
  - split; [reflexivity|]. left. now exists err.
  - destruct (Z.eqb_spec (respCode (capture coreHandler (passthroughRequest req))) StatusOK)
      as [Hc|Hc]; cbn [negb].
    + destruct (Decode _) as [err|typeName|l] eqn:Ed.
      * split; [reflexivity|]. right. split; [exact Hc | discriminate].
      * split; [reflexivity|]. right. split; [exact Hc | discriminate].
      * exists crds, l. repeat split; [exact Hc|].
        apply (GoSortFacts.SliceStable_perm _ APIResource_Name).
    + repeat split; [now exists crds | exact Hc].
Qed.

End Routes.

End RoutingFacts.

(** *** The readiness loop: what ends it, and how long it sleeps *)

Module PaceFacts.
Import FrontProxy FrontProxyFacts Pace.

Lemma iteration_error (o : observation) (e : error) :
  snd (iteration o) = Return (Some e) ->
  e = ContextCanceled /\ ctxDone o = true
  \/ exists rc, e = TerminatedWithExitCode rc /\ terminatedCh o = Some rc.
Proof.
  unfold iteration, select.
  destruct (ctxDone o), (terminatedCh o) as [rc|], (pickTerminated o); cbn [snd];
    try (intros [= <-]; (now left) || (right; now exists rc)).
  all: destruct (negb (configLoads o)); [discriminate|];
    destruct (negb (clientBuilds o)); [discriminate|]; cbn [snd];
    destruct (readyz o) as [|code]; [discriminate|];
    destruct (code =? StatusOK); discriminate.
Qed.

Lemma iteration_sleeps (o : observation) : slept (fst (iteration o)) = 1.
Proof.
  unfold iteration.
  destruct (select _ _ _); [reflexivity..|].
  destruct (negb (configLoads o)); [reflexivity|].
  destruct (negb (clientBuilds o)); reflexivity.
Qed.

Lemma slept_app (a b : list event) : slept (a ++ b) = slept a + slept b.
Proof.
  induction a as [|[s|p c| |p] a IH]; cbn [app slept]; lia.
Qed.

Lemma slept_iterations (obs : list observation) :
  slept (concat (fst (waitForReadiness obs)))
  = Z.of_nat (length (fst (waitForReadiness obs))).
Proof.
  induction obs as [|o obs IH]; [reflexivity|].
  rewrite waitForReadiness_cons. pose proof (iteration_sleeps o) as Ho.
  destruct (iteration o) as [events [err|]]; cbn [fst snd concat length] in *;
    rewrite slept_app, Ho; cbn [slept]; [lia|].
  rewrite IH. lia.
Qed.

(** The loop returns an error for one of two reasons only, the context
    being done or an exit code of the child having arrived; a kubeconfig
    that does not load, a client that cannot be built and a probe that
    fails or answers another status than 200 never end it: as long as the
    two channels are quiet and no probe answers 200 the loop goes on. *)
Theorem readiness_loop_errors (obs : list observation) :
  (forall e,
      snd (waitForReadiness obs) = Returned (Some e) ->
      exists pre o post,
        obs = (pre ++ o :: post)%list /\ Forall continues pre
        /\ (e = ContextCanceled /\ ctxDone o = true
            \/ exists rc, e = TerminatedWithExitCode rc /\ terminatedCh o = Some rc))
  /\ (Forall quiet obs -> Forall (fun o => ~ ready o) obs ->
      snd (waitForReadiness obs) = Waiting
      /\ length (fst (waitForReadiness obs)) = length obs).
Proof.
  split.
  - intros e H. apply waitForReadiness_Returned in H as (pre & o & post & -> & Hpre & Ho).
    exists pre, o, post. split; [reflexivity|]. split; [exact Hpre|].
    now apply iteration_error.
  - intros Hq Hr. induction obs as [|o obs IH]; [now split|].
    inversion Hq as [|? ? [Hd Ht] Hq']; inversion Hr as [|? ? Hn Hr']; subst.
    rewrite waitForReadiness_cons.
    destruct (iteration o) as [events [[e|]|]] eqn:E.
    + exfalso. destruct (iteration_error o e) as [[_ H]|(rc & _ & H)];
        [now rewrite E | congruence | congruence].
    + exfalso. apply Hn, iteration_ready. now rewrite E.
    + cbn [fst snd length]. destruct (IH Hq' Hr') as [-> ->]. now split.
Qed.


End PaceFacts.
